(** * RGB-D capture manifests: the Writer (nerfcapture2dataset.py) and the
      Reader (gradslam_nerfcapture.py)

    A shallow embedding of the two Python modules and the properties of the
    manifest pipeline proved about it.

    Conventions of the embedding.
    - Python floats are modelled as exact rationals [Q]; statements about
      them are up to [Qeq].  Rounding (float32 tensors, float64 arrays) is
      outside the model.
    - Python [str] is modelled as [string]; the character-level builtins
      ([strip], [lower], [int]) are modelled on ASCII text.
    - A raised exception or [sys.exit] is a constructor of [outcome].
    - Calls that leave the process are parameters: [json.load] and [glob]
      are variables of the Reader's section, the file system, the numpy and
      cv2 codecs and [str.format] are fields of the Writer's [Platform]
      record.  The theorems hold whatever those do. *)

From Stdlib Require Import ZArith QArith Qround Qabs Lqa Lia List String Ascii Bool.
From stdpp Require Import base option list strings gmap pretty sorting.

Local Open Scope string_scope.
Local Open Scope list_scope.
Local Open Scope nat_scope.

(** ** Outcomes of Python code *)

Inductive exn : Type :=
| KeyError | ValueError | TypeError | ZeroDivisionError | RuntimeError
| AttributeError | EOFError | OSError | Cv2Error.

Inductive outcome (A : Type) : Type :=
| Return (a : A)
| Raise (e : exn)
| SysExit (code : Z).
Arguments Return {A} a.
Arguments Raise {A} e.
Arguments SysExit {A} code.

Definition obind {A B} (m : outcome A) (k : A -> outcome B) : outcome B :=
  match m with
  | Return a => k a
  | Raise e => Raise e
  | SysExit c => SysExit c
  end.

Declare Scope py_scope.
Delimit Scope py_scope with py.
Notation "x <- m ;; k" := (obind m (fun x => k))
  (at level 100, m at next level, right associativity) : py_scope.

(** Status the interpreter hands to the operating system. *)
Definition exit_status {A} (o : outcome A) : Z :=
  match o with
  | Return _ => 0
  | Raise _ => 1
  | SysExit c => c
  end.

(** [for x in l: ...] with a body that may raise. *)
Fixpoint for_each {A S} (body : A -> S -> outcome S) (l : list A) (s : S) : outcome S :=
  match l with
  | [] => Return s
  | x :: l' => obind (body x s) (for_each body l')
  end.

Fixpoint map_outcome {A B} (f : A -> outcome B) (l : list A) : outcome (list B) :=
  match l with
  | [] => Return []
  | x :: l' =>
      obind (f x) (fun y => obind (map_outcome f l') (fun ys => Return (y :: ys)))
  end.

(** ** Python [str] builtins *)

Module Str.

(** [str.isspace] on the ASCII range. *)
Definition is_space (c : ascii) : bool :=
  let n := nat_of_ascii c in
  ((9 <=? n) && (n <=? 13)) || ((28 <=? n) && (n <=? 32)).

Fixpoint lstrip (s : string) : string :=
  match s with
  | String c s' => if is_space c then lstrip s' else s
  | EmptyString => EmptyString
  end.

Definition rstrip (s : string) : string := String.rev (lstrip (String.rev s)).

Definition strip (s : string) : string := rstrip (lstrip s).

Definition lower_char (c : ascii) : ascii :=
  let n := nat_of_ascii c in
  if (65 <=? n) && (n <=? 90) then ascii_of_nat (n + 32) else c.

Fixpoint lower (s : string) : string :=
  match s with
  | String c s' => String (lower_char c) (lower s')
  | EmptyString => EmptyString
  end.

(** [s[:n]] *)
Fixpoint take (n : nat) (s : string) : string :=
  match n, s with
  | S n', String c s' => String c (take n' s')
  | _, _ => EmptyString
  end.

(** [s[n:]] *)
Fixpoint drop (n : nat) (s : string) : string :=
  match n, s with
  | S n', String _ s' => drop n' s'
  | _, _ => s
  end.

Definition startswith (s pre : string) : bool := String.prefix pre s.

Definition endswith (s suf : string) : bool :=
  String.prefix (String.rev suf) (String.rev s).

(** [s.rfind(c)], [None] for -1. *)
Fixpoint rfind (c : ascii) (s : string) : option nat :=
  match s with
  | EmptyString => None
  | String a s' =>
      match rfind c s' with
      | Some i => Some (S i)
      | None => if Ascii.eqb a c then Some 0 else None
      end
  end.

(** [s.split(sep)] for a one-character separator. *)
Fixpoint split (sep : ascii) (s : string) : list string :=
  match s with
  | EmptyString => [EmptyString]
  | String c s' =>
      if Ascii.eqb c sep then EmptyString :: split sep s'
      else match split sep s' with
           | w :: ws => String c w :: ws
           | [] => [String c EmptyString]
           end
  end.

(** [sep.join(parts)] *)
Fixpoint join (sep : string) (parts : list string) : string :=
  match parts with
  | [] => EmptyString
  | [p] => p
  | p :: ps => p +:+ sep +:+ join sep ps
  end.

(** [s.replace(old, new)] for a non-empty [old]: every non-overlapping
    occurrence, scanning left to right.  [skip] counts the characters of
    an occurrence that was just replaced and must still be passed over. *)
Fixpoint replace_from (skip : nat) (old new s : string) : string :=
  match s with
  | EmptyString => EmptyString
  | String c s' =>
      match skip with
      | S k => replace_from k old new s'
      | O =>
          if String.prefix old s
          then new +:+ replace_from (String.length old - 1) old new s'
          else String c (replace_from 0 old new s')
      end
  end.

Definition replace (s old new : string) : string := replace_from 0 old new s.

Definition digit_of (c : ascii) : option Z :=
  let n := nat_of_ascii c in
  if (48 <=? n) && (n <=? 57) then Some (Z.of_nat (n - 48)) else None.

(** Decimal digits, single underscores allowed between two digits. *)
Fixpoint parse_digits (acc : Z) (after_digit : bool) (s : string) : option Z :=
  match s with
  | EmptyString => if after_digit then Some acc else None
  | String c s' =>
      if Ascii.eqb c "_"
      then (if after_digit then parse_digits acc false s' else None)
      else match digit_of c with
           | Some d => parse_digits (10 * acc + d)%Z true s'
           | None => None
           end
  end.

(** [int(s)]: surrounding whitespace, an optional sign, base 10. *)
Definition int (s : string) : outcome Z :=
  let body := strip s in
  let parsed :=
    match body with
    | String "-" ds => Z.opp <$> parse_digits 0 false ds
    | String "+" ds => parse_digits 0 false ds
    | _ => parse_digits 0 false body
    end in
  match parsed with
  | Some z => Return z
  | None => Raise ValueError
  end.

End Str.

(** ** [pathlib] and [os.path] on POSIX *)

Module PurePath.

Record t : Type := mk { root : string; parts : list string }.

(** A path keeps a leading "/" (exactly two slashes stay "//"); empty and
    "." components are dropped. *)
Definition root_of (s : string) : string :=
  match s with
  | String "/" (String "/" (String "/" _)) => "/"
  | String "/" (String "/" _) => "//"
  | String "/" _ => "/"
  | _ => ""
  end.

Definition keep_part (p : string) : bool :=
  negb (String.eqb p "") && negb (String.eqb p ".").

Definition of_str (s : string) : t :=
  mk (root_of s) (List.filter keep_part (Str.split "/" s)).

Definition to_str (p : t) : string :=
  match root p, parts p with
  | "", [] => "."
  | r, ps => r +:+ Str.join "/" ps
  end.

(** [p / q] with [q] a string. *)
Definition joinpath (p : t) (q : string) : t :=
  let q' := of_str q in
  if String.eqb (root q') "" then mk (root p) (parts p ++ parts q') else q'.

Definition name (p : t) : string := List.last (parts p) "".

Definition splits_suffix (nm : string) : option nat :=
  match Str.rfind "." nm with
  | Some i => if (0 <? i) && (i <? String.length nm - 1) then Some i else None
  | None => None
  end.

Definition stem (p : t) : string :=
  match splits_suffix (name p) with
  | Some i => Str.take i (name p)
  | None => name p
  end.

Definition suffix (p : t) : string :=
  match splits_suffix (name p) with
  | Some i => Str.drop i (name p)
  | None => ""
  end.

End PurePath.

(** [os.path.join(a, b)] *)
Definition os_path_join (a b : string) : string :=
  if Str.startswith b "/" then b
  else if String.eqb a "" || Str.endswith a "/" then a +:+ b
  else a +:+ "/" +:+ b.

(** ** 2-D arrays of numbers ([numpy] arrays, [torch] tensors) *)

Definition matrix : Type := list (list Q).

Definition width (A : matrix) : nat :=
  match A with
  | r :: _ => length r
  | [] => 0
  end.

Definition rectangular (A : matrix) : bool :=
  forallb (fun r => length r =? width A) A.

(** [np.array(rows)]: ragged nested lists are rejected. *)
Definition np_array (rows : list (list Q)) : outcome matrix :=
  if rectangular rows then Return rows else Raise ValueError.

Definition column (j : nat) (A : matrix) : list Q :=
  map (fun r => nth j r 0%Q) A.

(** [A.T] *)
Definition transpose (A : matrix) : matrix :=
  map (fun j => column j A) (seq 0 (width A)).

Definition dot (u v : list Q) : Q :=
  foldr Qplus 0%Q (zip_with Qmult u v).

(** [A @ B]: the rows of [A] must be as long as [B] has rows. *)
Definition matmul (A B : matrix) : outcome matrix :=
  if forallb (fun r => length r =? length B) A
  then Return (map (fun r => map (dot r) (transpose B)) A)
  else Raise RuntimeError.

(** [np.eye(n).tolist()] *)
Definition eye (n : nat) : matrix :=
  map (fun i => map (fun j => if i =? j then 1%Q else 0%Q) (seq 0 n)) (seq 0 n).

(** ** The manifest (transforms.json) *)

Record Intrinsics : Type := {
  fl_x : Q; fl_y : Q; cx : Q; cy : Q; w : Z; h : Z
}.

(** A frame record.  [transform_matrix] is a list of rows of numbers, the
    form the Writer gives it; a flat list or a deeper nesting, which
    [json.load] would also let through, is outside this development. *)
Record FrameRecord : Type := {
  transform_matrix : list (list Q);
  file_path : string;
  depth_path : option string;
  frame_intrinsics : option Intrinsics
}.

Record CaptureManifest : Type := {
  intrinsics : Intrinsics;
  integer_depth_scale : option Q;
  frames : list FrameRecord
}.

(** ** [natsorted(names, key=...)] with an integer key

    natsort orders integer keys numerically and, being built on [sorted],
    keeps the input order of equal keys. *)

Fixpoint insert_by_key {A} (x : Z * A) (l : list (Z * A)) : list (Z * A) :=
  match l with
  | [] => [x]
  | y :: l' => if (x.1 <=? y.1)%Z then x :: l else y :: insert_by_key x l'
  end.

Definition sort_by_key {A} (l : list (Z * A)) : list (Z * A) :=
  foldr insert_by_key [] l.

Definition natsorted_int {A} (key : A -> outcome Z) (l : list A) : outcome (list A) :=
  obind (map_outcome (fun x => obind (key x) (fun k => Return (k, x))) l)
        (fun keyed => Return (map snd (sort_by_key keyed))).

(** * The Reader: gradslam_nerfcapture.py *)

Definition create_filepath_index_mapping (frames : list FrameRecord) : gmap string nat :=
  foldl (fun m '(index, frame) => <[file_path frame := index]> m) ∅
        (imap pair frames).

Record NeRFCaptureDataset : Type := {
  input_folder : string;
  cams_metadata : CaptureManifest;
  frames_metadata : list FrameRecord;
  filepath_index_mapping : gmap string nat;
  image_names : list string;
  png_depth_scale : Q;
  camera_params : Intrinsics;
  load_embeddings : bool;
  embedding_dir : string;
  tmp_poses : option (list matrix)
}.

Definition set_tmp_poses (self : NeRFCaptureDataset) (ps : list matrix) : NeRFCaptureDataset :=
  {| input_folder := input_folder self;
     cams_metadata := cams_metadata self;
     frames_metadata := frames_metadata self;
     filepath_index_mapping := filepath_index_mapping self;
     image_names := image_names self;
     png_depth_scale := png_depth_scale self;
     camera_params := camera_params self;
     load_embeddings := load_embeddings self;
     embedding_dir := embedding_dir self;
     tmp_poses := Some ps |}.

(** The axis flip of [get_filepaths]. *)
Definition P : matrix :=
  [ [1; 0; 0; 0];
    [0; -1; 0; 0];
    [0; 0; -1; 0];
    [0; 0; 0; 1] ]%Q.

(** [P @ c2w @ P.T] *)
Definition convert_pose (c2w : matrix) : outcome matrix :=
  obind (matmul P c2w) (fun Pc => matmul Pc (transpose P)).

(** The sort key of line 48: [int(Path(x).stem)]. *)
Definition stem_key (x : string) : outcome Z :=
  Str.int (PurePath.stem (PurePath.of_str x)).

Section Reader.

(** [json.load(open(path, "r"))] and [natsorted(glob.glob(pattern))]. *)
Variable json_load : string -> outcome CaptureManifest.
Variable glob_natsorted : string -> list string.

Definition load_cams_metadata (folder : string) : outcome CaptureManifest :=
  json_load (folder +:+ "/transforms.json").

(** [__init__] up to the call of the base class constructor, which stores
    [load_embeddings] and [embedding_dir] before it calls [get_filepaths]
    and [load_poses]. *)
Definition __init__ (basedir sequence : string) (embeddings : bool) (emb_dir : string)
  : outcome NeRFCaptureDataset :=
  let folder := os_path_join basedir sequence in
  (cams <- load_cams_metadata folder ;;
   let frames_md := frames cams in
   let mapping := create_filepath_index_mapping frames_md in
   let names := map file_path frames_md in
   names <- natsorted_int stem_key names ;;
   scale <- match integer_depth_scale cams with
            | Some ids => if Qeq_bool ids 0 then Raise ZeroDivisionError
                          else Return (1 / ids)%Q
            | None => Return (13107 # 2)%Q
            end ;;
   Return {| input_folder := folder;
             cams_metadata := cams;
             frames_metadata := frames_md;
             filepath_index_mapping := mapping;
             image_names := names;
             png_depth_scale := scale;
             camera_params := intrinsics cams;
             load_embeddings := embeddings;
             embedding_dir := emb_dir;
             tmp_poses := None |})%py.

Definition color_path_of (base_path : string) (frame_metadata : FrameRecord) : string :=
  base_path +:+ "/" +:+ file_path frame_metadata.

Definition depth_path_of (base_path : string) (frame_metadata : FrameRecord) : string :=
  match depth_path frame_metadata with
  | Some d => base_path +:+ "/" +:+ d
  | None => base_path +:+ "/" +:+ Str.replace (file_path frame_metadata) "rgb" "depth"
  end.

(** One turn of the loop of [get_filepaths]; the state is
    [(color_paths, depth_paths, self.tmp_poses)]. *)
Definition get_filepaths_body (base_path : string) (frame_metadata : FrameRecord)
    (st : list string * list string * list matrix)
  : outcome (list string * list string * list matrix) :=
  let '(color_paths, depth_paths, poses) := st in
  let color_paths := color_paths ++ [color_path_of base_path frame_metadata] in
  let depth_paths := depth_paths ++ [depth_path_of base_path frame_metadata] in
  (c2w <- np_array (transform_matrix frame_metadata) ;;
   _pose <- convert_pose c2w ;;
   Return (color_paths, depth_paths, poses ++ [_pose]))%py.

Definition get_filepaths (self : NeRFCaptureDataset)
  : outcome (NeRFCaptureDataset * (list string * list string * option (list string))) :=
  let base_path := input_folder self in
  (st <- for_each (get_filepaths_body base_path) (frames_metadata self) ([], [], []) ;;
   let embedding_paths :=
     if load_embeddings self
     then Some (glob_natsorted (base_path +:+ "/" +:+ embedding_dir self +:+ "/*.pt"))
     else None in
   Return (set_tmp_poses self st.2, (st.1.1, st.1.2, embedding_paths)))%py.

Definition load_poses (self : NeRFCaptureDataset) : outcome (list matrix) :=
  match tmp_poses self with
  | Some ps => Return ps
  | None => Raise AttributeError
  end.

End Reader.

(** * The Writer: nerfcapture2dataset.py *)

(** ** Pixel arrays *)

Record ndarray : Type := { shape : list nat; elems : list Q }.

(** Rounding toward zero, as a C cast does. *)
Definition Qtrunc (q : Q) : Z := Z.quot (Qnum q) (Z.pos (Qden q)).

(** [x.astype(np.uintN)] on one value: truncate, then wrap to [bits] bits. *)
Definition to_uint (bits : Z) (x : Q) : Z := (Qtrunc x mod 2 ^ bits)%Z.

Definition astype_uint (bits : Z) (a : ndarray) : ndarray :=
  {| shape := shape a; elems := map (fun x => inject_Z (to_uint bits x)) (elems a) |}.

Definition arr_map (f : Q -> Q) (a : ndarray) : ndarray :=
  {| shape := shape a; elems := map f (elems a) |}.

(** [a.max()] *)
Definition arr_max (a : ndarray) : outcome Q :=
  match elems a with
  | [] => Raise ValueError
  | x :: xs => Return (foldl (fun m y => if Qle_bool m y then y else m) x xs)
  end.

(** [a.shape[:2] != (height, width)] *)
Definition shape_differs (a : ndarray) (height width : Z) : bool :=
  negb (bool_decide (map Z.of_nat (take 2 (shape a)) = [height; width])).

Fixpoint chunks (c : nat) (cur : list Q) (l : list Q) : list (list Q) :=
  match l with
  | [] => match cur with [] => [] | _ => [reverse cur] end
  | x :: l' =>
      if length (x :: cur) =? c then reverse (x :: cur) :: chunks c [] l'
      else chunks c (x :: cur) l'
  end.

(** [a.tolist()] of a 2-D array: the rows. *)
Definition tolist (a : ndarray) : list (list Q) :=
  chunks (List.last (shape a) 1) [] (elems a).

(** One entry of [(depth_data * depth_scale).astype(np.uint16)], line 117;
    [store_depth] below computes the whole array, and [astype_uint16_quantize]
    and [store_depth_run] relate the two.  [dequantize] is the division by
    the same scale that recovers metres. *)
Definition quantize (d s : Q) : Z := to_uint 16 (d * s).
Definition dequantize (q : Z) (s : Q) : Q := (inject_Z q / s)%Q.

(** ** Configuration *)

Record DataConfig : Type := {
  data_dir : string;
  num_frames : Z;
  depth_scale : option Q;
  cfg_fl_x : option Q;
  cfg_fl_y : option Q;
  cfg_cx : option Q;
  cfg_cy : option Q;
  cfg_width : option Z;
  cfg_height : option Z;
  rgb_format : string;
  depth_format : string;
  depth_in_millimeters : option bool;
  pose_format : option string
}.

(** [d.get(key, default)] *)
Definition get {A} (field : option A) (default : A) : A :=
  match field with
  | Some v => v
  | None => default
  end.

(** ** The world outside the process *)

Inductive color_code : Type := COLOR_BGR2RGB | COLOR_RGB2BGR.

(** What the operating system, numpy and OpenCV do.  A mutating call hands
    back the file system it leaves behind even when it raises. *)
Record Platform : Type := {
  FS : Type;
  path_exists : FS -> string -> bool;
  rmtree : string -> FS -> outcome unit * FS;
  mkdir : string -> bool -> FS -> outcome unit * FS;
  np_load : FS -> string -> outcome ndarray;
  np_loadtxt : FS -> string -> outcome ndarray;
  cv2_imread : FS -> string -> bool -> option ndarray;
  cv2_cvtColor : option ndarray -> color_code -> outcome ndarray;
  cv2_resize : ndarray -> Z * Z -> bool -> outcome ndarray;
  cv2_imwrite : string -> ndarray -> FS -> outcome unit * FS;
  write_text : string -> CaptureManifest -> FS -> outcome unit * FS;
  str_format : string -> nat -> outcome string
}.

(** Lines written to standard output. *)
Inductive message : Type :=
| MsgPrompt (save_path : string)
| MsgExists (save_path : string)
| MsgCreating (n : Z)
| MsgProcessing (k : nat) (n : Z)
| MsgSkip (rgb_path : string) (frame_idx : nat)
| MsgPoseError (pose_path : string) (e : exn)
| MsgIdentityFallback
| MsgSaving
| MsgCreated (save_path : string).

Definition exn_text (e : exn) : string :=
  match e with
  | KeyError => "KeyError" | ValueError => "ValueError" | TypeError => "TypeError"
  | ZeroDivisionError => "division by zero" | RuntimeError => "RuntimeError"
  | AttributeError => "AttributeError" | EOFError => "EOFError"
  | OSError => "OSError" | Cv2Error => "cv2.error"
  end.

Definition render (m : message) : string :=
  match m with
  | MsgPrompt p =>
      "warning! folder '" +:+ p +:+ "' will be deleted/replaced. continue? (Y/n)"
  | MsgExists p => "save_path " +:+ p +:+ " already exists"
  | MsgCreating n => "Creating dataset from " +:+ pretty n +:+ " frames..."
  | MsgProcessing k n => "Processing frame " +:+ pretty k +:+ "/" +:+ pretty n
  | MsgSkip p i => "RGB file " +:+ p +:+ " not found, skipping frame " +:+ pretty i
  | MsgPoseError p e => "Error loading pose from " +:+ p +:+ ": " +:+ exn_text e
  | MsgIdentityFallback => "Using identity matrix as fallback"
  | MsgSaving => "Saving manifest..."
  | MsgCreated p => "Dataset created successfully at " +:+ p
  end.

(** File-system calls that create, delete or modify something. *)
Inductive fs_call : Type :=
| CallRmtree (path : string)
| CallMkdir (path : string)
| CallImwrite (path : string) (img : ndarray)
| CallWriteText (path : string) (manifest : CaptureManifest).

Record world (F : Type) : Type := World {
  fs : F;
  stdin : list string;
  stdout : list message;
  calls : list fs_call
}.
Arguments World {F} fs stdin stdout calls.
Arguments fs {F} w.
Arguments stdin {F} w.
Arguments stdout {F} w.
Arguments calls {F} w.

Section Writer.

Context (pf : Platform).

#[local] Abbreviation wstate := (world (FS pf)).

(** Code that reads and changes the world and may raise or exit. *)
Definition W (A : Type) : Type := wstate -> outcome A * wstate.

#[global] Instance W_ret : MRet W := fun A a w => (Return a, w).

#[global] Instance W_bind : MBind W := fun A B k m w =>
  match m w with
  | (Return a, w') => k a w'
  | (Raise e, w') => (Raise e, w')
  | (SysExit c, w') => (SysExit c, w')
  end.

Definition lift {A} (o : outcome A) : W A := fun w => (o, w).

Definition raise {A} (e : exn) : W A := lift (Raise e).

(** [sys.exit(code)] *)
Definition sys_exit {A} (code : Z) : W A := lift (SysExit code).

(** [try: body / except Exception: handler]; [SystemExit] passes through. *)
Definition try_except {A} (body : W A) (handler : exn -> W A) : W A := fun w =>
  match body w with
  | (Raise e, w') => handler e w'
  | r => r
  end.

Definition print (m : message) : W unit := fun w =>
  (Return tt, World (fs w) (stdin w) (stdout w ++ [m]) (calls w)).

(** [input(prompt)]: the prompt is written, one line is consumed. *)
Definition input (prompt : message) : W string := fun w =>
  match stdin w with
  | line :: rest => (Return line, World (fs w) rest (stdout w ++ [prompt]) (calls w))
  | [] => (Raise EOFError, World (fs w) [] (stdout w ++ [prompt]) (calls w))
  end.

Definition query {A} (f : FS pf -> A) : W A := fun w => (Return (f (fs w)), w).

Definition read_fs {A} (f : FS pf -> outcome A) : W A := fun w => (f (fs w), w).

Definition mutate (c : fs_call) (f : FS pf -> outcome unit * FS pf) : W unit := fun w =>
  let '(o, fs') := f (fs w) in
  (o, World fs' (stdin w) (stdout w) (calls w ++ [c])).

Definition exists_ (p : PurePath.t) : W bool :=
  query (fun f => path_exists pf f (PurePath.to_str p)).

Definition shutil_rmtree (p : PurePath.t) : W unit :=
  mutate (CallRmtree (PurePath.to_str p)) (rmtree pf (PurePath.to_str p)).

Definition path_mkdir (p : PurePath.t) (parents : bool) : W unit :=
  mutate (CallMkdir (PurePath.to_str p)) (mkdir pf (PurePath.to_str p) parents).

Definition imwrite (p : PurePath.t) (img : ndarray) : W unit :=
  mutate (CallImwrite (PurePath.to_str p) img) (cv2_imwrite pf (PurePath.to_str p) img).

(** [path.suffix.lower() in ['.npy']] *)
Definition is_npy (p : PurePath.t) : bool :=
  String.eqb (Str.lower (PurePath.suffix p)) ".npy".

(** [for x in l: ...] threading the list of frame records built so far. *)
Fixpoint for_frames {A S} (body : A -> S -> W S) (l : list A) (acc : S) : W S :=
  match l with
  | [] => mret acc
  | x :: l' => acc' ← body x acc; for_frames body l' acc'
  end.

(** Lines 31-39: the destination already exists. *)
Definition reply_declines (reply : string) : bool :=
  negb (String.eqb (Str.take 1 (Str.strip (Str.lower reply) +:+ "y")) "y").

Definition overwrite_guard (save_path : PurePath.t) (overwrite : bool) : W unit :=
  ex ← exists_ save_path;
  if ex : bool then
    if overwrite then
      reply ← input (MsgPrompt (PurePath.to_str save_path));
      if reply_declines reply then sys_exit 1
      else shutil_rmtree save_path
    else
      print (MsgExists (PurePath.to_str save_path));;
      sys_exit 1
  else mret tt.

Section Frame.

Variable data_config : DataConfig.
Variables images_dir depth_dir data_dir_ : PurePath.t.

Let depth_scale_ : Q := get (depth_scale data_config) 1000%Q.
Let fl_x_ : Q := get (cfg_fl_x data_config) (142520648 # 100000)%Q.
Let fl_y_ : Q := get (cfg_fl_y data_config) (151451572 # 100000)%Q.
Let cx_ : Q := get (cfg_cx data_config) 960%Q.
Let cy_ : Q := get (cfg_cy data_config) 540%Q.
Let width : Z := get (cfg_width data_config) 1920%Z.
Let height : Z := get (cfg_height data_config) 1080%Z.

Definition config_intrinsics : Intrinsics :=
  {| fl_x := fl_x_; fl_y := fl_y_; cx := cx_; cy := cy_; w := width; h := height |}.

(** Lines 83-93 *)
Definition load_rgb (rgb_path : PurePath.t) : W ndarray :=
  if is_npy rgb_path then
    rgb_data ← read_fs (fun f => np_load pf f (PurePath.to_str rgb_path));
    top ← lift (arr_max rgb_data);
    if Qle_bool top 1
    then mret (astype_uint 8 (arr_map (fun x => x * 255)%Q rgb_data))
    else mret (astype_uint 8 rgb_data)
  else
    img ← query (fun f => cv2_imread pf f (PurePath.to_str rgb_path) false);
    lift (cv2_cvtColor pf img COLOR_BGR2RGB).

(** Lines 95-101 *)
Definition save_rgb (frame_idx : nat) (rgb_data : ndarray) : W unit :=
  rgb_data ← (if shape_differs rgb_data height width
              then lift (cv2_resize pf rgb_data (width, height) false)
              else mret rgb_data);
  let rgb_save_path := PurePath.joinpath images_dir (pretty frame_idx +:+ ".png") in
  bgr ← lift (cv2_cvtColor pf (Some rgb_data) COLOR_RGB2BGR);
  imwrite rgb_save_path bgr.

(** Arithmetic on what [cv2.imread] returned; [None] is not a number. *)
Definition arith (f : Q -> Q) (a : option ndarray) : W (option ndarray) :=
  match a with
  | Some a => mret (Some (arr_map f a))
  | None => raise TypeError
  end.

(** Lines 103-126: [None] when the frame has no depth source. *)
Definition store_depth (frame_idx : nat) : W (option ndarray) :=
  rel ← lift (str_format pf (depth_format data_config) frame_idx);
  let depth_path := PurePath.joinpath data_dir_ rel in
  ex ← exists_ depth_path;
  if ex : bool then
    depth_data ← (if is_npy depth_path
                  then a ← read_fs (fun f => np_load pf f (PurePath.to_str depth_path));
                       mret (Some a)
                  else query (fun f => cv2_imread pf f (PurePath.to_str depth_path) true));
    depth_data ← (if get (depth_in_millimeters data_config) false
                  then arith (fun x => x / 1000)%Q depth_data
                  else mret depth_data);
    scaled ← arith (fun x => x * depth_scale_)%Q depth_data;
    match scaled with
    | None => raise TypeError
    | Some scaled =>
        let depth_uint16 := astype_uint 16 scaled in
        depth_uint16 ← (if shape_differs depth_uint16 height width
                        then lift (cv2_resize pf depth_uint16 (width, height) true)
                        else mret depth_uint16);
        let depth_save_path := PurePath.joinpath depth_dir (pretty frame_idx +:+ ".png") in
        imwrite depth_save_path depth_uint16;;
        mret (Some depth_uint16)
    end
  else mret None.

(** [data_config.get('pose_format')] as a condition *)
Definition has_pose_format : bool :=
  match pose_format data_config with
  | Some f => negb (String.eqb f "")
  | None => false
  end.

(** Lines 128-145: the pose file as it is, or the identity. *)
Definition load_transform (frame_idx : nat) : W (list (list Q)) :=
  let transform_matrix := eye 4 in
  rel ← lift (str_format pf (get (pose_format data_config) "") frame_idx);
  let pose_path := PurePath.joinpath data_dir_ rel in
  ex ← (if has_pose_format then exists_ pose_path else mret false);
  if ex : bool then
    try_except
      (pose_data ← (if is_npy pose_path
                    then read_fs (fun f => np_load pf f (PurePath.to_str pose_path))
                    else read_fs (fun f => np_loadtxt pf f (PurePath.to_str pose_path)));
       mret (tolist pose_data))
      (fun e =>
         print (MsgPoseError (PurePath.to_str pose_path) e);;
         print MsgIdentityFallback;;
         mret transform_matrix)
  else mret transform_matrix.

(** Lines 147-159 *)
Definition frame_data (frame_idx : nat) (transform : list (list Q))
    (depth : option ndarray) : FrameRecord :=
  {| transform_matrix := transform;
     file_path := "rgb/" +:+ pretty frame_idx +:+ ".png";
     depth_path := match depth with
                   | Some _ => Some ("depth/" +:+ pretty frame_idx +:+ ".png")
                   | None => None
                   end;
     frame_intrinsics := Some config_intrinsics |}.

(** Lines 75-161: one turn of the loop over [range(num_frames)];
    [frames_] is [manifest["frames"]]. *)
Definition process_frame (frame_idx : nat) (frames_ : list FrameRecord)
  : W (list FrameRecord) :=
  print (MsgProcessing (frame_idx + 1) (num_frames data_config));;
  rel ← lift (str_format pf (rgb_format data_config) frame_idx);
  let rgb_path := PurePath.joinpath data_dir_ rel in
  ex ← exists_ rgb_path;
  if negb ex then
    print (MsgSkip (PurePath.to_str rgb_path) frame_idx);;
    mret frames_
  else
    rgb_data ← load_rgb rgb_path;
    save_rgb frame_idx rgb_data;;
    depth ← store_depth frame_idx;
    transform ← load_transform frame_idx;
    mret (frames_ ++ [frame_data frame_idx transform depth]).

End Frame.

Definition transforms_path (save_path : PurePath.t) : string :=
  PurePath.to_str (PurePath.joinpath save_path "transforms.json").

(** Lines 63-72, with the frame records the loop has appended. *)
Definition make_manifest (data_config : DataConfig) (frames_ : list FrameRecord)
  : CaptureManifest :=
  {| intrinsics := config_intrinsics data_config;
     integer_depth_scale := Some (get (depth_scale data_config) 1000 / 65535)%Q;
     frames := frames_ |}.

(** Lines 41-168, after the destination check. *)
Definition build_dataset (save_path : PurePath.t) (data_config : DataConfig) : W unit :=
  let images_dir := PurePath.joinpath save_path "rgb" in
  let depth_dir := PurePath.joinpath save_path "depth" in
  path_mkdir save_path true;;
  path_mkdir images_dir false;;
  path_mkdir depth_dir false;;
  let data_dir_ := PurePath.of_str (data_dir data_config) in
  print (MsgCreating (num_frames data_config));;
  frames_ ← for_frames (process_frame data_config images_dir depth_dir data_dir_)
                       (seq 0 (Z.to_nat (num_frames data_config))) [];
  let manifest := make_manifest data_config frames_ in
  print MsgSaving;;
  mutate (CallWriteText (transforms_path save_path) manifest)
         (write_text pf (transforms_path save_path) manifest);;
  print (MsgCreated (PurePath.to_str save_path)).

Definition create_dataset_from_files (save_path : PurePath.t) (overwrite : bool)
    (data_config : DataConfig) : W unit :=
  overwrite_guard save_path overwrite;;
  build_dataset save_path data_config.

End Writer.

(** ** An in-memory platform

    A small file system in which the Writer can be run: a path is a
    directory, an array file or a manifest.  Format patterns are a prefix
    and a suffix around "{}". *)

Module MemFS.

Inductive node : Type :=
| Dir
| Arr (a : ndarray)
| Json (m : CaptureManifest).

Definition t : Type := list (string * node).

Fixpoint lookup (f : t) (p : string) : option node :=
  match f with
  | [] => None
  | (q, n) :: f' => if String.eqb p q then Some n else lookup f' p
  end.

Definition under (dir p : string) : bool :=
  String.eqb p dir || String.prefix (dir +:+ "/") p.

Definition read_array (f : t) (p : string) : outcome ndarray :=
  match lookup f p with
  | Some (Arr a) => Return a
  | _ => Raise OSError
  end.

Fixpoint format_holes (pattern : string) (i : nat) : string :=
  match pattern with
  | String "{" (String "}" rest) => pretty i +:+ rest
  | String c rest => String c (format_holes rest i)
  | EmptyString => EmptyString
  end.

Definition platform : Platform :=
  {| FS := t;
     path_exists := fun f p => match lookup f p with Some _ => true | None => false end;
     rmtree := fun p f => (Return tt, List.filter (fun e => negb (under p e.1)) f);
     mkdir := fun p _ f => (Return tt, (p, Dir) :: f);
     np_load := read_array;
     np_loadtxt := read_array;
     cv2_imread := fun f p _ => match lookup f p with Some (Arr a) => Some a | _ => None end;
     cv2_cvtColor := fun a _ => match a with Some a => Return a | None => Raise Cv2Error end;
     cv2_resize := fun a size _ => Return a;
     cv2_imwrite := fun p a f => (Return tt, (p, Arr a) :: f);
     write_text := fun p m f => (Return tt, (p, Json m) :: f);
     str_format := fun pattern i => Return (format_holes pattern i) |}.

End MemFS.

(** ** A small capture

    Three requested frames under "raw": frame 0 has colour, depth and a
    pose file, frame 1 has colour only, frame 2 has no colour file.  The
    destination "out" already exists. *)

Module Capture.

Definition pixel : ndarray := {| shape := [1; 1]; elems := [(3 # 2)%Q] |}.

Definition pose0 : ndarray :=
  {| shape := [4; 4];
     elems := [1; 0; 0; 5;  0; 1; 0; 6;  0; 0; 1; 7;  0; 0; 0; 1]%Q |}.

Definition config_scaled (scale : Q) : DataConfig :=
  {| data_dir := "raw"; num_frames := 3; depth_scale := Some scale;
     cfg_fl_x := None; cfg_fl_y := None; cfg_cx := None; cfg_cy := None;
     cfg_width := Some 1%Z; cfg_height := Some 1%Z;
     rgb_format := "c{}.npy"; depth_format := "d{}.npy";
     depth_in_millimeters := None; pose_format := Some "p{}.npy" |}.

Definition config : DataConfig := config_scaled 1000.

Definition files : MemFS.t :=
  [ ("raw/c0.npy", MemFS.Arr pixel); ("raw/d0.npy", MemFS.Arr pixel);
    ("raw/p0.npy", MemFS.Arr pose0); ("raw/c1.npy", MemFS.Arr pixel);
    ("out", MemFS.Dir); ("out/old.png", MemFS.Arr pixel) ].

Definition start (replies : list string) : world MemFS.t :=
  World files replies [] [].

Definition run (overwrite : bool) (replies : list string)
  : outcome unit * world MemFS.t :=
  create_dataset_from_files MemFS.platform (PurePath.of_str "out") overwrite config
                            (start replies).

(** A manifest listing its frames out of numeric order. *)
Definition frame (path : string) (tx : Q) : FrameRecord :=
  {| transform_matrix := [ [1; 0; 0; tx]; [0; 1; 0; tx]; [0; 0; 1; 0]; [0; 0; 0; 1] ]%Q;
     file_path := path; depth_path := None; frame_intrinsics := None |}.

Definition unordered : CaptureManifest :=
  {| intrinsics := config_intrinsics config;
     integer_depth_scale := Some 1%Q;
     frames := [frame "rgb/10.png" 10; frame "rgb/2.png" 2; frame "rgb/1.png" 1] |}.

Definition reader (m : CaptureManifest) : outcome NeRFCaptureDataset :=
  __init__ (fun _ => Return m) "data" "scene" false "embeddings".

End Capture.

(** ** Vocabulary of the statements *)

Definition is_4x4 (A : matrix) : bool :=
  (length A =? 4) && forallb (fun r => length r =? 4) A.

Definition entry (A : matrix) (i j : nat) : Q := nth j (nth i A []) 0%Q.

(** Equality of arrays up to [Qeq] on each entry. *)
Definition mat_eq (A B : matrix) : Prop := Forall2 (Forall2 Qeq) A B.

Definition sum4 (f : nat -> Q) : Q := Qplus (Qplus (Qplus (f 0) (f 1)) (f 2)) (f 3).

(** The conversion in the words of the specification: P = diag(1, -1, -1, 1)
    and entry (i, j) of the product P . C . P^T, the sum over k and l of
    P(i,k) C(k,l) P^T(l,j) with P^T(l,j) = P(j,l). *)
Definition spec_P (i j : nat) : Q :=
  if i =? j then (if (i =? 1) || (i =? 2) then (-1)%Q else 1%Q) else 0%Q.

Definition spec_P_C_Pt (C : matrix) (i j : nat) : Q :=
  sum4 (fun k => sum4 (fun l => spec_P i k * entry C k l * spec_P j l)%Q).

(** The pose [get_filepaths] computes for one frame record. *)
Definition pose_of (frame_metadata : FrameRecord) : outcome matrix :=
  obind (np_array (transform_matrix frame_metadata)) convert_pose.

(** A manifest the Reader can load: every file stem reads as an integer and
    the depth scale, when given, is not zero. *)
Definition is_return {A} (o : outcome A) : bool :=
  match o with Return _ => true | _ => false end.

Definition loadable (m : CaptureManifest) : bool :=
  forallb (fun f => is_return (stem_key (file_path f))) (frames m)
  && match integer_depth_scale m with
     | Some ids => negb (Qeq_bool ids 0)
     | None => true
     end.

(** The reply confirms the deletion, in the words of the specification:
    lowercased and stripped it is empty or starts with "y". *)
Definition spec_confirms (reply : string) : Prop :=
  let r := Str.strip (Str.lower reply) in
  r = "" \/ exists rest, r = String "y" rest.

Definition key_le {A} (x y : Z * A) : Prop := (x.1 <= y.1)%Z.

Definition not_skip (m : message) : Prop :=
  match m with MsgSkip _ _ => False | _ => True end.

Definition not_rmtree (c : fs_call) : Prop :=
  match c with CallRmtree _ => False | _ => True end.

(** The frame indices the log reports as skipped. *)
Definition skipped_indices (out : list message) : list nat :=
  omap (fun m => match m with MsgSkip _ i => Some i | _ => None end) out.

(** What a Writer computation adds to the call trace and to standard output. *)
Definition emits (pf : Platform) (Pc : fs_call -> Prop) (Pm : message -> Prop) {A}
    (m : W pf A) : Prop :=
  forall w, exists cs ms,
    calls (m w).2 = calls w ++ cs /\ stdout (m w).2 = stdout w ++ ms /\
    Forall Pc cs /\ Forall Pm ms.

(** The world once the prompt has been written and one reply consumed. *)
Definition prompted (pf : Platform) (w : world (FS pf)) (save_path : PurePath.t)
    (rest : list string) : world (FS pf) :=
  World (fs w) rest (stdout w ++ [MsgPrompt (PurePath.to_str save_path)]) (calls w).

(** The matrix is the content of a pose file as loaded, or the identity:
    no conversion has been applied to it. *)
Definition stored_as_loaded (pf : Platform) (transform : list (list Q)) : Prop :=
  transform = eye 4 \/
  exists (f : FS pf) (path : string) (a : ndarray),
    (np_load pf f path = Return a \/ np_loadtxt pf f path = Return a) /\
    transform = tolist a.

(** No character of [s] is [c]. *)
Fixpoint lacks (c : ascii) (s : string) : bool :=
  match s with
  | EmptyString => true
  | String a s' => negb (Ascii.eqb a c) && lacks c s'
  end.


(** Every file stem of the manifest reads as an integer. *)
Definition stems_parse (m : CaptureManifest) : bool :=
  forallb (fun f => is_return (stem_key (file_path f))) (frames m).

(** [x] has integer key [k]. *)
Definition keyed_by {A} (key : A -> outcome Z) (k : Z) (x : A) : bool :=
  match key x with
  | Return z => (z =? k)%Z
  | _ => false
  end.

(** Every character of [s] satisfies [ok]. *)
Fixpoint all_chars (ok : ascii -> bool) (s : string) : bool :=
  match s with
  | EmptyString => true
  | String a s' => ok a && all_chars ok s'
  end.

Definition is_digit (c : ascii) : bool :=
  match Str.digit_of c with Some _ => true | None => false end.

(** The name the Writer gives the colour image of frame [i]. *)
Definition frame_name (i : nat) : string := "rgb/" +:+ pretty i +:+ ".png".

(** Where the Writer puts the images of frame [i]. *)
Definition rgb_target (images_dir : PurePath.t) (i : nat) : string :=
  PurePath.to_str (PurePath.joinpath images_dir (pretty i +:+ ".png")).

Definition depth_target (depth_dir : PurePath.t) (i : nat) : string :=
  PurePath.to_str (PurePath.joinpath depth_dir (pretty i +:+ ".png")).

(** [f] is the record of frame [i] as the Writer builds it, and the calls of
    [w] include the writes of the images it names. *)
Definition written_record (pf : Platform) (data_config : DataConfig)
    (images_dir depth_dir : PurePath.t) (w : world (FS pf)) (i : nat) (f : FrameRecord)
  : Prop :=
  exists transform depth,
    f = frame_data data_config i transform depth /\
    stored_as_loaded pf transform /\
    (has_pose_format data_config = false -> transform = eye 4) /\
    (exists img, CallImwrite (rgb_target images_dir i) img ∈ calls w) /\
    (forall img, depth = Some img -> CallImwrite (depth_target depth_dir i) img ∈ calls w).

(** The calls a run of the Writer for [n] frames may make on the file system:
    all of them name the destination or a path the Writer forms under it. *)
Definition writer_target (save_path : PurePath.t) (n : nat) (c : fs_call) : Prop :=
  match c with
  | CallRmtree p => p = PurePath.to_str save_path
  | CallMkdir p =>
      p = PurePath.to_str save_path \/
      p = PurePath.to_str (PurePath.joinpath save_path "rgb") \/
      p = PurePath.to_str (PurePath.joinpath save_path "depth")
  | CallImwrite p _ =>
      exists i, i < n /\
        (p = rgb_target (PurePath.joinpath save_path "rgb") i \/
         p = depth_target (PurePath.joinpath save_path "depth") i)
  | CallWriteText p _ => p = transforms_path save_path
  end.

(** A Writer computation that reads nothing from standard input. *)
Definition keeps_stdin (pf : Platform) {A} (m : W pf A) : Prop :=
  forall w, stdin (m w).2 = stdin w.

(** The entries whose sign the axis flip changes: exactly one of the row and
    the column is the second or the third. *)
Definition flips_sign (r c : nat) : bool :=
  xorb ((r =? 1) || (r =? 2)) ((c =? 1) || (c =? 2)).

(** [x] sorts no later than [y] under the Reader's key. *)
Definition stem_le (x y : string) : Prop :=
  exists a b, stem_key x = Return a /\ stem_key y = Return b /\ (a <= b)%Z.

Definition not_write_text (c : fs_call) : Prop :=
  match c with CallWriteText _ _ => False | _ => True end.

(** The calls [cs] write no manifest, or write one as their last call. *)
Definition manifest_last (save_path : PurePath.t) (cs : list fs_call) : Prop :=
  Forall not_write_text cs \/
  exists pre manifest,
    cs = pre ++ [CallWriteText (transforms_path save_path) manifest] /\
    Forall not_write_text pre.

(** * Properties *)

(** ** Outcomes *)

Lemma map_outcome_length {A B} (f : A -> outcome B) l ys :
  map_outcome f l = Return ys -> length ys = length l.
Proof.
  revert ys. induction l as [|x l IH]; intros ys H; simpl in H.
  - by inversion H.
  - destruct (f x); try discriminate. simpl in H.
    destruct (map_outcome f l) as [zs| |]; try discriminate.
    inversion H; subst. simpl. f_equal. by apply IH.
Qed.

Lemma map_outcome_lookup {A B} (f : A -> outcome B) l ys i x :
  map_outcome f l = Return ys -> l !! i = Some x ->
  exists y, ys !! i = Some y /\ f x = Return y.
Proof.
  revert ys i. induction l as [|a l IH]; intros ys i H Hi; [done|].
  simpl in H. destruct (f a) as [b| |] eqn:Ha; try discriminate. simpl in H.
  destruct (map_outcome f l) as [zs| |]; try discriminate.
  inversion H; subst. destruct i as [|i]; simpl in *.
  - inversion Hi; subst. eauto.
  - eapply IH; eauto.
Qed.

Lemma map_outcome_total {A B} (f : A -> outcome B) l :
  Forall (fun x => is_return (f x) = true) l ->
  exists ys, map_outcome f l = Return ys.
Proof.
  induction 1 as [|x l Hx _ [ys IH]]; simpl; [eauto|].
  destruct (f x); try discriminate. simpl. rewrite IH. simpl. eauto.
Qed.

Lemma map_outcome_map {A B} (f : A -> B) l :
  map_outcome (fun x => Return (f x)) l = Return (map f l).
Proof. induction l as [|x l IH]; simpl; [done|]. by rewrite IH. Qed.

(** ** The Reader's loop *)

Lemma get_filepaths_loop base_path fs_ cp dp ps :
  for_each (get_filepaths_body base_path) fs_ (cp, dp, ps) =
  obind (map_outcome pose_of fs_)
        (fun poses => Return (cp ++ map (color_path_of base_path) fs_,
                              dp ++ map (depth_path_of base_path) fs_,
                              ps ++ poses)).
Proof.
  revert cp dp ps. induction fs_ as [|f fs_ IH]; intros cp dp ps; simpl.
  - by rewrite !app_nil_r.
  - unfold pose_of at 1.
    destruct (np_array (transform_matrix f)) as [c2w| |]; simpl; try done.
    destruct (convert_pose c2w) as [pose| |]; simpl; try done.
    rewrite IH. destruct (map_outcome pose_of fs_); simpl; try done.
    by rewrite <- !app_assoc.
Qed.

Lemma get_filepaths_eq glob self :
  get_filepaths glob self =
  obind (map_outcome pose_of (frames_metadata self))
        (fun poses =>
           Return (set_tmp_poses self poses,
                   (map (color_path_of (input_folder self)) (frames_metadata self),
                    map (depth_path_of (input_folder self)) (frames_metadata self),
                    if load_embeddings self
                    then Some (glob (input_folder self +:+ "/" +:+ embedding_dir self +:+ "/*.pt"))
                    else None))).
Proof.
  unfold get_filepaths. rewrite get_filepaths_loop.
  by destruct (map_outcome pose_of (frames_metadata self)).
Qed.

(** ** The axis flip on 4x4 arrays *)

Lemma length_4_inv {A} (l : list A) :
  (length l =? 4) = true -> exists a b c d, l = [a; b; c; d].
Proof.
  intros H. apply Nat.eqb_eq in H.
  destruct l as [|a [|b [|c [|d [|? ?]]]]]; try discriminate H. eauto.
Qed.

Lemma is_4x4_inv (M : matrix) :
  is_4x4 M = true ->
  exists a0 a1 a2 a3 b0 b1 b2 b3 c0 c1 c2 c3 d0 d1 d2 d3 : Q,
    M = [[a0; a1; a2; a3]; [b0; b1; b2; b3]; [c0; c1; c2; c3]; [d0; d1; d2; d3]].
Proof.
  unfold is_4x4. intros [H1 H2]%andb_prop.
  apply length_4_inv in H1 as (r0 & r1 & r2 & r3 & ->).
  simpl in H2.
  repeat (apply andb_prop in H2 as [?H H2]).
  repeat match goal with H : (length _ =? 4) = true |- _ =>
    apply length_4_inv in H as (? & ? & ? & ? & ->) end.
  repeat eexists.
Qed.

Ltac four_by_four M H :=
  apply is_4x4_inv in H;
  destruct H as (?a & ?a & ?a & ?a & ?b & ?b & ?b & ?b & ?c & ?c & ?c & ?c & ?d & ?d & ?d & ?d & ->).

Lemma convert_pose_4x4 (C : matrix) :
  is_4x4 C = true ->
  exists pose, convert_pose C = Return pose /\ is_4x4 pose = true /\
    forall i j, i < 4 -> j < 4 -> (entry pose i j == spec_P_C_Pt C i j)%Q.
Proof.
  intros H. four_by_four C H.
  eexists. split; [reflexivity|]. split; [reflexivity|].
  intros i j Hi Hj.
  destruct i as [|[|[|[|]]]]; try lia; destruct j as [|[|[|[|]]]]; try lia.
  all: cbv -[Qplus Qmult Qopp Qeq]; ring.
Qed.

Lemma np_array_4x4 (M : matrix) : is_4x4 M = true -> np_array M = Return M.
Proof. intros H. four_by_four M H. reflexivity. Qed.

Lemma pose_of_4x4 f :
  is_4x4 (transform_matrix f) = true ->
  exists pose, pose_of f = Return pose /\ is_4x4 pose = true /\
    forall i j, i < 4 -> j < 4 -> (entry pose i j == spec_P_C_Pt (transform_matrix f) i j)%Q.
Proof.
  intros H. unfold pose_of. rewrite np_array_4x4 by done. simpl. by apply convert_pose_4x4.
Qed.

(** ** The file-path index *)

Lemma create_filepath_index_mapping_snoc fs_ f :
  create_filepath_index_mapping (fs_ ++ [f]) =
  <[file_path f := length fs_]> (create_filepath_index_mapping fs_).
Proof.
  unfold create_filepath_index_mapping.
  rewrite imap_app, foldl_app. simpl. by rewrite Nat.add_0_r.
Qed.

Lemma create_filepath_index_mapping_last fs_ i f :
  fs_ !! i = Some f ->
  (forall j g, fs_ !! j = Some g -> file_path g = file_path f -> j <= i) ->
  create_filepath_index_mapping fs_ !! file_path f = Some i.
Proof.
  revert i f. induction fs_ as [|g fs_ IH] using rev_ind; intros i f Hi Hlast; [done|].
  rewrite create_filepath_index_mapping_snoc.
  destruct (decide (i = length fs_)) as [->|Hne].
  - rewrite lookup_app_r, Nat.sub_diag in Hi by lia. inversion Hi; subst.
    apply lookup_insert_eq.
  - assert (i < length fs_).
    { apply lookup_lt_Some in Hi. rewrite length_app in Hi. simpl in Hi. lia. }
    rewrite lookup_app_l in Hi by done.
    rewrite lookup_insert_ne.
    + apply IH; [done|]. intros j h Hj Hp. apply (Hlast j h); [|done].
      rewrite lookup_app_l; [done|]. by eapply lookup_lt_Some.
    + intros Hp. specialize (Hlast (length fs_) g).
      rewrite lookup_app_r, Nat.sub_diag in Hlast by lia.
      specialize (Hlast eq_refl Hp). lia.
Qed.

Lemma create_filepath_index_mapping_sound fs_ p i :
  create_filepath_index_mapping fs_ !! p = Some i ->
  exists f, fs_ !! i = Some f /\ file_path f = p.
Proof.
  revert i. induction fs_ as [|g fs_ IH] using rev_ind; intros i H; [done|].
  rewrite create_filepath_index_mapping_snoc in H.
  destruct (decide (file_path g = p)) as [<-|Hne].
  - rewrite lookup_insert_eq in H. inversion H; subst.
    exists g. split; [|done]. by rewrite lookup_app_r, Nat.sub_diag by lia.
  - rewrite lookup_insert_ne in H by done.
    destruct (IH _ H) as (f & Hf & Hp). exists f. split; [|done].
    rewrite lookup_app_l; [done|]. by eapply lookup_lt_Some.
Qed.

(** ** Natural sorting by an integer key *)

Lemma insert_by_key_perm {A} (x : Z * A) l : Permutation (insert_by_key x l) (x :: l).
Proof.
  induction l as [|y l IH]; simpl; [done|].
  destruct (x.1 <=? y.1)%Z; [done|]. rewrite IH. apply perm_swap.
Qed.

Lemma sort_by_key_perm {A} (l : list (Z * A)) : Permutation (sort_by_key l) l.
Proof.
  induction l as [|x l IH]; simpl; [done|].
  rewrite insert_by_key_perm. by constructor.
Qed.

Lemma insert_by_key_sorted {A} (x : Z * A) l :
  Sorted key_le l -> Sorted key_le (insert_by_key x l).
Proof.
  induction 1 as [|y l Hs IH Hhd]; simpl.
  - by repeat constructor.
  - destruct (Z.leb_spec x.1 y.1).
    + constructor; [by constructor|]. by constructor.
    + constructor; [done|].
      destruct l as [|z l]; simpl in *.
      * constructor. unfold key_le. lia.
      * destruct (x.1 <=? z.1)%Z; constructor; unfold key_le; [lia|].
        by inversion Hhd.
Qed.

Lemma sort_by_key_sorted {A} (l : list (Z * A)) : Sorted key_le (sort_by_key l).
Proof.
  induction l as [|x l IH]; simpl; [constructor|]. by apply insert_by_key_sorted.
Qed.

Lemma natsorted_int_spec {A} (key : A -> outcome Z) l l' :
  natsorted_int key l = Return l' ->
  Permutation l' l /\
  exists ks, Forall2 (fun x k => key x = Return k) l' ks /\ Sorted Z.le ks.
Proof.
  unfold natsorted_int. intros H.
  destruct (map_outcome _ l) as [keyed| |] eqn:Hk; try discriminate.
  simpl in H. inversion H; subst; clear H.
  assert (Hall : Forall (fun kx => key kx.2 = Return kx.1) keyed /\ map snd keyed = l).
  { clear -Hk. revert keyed Hk. induction l as [|x l IH]; intros keyed Hk; simpl in Hk.
    - inversion Hk. by split.
    - destruct (key x) as [k| |] eqn:Hx; try discriminate. simpl in Hk.
      destruct (map_outcome _ l) as [ys| |]; try discriminate. simpl in Hk.
      inversion Hk; subst. destruct (IH _ eq_refl) as [IH1 IH2].
      split; [by constructor|]. simpl. by f_equal. }
  destruct Hall as [Hall <-].
  split; [by rewrite sort_by_key_perm|].
  exists (map fst (sort_by_key keyed)). split.
  - rewrite <- (sort_by_key_perm keyed) in Hall.
    induction Hall; simpl; by constructor.
  - pose proof (sort_by_key_sorted keyed) as Hs.
    induction Hs as [|y l0 _ IH Hhd]; simpl; constructor; [done|].
    destruct Hhd; simpl; by constructor.
Qed.

Lemma natsorted_int_total {A} (key : A -> outcome Z) l :
  Forall (fun x => is_return (key x) = true) l ->
  exists l', natsorted_int key l = Return l'.
Proof.
  intros H. unfold natsorted_int.
  destruct (map_outcome_total (fun x => obind (key x) (fun k => Return (k, x))) l) as [ys Hys].
  - eapply Forall_impl; [exact H|]. intros x Hx. simpl in *. by destruct (key x).
  - rewrite Hys. simpl. eauto.
Qed.

(** ** Loading the manifest *)

Lemma init_inv json_load basedir sequence emb dir self :
  __init__ json_load basedir sequence emb dir = Return self ->
  exists m,
    json_load (os_path_join basedir sequence +:+ "/transforms.json") = Return m /\
    input_folder self = os_path_join basedir sequence /\
    cams_metadata self = m /\
    frames_metadata self = frames m /\
    filepath_index_mapping self = create_filepath_index_mapping (frames m) /\
    natsorted_int stem_key (map file_path (frames m)) = Return (image_names self) /\
    match integer_depth_scale m with
    | Some ids => ~ (ids == 0)%Q /\ png_depth_scale self = (1 / ids)%Q
    | None => png_depth_scale self = (13107 # 2)%Q
    end /\
    tmp_poses self = None.
Proof.
  unfold __init__, load_cams_metadata. intros H.
  destruct (json_load _) as [m| |]; try discriminate. simpl in H.
  destruct (natsorted_int _ _) as [names| |] eqn:Hn; try discriminate. simpl in H.
  exists m. destruct (integer_depth_scale m) as [ids|] eqn:Hids.
  - destruct (Qeq_bool ids 0) eqn:Hz; try discriminate. simpl in H.
    inversion H; subst; simpl. repeat split; try done.
    by apply Qeq_bool_neq.
  - simpl in H. inversion H; subst; simpl. by repeat split.
Qed.

Lemma init_total json_load basedir sequence emb dir m :
  json_load (os_path_join basedir sequence +:+ "/transforms.json") = Return m ->
  loadable m = true ->
  exists self, __init__ json_load basedir sequence emb dir = Return self.
Proof.
  intros Hm [Hk Hs]%andb_prop. unfold __init__, load_cams_metadata. rewrite Hm. simpl.
  destruct (natsorted_int_total stem_key (map file_path (frames m))) as [names ->].
  { apply Forall_forall. intros x [f [-> Hf]]%list_elem_of_fmap.
    rewrite forallb_forall in Hk. apply Hk. by apply list_elem_of_In. }
  simpl. destruct (integer_depth_scale m) as [ids|].
  - apply negb_true_iff in Hs. rewrite Hs. simpl. eauto.
  - simpl. eauto.
Qed.

(** [get_filepaths] and [load_poses] leave every field but [tmp_poses] alone. *)
Lemma get_filepaths_inv glob self self' cp dp ep :
  get_filepaths glob self = Return (self', (cp, dp, ep)) ->
  exists poses,
    map_outcome pose_of (frames_metadata self) = Return poses /\
    self' = set_tmp_poses self poses /\
    load_poses self' = Return poses /\
    cp = map (color_path_of (input_folder self)) (frames_metadata self) /\
    dp = map (depth_path_of (input_folder self)) (frames_metadata self).
Proof.
  rewrite get_filepaths_eq. intros H.
  destruct (map_outcome pose_of _) as [poses| |]; try discriminate.
  simpl in H. inversion H; subst. exists poses. by repeat split.
Qed.

Lemma get_filepaths_total glob self :
  Forall (fun f => is_4x4 (transform_matrix f) = true) (frames_metadata self) ->
  exists self' cp dp ep, get_filepaths glob self = Return (self', (cp, dp, ep)).
Proof.
  intros H. rewrite get_filepaths_eq.
  destruct (map_outcome_total pose_of (frames_metadata self)) as [poses ->].
  - eapply Forall_impl; [exact H|]. intros f Hf. simpl in Hf.
    destruct (pose_of_4x4 f Hf) as (pose & -> & _). done.
  - simpl. eauto.
Qed.

(** ** The reply at the overwrite prompt *)

Lemma reply_declines_spec reply : reply_declines reply = false <-> spec_confirms reply.
Proof.
  unfold reply_declines, spec_confirms.
  destruct (Str.strip (Str.lower reply)) as [|c r]; simpl.
  - split; [by left | done].
  - rewrite negb_false_iff. destruct (Ascii.eqb_spec c "y") as [->|Hc].
    + split; [|done]. intros _. right. by exists r.
    + split; [done|]. intros [H|[rest H]]; [done|]. by inversion H.
Qed.

(** ** The Writer's monad *)

Section WriterFacts.

Context (pf : Platform).

Implicit Types w : world (FS pf).

Lemma bind_run {A B} (m : W pf A) (k : A -> W pf B) w :
  (m ≫= k) w =
  match m w with
  | (Return a, w') => k a w'
  | (Raise e, w') => (Raise e, w')
  | (SysExit c, w') => (SysExit c, w')
  end.
Proof. reflexivity. Qed.

Lemma bind_return_inv {A B} (m : W pf A) (k : A -> W pf B) w b w' :
  (m ≫= k) w = (Return b, w') ->
  exists a w1, m w = (Return a, w1) /\ k a w1 = (Return b, w').
Proof.
  rewrite bind_run. destruct (m w) as [[a| |] w1]; try discriminate. eauto.
Qed.

Section Emits.

Variable Pc : fs_call -> Prop.

Variable Pm : message -> Prop.

Lemma emits_silent {A} (m : W pf A) :
  (forall w, calls (m w).2 = calls w /\ stdout (m w).2 = stdout w) -> emits pf Pc Pm m.
Proof.
  intros H w. exists [], []. destruct (H w) as [-> ->]. by rewrite !app_nil_r.
Qed.

Lemma emits_ret {A} (a : A) : emits pf Pc Pm (mret a : W pf A).
Proof. by apply emits_silent. Qed.

Lemma emits_lift {A} (o : outcome A) : emits pf Pc Pm (lift pf o).
Proof. by apply emits_silent. Qed.

Lemma emits_raise {A} e : emits pf Pc Pm (raise pf e : W pf A).
Proof. by apply emits_silent. Qed.

Lemma emits_sys_exit {A} c : emits pf Pc Pm (sys_exit pf c : W pf A).
Proof. by apply emits_silent. Qed.

Lemma emits_query {A} (f : FS pf -> A) : emits pf Pc Pm (query pf f).
Proof. by apply emits_silent. Qed.

Lemma emits_read_fs {A} (f : FS pf -> outcome A) : emits pf Pc Pm (read_fs pf f).
Proof. by apply emits_silent. Qed.

Lemma emits_exists p : emits pf Pc Pm (exists_ pf p).
Proof. apply emits_query. Qed.

Lemma emits_print m : Pm m -> emits pf Pc Pm (print pf m).
Proof. intros H w. exists [], [m]. simpl. rewrite app_nil_r. by repeat constructor. Qed.

Lemma emits_input m : Pm m -> emits pf Pc Pm (input pf m).
Proof.
  intros H w. exists [], [m]. unfold input.
  destruct (stdin w); simpl; rewrite app_nil_r; by repeat constructor.
Qed.

Lemma emits_mutate c f : Pc c -> emits pf Pc Pm (mutate pf c f).
Proof.
  intros H w. exists [c], []. unfold mutate. destruct (f (fs w)). simpl.
  rewrite app_nil_r. by repeat constructor.
Qed.

Lemma emits_bind {A B} (m : W pf A) (k : A -> W pf B) :
  emits pf Pc Pm m -> (forall a, emits pf Pc Pm (k a)) -> emits pf Pc Pm (m ≫= k).
Proof.
  intros Hm Hk w. rewrite bind_run.
  destruct (Hm w) as (cs & ms & Hc & Ho & HPc & HPm).
  destruct (m w) as [[a| |] w1]; simpl in *; [|by eauto 8..].
  destruct (Hk a w1) as (cs' & ms' & Hc' & Ho' & HPc' & HPm').
  exists (cs ++ cs'), (ms ++ ms').
  rewrite Hc', Ho', Hc, Ho, <- !app_assoc. repeat split; by apply Forall_app.
Qed.

Lemma emits_try_except {A} (m : W pf A) (handler : exn -> W pf A) :
  emits pf Pc Pm m -> (forall e, emits pf Pc Pm (handler e)) ->
  emits pf Pc Pm (try_except pf m handler).
Proof.
  intros Hm Hh w. unfold try_except.
  destruct (Hm w) as (cs & ms & Hc & Ho & HPc & HPm).
  destruct (m w) as [[a|e|] w1]; simpl in *; [by eauto 8| |by eauto 8].
  destruct (Hh e w1) as (cs' & ms' & Hc' & Ho' & HPc' & HPm').
  exists (cs ++ cs'), (ms ++ ms').
  rewrite Hc', Ho', Hc, Ho, <- !app_assoc. repeat split; by apply Forall_app.
Qed.

Lemma emits_for_frames {A S} (body : A -> S -> W pf S) l acc :
  (forall x s, emits pf Pc Pm (body x s)) -> emits pf Pc Pm (for_frames pf body l acc).
Proof.
  intros Hb. revert acc. induction l as [|x l IH]; intros acc; simpl.
  - apply emits_ret.
  - apply emits_bind; [apply Hb | apply IH].
Qed.

End Emits.

End WriterFacts.

(** ** One frame of the Writer *)

Ltac emits_step :=
  first
    [ apply emits_ret | apply emits_lift | apply emits_raise | apply emits_sys_exit
    | apply emits_query | apply emits_read_fs | apply emits_exists
    | apply emits_print; exact I | apply emits_input; exact I
    | apply emits_mutate; exact I
    | apply emits_bind; [|intros ?]
    | apply emits_try_except; [|intros ?]
    | match goal with
      | |- emits _ _ _ (if ?b then _ else _) => destruct b
      | |- emits _ _ _ (match ?x with _ => _ end) => destruct x
      end ].

Ltac emits_auto := repeat emits_step.

Section FrameFacts.

Context (pf : Platform).

Variable data_config : DataConfig.

Variables images_dir depth_dir data_dir_ : PurePath.t.

Lemma emits_load_rgb p : emits pf not_rmtree not_skip (load_rgb pf p).
Proof. unfold load_rgb. emits_auto. Qed.

Lemma emits_save_rgb i a :
  emits pf not_rmtree not_skip (save_rgb pf data_config images_dir i a).
Proof. unfold save_rgb, imwrite. emits_auto. Qed.

Lemma emits_store_depth i :
  emits pf not_rmtree not_skip (store_depth pf data_config depth_dir data_dir_ i).
Proof. unfold store_depth, arith, imwrite. emits_auto. Qed.

Lemma emits_load_transform i :
  emits pf not_rmtree not_skip (load_transform pf data_config data_dir_ i).
Proof. unfold load_transform. emits_auto. Qed.

(** What one turn of the loop does to the list of records and to the log:
    it either skips the frame, reporting it, or appends the record of
    that frame. *)
Lemma process_frame_cases i frs w frs' w' :
  process_frame pf data_config images_dir depth_dir data_dir_ i frs w = (Return frs', w') ->
  exists ms, stdout w' = stdout w ++ ms /\
    ((frs' = frs /\ skipped_indices ms = [i]) \/
     (exists transform depth, frs' = frs ++ [frame_data data_config i transform depth] /\
                              skipped_indices ms = [])).
Proof.
  unfold process_frame. intros H.
  apply bind_return_inv in H as ([] & w1 & H1 & H).
  apply bind_return_inv in H as (rel & w2 & H2 & H).
  apply bind_return_inv in H as (ex & w3 & H3 & H).
  inversion H1; subst; clear H1.
  unfold lift in H2. inversion H2; subst; clear H2.
  inversion H3; subst; clear H3. simpl in H.
  match type of H with context [negb ?b] => destruct b end; simpl in H.
  - set (rest := (load_rgb pf _ ≫= _)) in H.
    assert (Hrest : emits pf not_rmtree not_skip rest).
    { unfold rest. apply emits_bind; [apply emits_load_rgb|intros ?].
      apply emits_bind; [apply emits_save_rgb|intros ?].
      apply emits_bind; [apply emits_store_depth|intros ?].
      apply emits_bind; [apply emits_load_transform|intros ?]. apply emits_ret. }
    destruct (Hrest (World (fs w) (stdin w) (stdout w ++ [MsgProcessing (i + 1) (num_frames data_config)]) (calls w)))
      as (cs & ms & _ & Hout & _ & Hms).
    rewrite H in Hout. simpl in Hout.
    exists (MsgProcessing (i + 1) (num_frames data_config) :: ms).
    split; [by rewrite Hout, <- app_assoc|]. right.
    unfold rest in H.
    apply bind_return_inv in H as (rgb & w4 & _ & H).
    apply bind_return_inv in H as ([] & w5 & _ & H).
    apply bind_return_inv in H as (depth & w6 & _ & H).
    apply bind_return_inv in H as (transform & w7 & _ & H).
    inversion H; subst. exists transform, depth. split; [done|].
    simpl. clear -Hms. induction Hms as [|m ms Hm _ IH]; [done|].
    simpl. destruct m; simpl in *; done.
  - apply bind_return_inv in H as ([] & w4 & H4 & H).
    inversion H4; subst; clear H4. inversion H; subst; clear H. simpl.
    eexists. split; [by rewrite <- app_assoc|]. left. done.
Qed.

End FrameFacts.

(** ** Names of the frame files *)

Lemma string_length_app (s t : string) :
  String.length (s +:+ t) = String.length s + String.length t.
Proof. induction s as [|c s IH]; simpl; [done|]. by rewrite IH. Qed.

Lemma string_app_inj_r (s1 s2 t : string) : s1 +:+ t = s2 +:+ t -> s1 = s2.
Proof.
  revert s2. induction s1 as [|c s1 IH]; intros [|d s2] H; simpl in H.
  - done.
  - apply (f_equal String.length) in H. rewrite !string_length_app in H. simpl in H. lia.
  - apply (f_equal String.length) in H. rewrite !string_length_app in H. simpl in H. lia.
  - inversion H; subst. f_equal. by apply IH.
Qed.

Lemma frame_name_inj (i j : nat) :
  "rgb/" +:+ pretty i +:+ ".png" = "rgb/" +:+ pretty j +:+ ".png" -> i = j.
Proof.
  intros H. apply (inj (String.app "rgb/")) in H.
  apply string_app_inj_r in H. by apply (inj pretty) in H.
Qed.

Lemma skipped_indices_app ms1 ms2 :
  skipped_indices (ms1 ++ ms2) = skipped_indices ms1 ++ skipped_indices ms2.
Proof. apply omap_app. Qed.

Lemma skipped_indices_elem p i ms : MsgSkip p i ∈ ms -> i ∈ skipped_indices ms.
Proof.
  intros H. unfold skipped_indices. apply list_elem_of_omap.
  exists (MsgSkip p i). by split.
Qed.

Lemma skipped_indices_not_skip ms : Forall not_skip ms -> skipped_indices ms = [].
Proof.
  induction 1 as [|m ms Hm _ IH]; [done|]. simpl. by destruct m.
Qed.

Section LoopFacts.

Context (pf : Platform).

Variable data_config : DataConfig.

Lemma emits_overwrite_guard save_path overwrite :
  emits pf (fun _ => True) not_skip (overwrite_guard pf save_path overwrite).
Proof. unfold overwrite_guard, shutil_rmtree. emits_auto. Qed.

End LoopFacts.

Section RunFacts.

Context (pf : Platform).

Lemma emits_weaken (Pc Pc' : fs_call -> Prop) (Pm Pm' : message -> Prop) {A} (m : W pf A) :
  (forall c, Pc c -> Pc' c) -> (forall x, Pm x -> Pm' x) ->
  emits pf Pc Pm m -> emits pf Pc' Pm' m.
Proof.
  intros Hc Hm H w. destruct (H w) as (cs & ms & ? & ? & ? & ?).
  exists cs, ms. repeat split; try done; eapply Forall_impl; eauto.
Qed.

Lemma emits_process_frame data_config images_dir depth_dir data_dir_ i frs :
  emits pf not_rmtree (fun _ => True)
        (process_frame pf data_config images_dir depth_dir data_dir_ i frs).
Proof.
  unfold process_frame, load_rgb, save_rgb, store_depth, load_transform, arith, imwrite.
  emits_auto.
Qed.

Lemma emits_build_dataset save_path data_config :
  emits pf not_rmtree (fun _ => True) (build_dataset pf save_path data_config).
Proof.
  unfold build_dataset, path_mkdir. emits_auto.
  apply emits_for_frames. intros. apply emits_process_frame.
Qed.

End RunFacts.

(** ** The destination check *)

Section GuardFacts.

Context (pf : Platform).

Implicit Types w : world (FS pf).

Lemma overwrite_guard_absent save_path overwrite w :
  path_exists pf (fs w) (PurePath.to_str save_path) = false ->
  overwrite_guard pf save_path overwrite w = (Return tt, w).
Proof.
  intros H. unfold overwrite_guard. rewrite bind_run. unfold exists_, query. simpl.
  by rewrite H.
Qed.

Lemma overwrite_guard_refused save_path w :
  path_exists pf (fs w) (PurePath.to_str save_path) = true ->
  overwrite_guard pf save_path false w =
  (SysExit 1, World (fs w) (stdin w)
                    (stdout w ++ [MsgExists (PurePath.to_str save_path)]) (calls w)).
Proof.
  intros H. unfold overwrite_guard. rewrite bind_run. unfold exists_, query. simpl.
  by rewrite H.
Qed.

Lemma overwrite_guard_eof save_path w :
  path_exists pf (fs w) (PurePath.to_str save_path) = true ->
  stdin w = [] ->
  overwrite_guard pf save_path true w = (Raise EOFError, prompted pf w save_path []).
Proof.
  intros H Hin. unfold overwrite_guard. rewrite bind_run. unfold exists_, query. simpl.
  rewrite H. rewrite bind_run. unfold input. by rewrite Hin.
Qed.

Lemma overwrite_guard_reply save_path w reply rest :
  path_exists pf (fs w) (PurePath.to_str save_path) = true ->
  stdin w = reply :: rest ->
  overwrite_guard pf save_path true w =
  if reply_declines reply then (SysExit 1, prompted pf w save_path rest)
  else shutil_rmtree pf save_path (prompted pf w save_path rest).
Proof.
  intros H Hin. unfold overwrite_guard. rewrite bind_run. unfold exists_, query. simpl.
  rewrite H. rewrite bind_run. unfold input. rewrite Hin.
  by destruct (reply_declines reply).
Qed.

Lemma create_dataset_run save_path overwrite data_config w :
  create_dataset_from_files pf save_path overwrite data_config w =
  match overwrite_guard pf save_path overwrite w with
  | (Return _, w1) => build_dataset pf save_path data_config w1
  | (Raise e, w1) => (Raise e, w1)
  | (SysExit c, w1) => (SysExit c, w1)
  end.
Proof. unfold create_dataset_from_files. by rewrite bind_run. Qed.

Lemma not_rmtree_elem p cs : Forall not_rmtree cs -> CallRmtree p ∉ cs.
Proof. intros H Hp. rewrite Forall_forall in H. exact (H _ Hp). Qed.

End GuardFacts.

(** ** Depth quantisation *)

Lemma Qtrunc_nonneg (x : Q) : (0 <= x)%Q -> Qtrunc x = Qfloor x.
Proof.
  destruct x as [n d]. unfold Qle. simpl. intros H.
  unfold Qtrunc. simpl. apply Z.quot_div_nonneg; lia.
Qed.

Lemma quantize_in_range (d s : Q) :
  (0 <= d)%Q -> (0 < s)%Q -> (d * s <= 65535)%Q -> quantize d s = Qfloor (d * s).
Proof.
  intros Hd Hs Hmax. unfold quantize, to_uint.
  assert (0 <= d * s)%Q as Hx by (apply Qmult_le_0_compat; [done | by apply Qlt_le_weak]).
  rewrite Qtrunc_nonneg by done.
  apply Z.mod_small. split.
  - change 0%Z with (Qfloor 0). by apply Qfloor_resp_le.
  - assert (Qfloor (d * s) <= Qfloor 65535)%Z by (by apply Qfloor_resp_le).
    change (Qfloor 65535) with 65535%Z in *. change (2 ^ 16)%Z with 65536%Z. lia.
Qed.

(** ** The pose the Writer stores *)

Section TransformFacts.

Context (pf : Platform).

Variable data_config : DataConfig.

Lemma load_transform_native data_dir_ i w transform w' :
  load_transform pf data_config data_dir_ i w = (Return transform, w') ->
  stored_as_loaded pf transform.
Proof.
  unfold load_transform. intros H.
  apply bind_return_inv in H as (rel & w1 & H1 & H).
  apply bind_return_inv in H as (ex & w2 & H2 & H).
  destruct ex; [|inversion H; by left].
  unfold try_except in H. rewrite bind_run in H.
  destruct (is_npy _).
  - unfold read_fs in H at 1.
    destruct (np_load pf (fs w2) _) as [a|e|c] eqn:Ha; simpl in H.
    + inversion H; subst. right. eauto 8.
    + rewrite !bind_run in H. simpl in H. inversion H. by left.
    + discriminate.
  - unfold read_fs in H at 1.
    destruct (np_loadtxt pf (fs w2) _) as [a|e|c] eqn:Ha; simpl in H.
    + inversion H; subst. right. eauto 8.
    + rewrite !bind_run in H. simpl in H. inversion H. by left.
    + discriminate.
Qed.

End TransformFacts.

(** ** What the Reader sorts and what it hands out *)

(** The exposed paths are the manifest's records in stored order. *)
Lemma get_filepaths_manifest_order glob self self' cp dp ep :
  get_filepaths glob self = Return (self', (cp, dp, ep)) ->
  cp = map (fun f => input_folder self +:+ "/" +:+ file_path f) (frames_metadata self) /\
  length dp = length (frames_metadata self).
Proof.
  intros H. destruct (get_filepaths_inv _ _ _ _ _ _ H) as (poses & _ & _ & _ & -> & ->).
  split; [done|]. by rewrite length_map.
Qed.

(** While [image_names], which nothing reads afterwards, is sorted. *)
Lemma image_names_sorted json_load basedir sequence emb dir self :
  __init__ json_load basedir sequence emb dir = Return self ->
  Permutation (image_names self) (map file_path (frames_metadata self)) /\
  exists ks, Forall2 (fun x k => stem_key x = Return k) (image_names self) ks /\
             Sorted Z.le ks.
Proof.
  intros H. destruct (init_inv _ _ _ _ _ _ H) as (m & _ & _ & _ & -> & _ & Hs & _).
  by apply natsorted_int_spec.
Qed.

(** ** [str.replace] *)

Lemma replace_from_drop k old new s :
  Str.replace_from k old new s = Str.replace_from 0 old new (Str.drop k s).
Proof.
  revert k. induction s as [|a s IH]; intros [|k]; simpl; auto.
Qed.

Lemma prefix_app (s t : string) : String.prefix s (s +:+ t) = true.
Proof.
  induction s as [|a s IH]; simpl; [by destruct t|].
  by destruct (ascii_dec a a).
Qed.

Lemma drop_app (s t : string) : Str.drop (String.length s) (s +:+ t) = t.
Proof. induction s as [|a s IH]; simpl; [by destruct t|done]. Qed.

(** An occurrence at the front is replaced and the scan resumes after it. *)
Lemma replace_occurrence c old new s :
  Str.replace (String c old +:+ s) (String c old) new =
  new +:+ Str.replace s (String c old) new.
Proof.
  unfold Str.replace. simpl Str.replace_from.
  destruct (ascii_dec c c); [|done].
  rewrite prefix_app, Nat.sub_0_r, replace_from_drop, drop_app. done.
Qed.

(** Text without the first character of [old] is copied. *)
Lemma replace_lacks c old new a s :
  lacks c a = true ->
  Str.replace (a +:+ s) (String c old) new = a +:+ Str.replace s (String c old) new.
Proof.
  unfold Str.replace. induction a as [|x a IH]; simpl; [done|].
  intros [Hx Ha]%andb_prop. apply negb_true_iff, Ascii.eqb_neq in Hx.
  destruct (ascii_dec c x) as [->|_]; [done|]. by rewrite IH.
Qed.

Lemma pretty_N_char_lacks_r x : Ascii.eqb (pretty_N_char x) "r" = false.
Proof. unfold pretty_N_char. by repeat case_match. Qed.

Lemma pretty_N_go_lacks_r x s : lacks "r" s = true -> lacks "r" (pretty_N_go x s) = true.
Proof.
  revert s. induction (N.lt_wf_0 x) as [x _ IH]; intros s Hs.
  destruct (decide (x = 0)%N) as [->|Hx]; [by rewrite pretty_N_go_0|].
  rewrite pretty_N_go_step by lia. apply IH; [apply N.div_lt; lia|].
  simpl. by rewrite pretty_N_char_lacks_r.
Qed.

Lemma pretty_nat_lacks_r (i : nat) : lacks "r" (pretty i) = true.
Proof.
  unfold pretty, pretty_nat, pretty, pretty_N.
  destruct (decide _); [done|]. by apply pretty_N_go_lacks_r.
Qed.

Lemma lacks_app c s t : lacks c (s +:+ t) = lacks c s && lacks c t.
Proof. induction s as [|a s IH]; simpl; [done|]. by rewrite IH, andb_assoc. Qed.

Lemma replace_absent c old new a :
  lacks c a = true -> Str.replace a (String c old) new = a.
Proof.
  unfold Str.replace. induction a as [|x a IH]; simpl; [done|].
  intros [Hx Ha]%andb_prop. apply negb_true_iff, Ascii.eqb_neq in Hx.
  destruct (ascii_dec c x) as [->|_]; [done|]. by rewrite IH.
Qed.

(** The fallback on a name of the Writer's making. *)
Lemma replace_writer_name (i : nat) :
  Str.replace ("rgb/" +:+ pretty i +:+ ".png") "rgb" "depth" =
  "depth/" +:+ pretty i +:+ ".png".
Proof.
  change ("rgb/" +:+ pretty i +:+ ".png") with ("rgb" +:+ ("/" +:+ pretty i +:+ ".png")).
  rewrite replace_occurrence, replace_absent; [done|].
  by rewrite !lacks_app, pretty_nat_lacks_r.
Qed.

(** ** The records of the Writer's loop *)

Section Inversions.

Context {pf : Platform} {A : Type}.
Implicit Types w : world (FS pf).

Lemma ret_return (a b : A) w w' :
  (mret a : W pf A) w = (Return b, w') -> b = a /\ w' = w.
Proof. by intros [= -> ->]. Qed.

Lemma ret_run (a : A) w : (mret a : W pf A) w = (Return a, w).
Proof. reflexivity. Qed.

Lemma lift_return (o : outcome A) b w w' :
  lift pf o w = (Return b, w') -> o = Return b /\ w' = w.
Proof. by intros [= -> ->]. Qed.

Lemma query_return (f : FS pf -> A) b w w' :
  query pf f w = (Return b, w') -> b = f (fs w) /\ w' = w.
Proof. by intros [= -> ->]. Qed.

Lemma read_fs_return (f : FS pf -> outcome A) b w w' :
  read_fs pf f w = (Return b, w') -> f (fs w) = Return b /\ w' = w.
Proof. by intros [= -> ->]. Qed.

End Inversions.

Section StepFacts.

Context (pf : Platform).
Variable data_config : DataConfig.
Variables images_dir depth_dir data_dir_ : PurePath.t.
Implicit Types w : world (FS pf).

Lemma mutate_return c f w w' :
  mutate pf c f w = (Return tt, w') -> calls w' = calls w ++ [c].
Proof. unfold mutate. destruct (f (fs w)) as [o f1]. by intros [= _ <-]. Qed.

Lemma resize_return (a b : ndarray) (c : bool) (o : outcome ndarray) w w' :
  (if c then lift pf o else mret a) w = (Return b, w') -> w' = w.
Proof. destruct c; [intros [_ ->]%lift_return | intros [_ ->]%ret_return]; done. Qed.

Lemma arith_return f a b w w' :
  arith pf f a w = (Return b, w') -> w' = w /\ exists a', a = Some a'.
Proof. destruct a; [intros [_ ->]%ret_return; eauto | discriminate]. Qed.

Lemma save_rgb_written i a w w' :
  save_rgb pf data_config images_dir i a w = (Return tt, w') ->
  exists img, calls w' = calls w ++ [CallImwrite (rgb_target images_dir i) img].
Proof.
  unfold save_rgb. intros H.
  apply bind_return_inv in H as (a' & w1 & H1 & H).
  apply bind_return_inv in H as (bgr & w2 & H2 & H).
  apply resize_return in H1 as ->.
  apply lift_return in H2 as [_ ->].
  apply mutate_return in H. eauto.
Qed.

Lemma store_depth_written i w depth w' :
  store_depth pf data_config depth_dir data_dir_ i w = (Return depth, w') ->
  (depth = None /\ w' = w) \/
  (exists img, depth = Some img /\
               calls w' = calls w ++ [CallImwrite (depth_target depth_dir i) img]).
Proof.
  unfold store_depth. intros H.
  apply bind_return_inv in H as (rel & w1 & Hrel & H).
  apply lift_return in Hrel as [_ ->].
  apply bind_return_inv in H as (ex & w2 & Hex & H).
  apply query_return in Hex as [_ ->].
  destruct ex; [|apply ret_return in H as [-> ->]; by left].
  apply bind_return_inv in H as (d0 & w3 & H3 & H).
  apply bind_return_inv in H as (d1 & w4 & H4 & H).
  apply bind_return_inv in H as (d2 & w5 & H5 & H).
  assert (w3 = w) as ->.
  { destruct (is_npy _).
    - apply bind_return_inv in H3 as (a & v & Ha & H3).
      apply read_fs_return in Ha as [_ ->]. by apply ret_return in H3 as [_ ->].
    - by apply query_return in H3 as [_ ->]. }
  assert (w4 = w) as ->.
  { destruct (get _ _); [by apply arith_return in H4 as [-> _]|].
    by apply ret_return in H4 as [_ ->]. }
  apply arith_return in H5 as [-> _].
  destruct d2 as [scaled|]; [|discriminate H].
  apply bind_return_inv in H as (img & w6 & H6 & H).
  apply bind_return_inv in H as ([] & w7 & H7 & H).
  apply resize_return in H6 as ->.
  apply mutate_return in H7.
  apply ret_return in H as [-> ->]. right. eauto.
Qed.

Lemma emits_load_transform_no_call i :
  emits pf (fun _ => False) (fun _ => True) (load_transform pf data_config data_dir_ i).
Proof. unfold load_transform. emits_auto. Qed.

Lemma load_transform_quiet i w transform w' :
  load_transform pf data_config data_dir_ i w = (Return transform, w') ->
  calls w' = calls w /\ (has_pose_format data_config = false -> transform = eye 4).
Proof.
  intros H. split.
  - destruct (emits_load_transform_no_call i w) as (cs & _ & Hc & _ & Hcs & _).
    rewrite H in Hc. simpl in Hc. destruct cs as [|c cs]; [by rewrite app_nil_r in Hc|].
    by inversion Hcs.
  - intros Hfmt. unfold load_transform in H. rewrite Hfmt in H.
    apply bind_return_inv in H as (rel & w1 & _ & H).
    apply bind_return_inv in H as (ex & w2 & [-> _]%ret_return & H).
    by apply ret_return in H as [-> _].
Qed.

Lemma process_frame_calls i frs w :
  exists cs, calls (process_frame pf data_config images_dir depth_dir data_dir_ i frs w).2
             = calls w ++ cs.
Proof.
  destruct (emits_process_frame pf data_config images_dir depth_dir data_dir_ i frs w)
    as (cs & _ & H & _). eauto.
Qed.

Lemma process_frame_record i frs w frs' w' :
  process_frame pf data_config images_dir depth_dir data_dir_ i frs w = (Return frs', w') ->
  frs' = frs \/
  exists f, frs' = frs ++ [f] /\
            written_record pf data_config images_dir depth_dir w' i f.
Proof.
  unfold process_frame. intros H.
  apply bind_return_inv in H as ([] & w1 & _ & H).
  apply bind_return_inv in H as (rel & w2 & _ & H).
  apply bind_return_inv in H as (ex & w3 & _ & H).
  destruct (negb ex).
  - apply bind_return_inv in H as ([] & w4 & _ & H). inversion H. by left.
  - apply bind_return_inv in H as (rgb & w4 & _ & H).
    apply bind_return_inv in H as ([] & w5 & Hrgb & H).
    apply bind_return_inv in H as (depth & w6 & Hdepth & H).
    apply bind_return_inv in H as (transform & w7 & Ht & H).
    inversion H; subst. right. eexists. split; [done|].
    apply save_rgb_written in Hrgb as (img & Hc5).
    pose proof (load_transform_native _ _ _ _ _ _ _ Ht) as Hnative.
    apply load_transform_quiet in Ht as (Hc7 & Hid).
    exists transform, depth. repeat split; try done.
    + exists img. rewrite Hc7.
      apply store_depth_written in Hdepth as [[_ ->]|(img' & _ & ->)];
        rewrite Hc5; set_solver.
    + intros img' ->. rewrite Hc7.
      apply store_depth_written in Hdepth as [[? _]|(img'' & [= <-] & ->)]; [done|].
      set_solver.
Qed.

End StepFacts.

(** ** The loop over the frames *)

Lemma sublist_same_length {A} (l1 l2 : list A) :
  sublist l1 l2 -> length l2 <= length l1 -> l1 = l2.
Proof.
  induction 1 as [|x l1 l2 Hs IH|x l1 l2 Hs IH]; simpl; intros Hl.
  - done.
  - f_equal. apply IH. lia.
  - apply sublist_length in Hs. lia.
Qed.

Lemma sublist_seq_increasing ks a n :
  sublist ks (seq a n) -> StronglySorted lt ks /\ Forall (fun i => a <= i < a + n) ks.
Proof.
  revert ks a. induction n as [|n IH]; intros ks a H; simpl in H.
  - apply sublist_nil_r in H as ->. split; constructor.
  - apply sublist_cons_r in H as [H|(ks' & -> & H)].
    + apply IH in H as [Hs Hb]. split; [done|].
      eapply Forall_impl; [exact Hb|]. simpl. lia.
    + apply IH in H as [Hs Hb]. split.
      * constructor; [done|]. eapply Forall_impl; [exact Hb|]. simpl. lia.
      * constructor; [lia|]. eapply Forall_impl; [exact Hb|]. simpl. lia.
Qed.

Section LoopRecords.

Context (pf : Platform).
Variable data_config : DataConfig.
Variables images_dir depth_dir data_dir_ : PurePath.t.
Implicit Types w : world (FS pf).

Lemma written_record_mono w w' cs i f :
  calls w' = calls w ++ cs ->
  written_record pf data_config images_dir depth_dir w i f ->
  written_record pf data_config images_dir depth_dir w' i f.
Proof.
  intros Hc (transform & depth & -> & Hl & Hid & [img Hrgb] & Hdepth).
  exists transform, depth. rewrite Hc. split_and!; [done..| |].
  - exists img. set_solver.
  - intros img' Hd. specialize (Hdepth _ Hd). set_solver.
Qed.

Lemma for_frames_calls l frs w :
  exists cs,
    calls (for_frames pf (process_frame pf data_config images_dir depth_dir data_dir_)
             l frs w).2 = calls w ++ cs.
Proof.
  destruct (emits_for_frames pf not_rmtree (fun _ => True)
              (process_frame pf data_config images_dir depth_dir data_dir_) l frs
              (fun x s => emits_process_frame pf data_config images_dir depth_dir data_dir_ x s)
              w) as (cs & _ & H & _).
  eauto.
Qed.

(** The records a completed loop has appended are those of the frames it
    kept, in increasing order of frame index; every other frame was
    reported as skipped. *)
Lemma for_frames_records l frs w frs' w' :
  for_frames pf (process_frame pf data_config images_dir depth_dir data_dir_) l frs w
    = (Return frs', w') ->
  exists kept ks ms,
    frs' = frs ++ kept /\ stdout w' = stdout w ++ ms /\
    Forall2 (fun f i => written_record pf data_config images_dir depth_dir w' i f) kept ks /\
    sublist ks l /\
    Permutation (ks ++ skipped_indices ms) l.
Proof.
  revert frs w. induction l as [|i l IH]; intros frs w H; simpl in H.
  - apply ret_return in H as [-> ->]. exists [], [], []. rewrite !app_nil_r.
    split_and!; try done.
  - apply bind_return_inv in H as (frs1 & w1 & H1 & H).
    pose proof (process_frame_cases _ _ _ _ _ _ _ _ _ _ H1) as (ms1 & Ho1 & Hcase).
    apply process_frame_record in H1 as Hrec.
    destruct (for_frames_calls l frs1 w1) as [cs Hcs]. rewrite H in Hcs. simpl in Hcs.
    apply IH in H as (kept & ks & ms & -> & Ho & Hrs & Hsub & Hp).
    destruct Hcase as [[-> Hs]|(transform & depth & -> & Hs)].
    + exists kept, ks, (ms1 ++ ms). rewrite Ho, Ho1, <- app_assoc.
      split_and!; try done.
      * by apply sublist_cons.
      * rewrite skipped_indices_app, Hs. simpl.
        rewrite <- Permutation_middle. by constructor.
    + exists (frame_data data_config i transform depth :: kept), (i :: ks), (ms1 ++ ms).
      rewrite Ho, Ho1, <- !app_assoc. split_and!; try done.
      * constructor; [|done].
        destruct Hrec as [Hrec|(f & Hf & Hrec)].
        -- apply (f_equal length) in Hrec. rewrite length_app in Hrec. simpl in Hrec. lia.
        -- apply app_inj_tail in Hf as [_ <-].
           by eapply written_record_mono.
      * by apply sublist_skip.
      * rewrite skipped_indices_app, Hs. simpl. by constructor.
Qed.

End LoopRecords.

Section RunRecords.

Context (pf : Platform).
Variable data_config : DataConfig.
Implicit Types w : world (FS pf).

Lemma build_dataset_records save_path w w' :
  build_dataset pf save_path data_config w = (Return tt, w') ->
  exists frames_ ks ms pre,
    calls w' = pre ++ [CallWriteText (transforms_path save_path)
                                     (make_manifest data_config frames_)] /\
    stdout w' = stdout w ++ ms /\
    Forall2 (fun f i => written_record pf data_config (PurePath.joinpath save_path "rgb")
                          (PurePath.joinpath save_path "depth") w' i f) frames_ ks /\
    sublist ks (seq 0 (Z.to_nat (num_frames data_config))) /\
    Permutation (ks ++ skipped_indices ms) (seq 0 (Z.to_nat (num_frames data_config))).
Proof.
  unfold build_dataset. intros H.
  apply bind_return_inv in H as ([] & w1 & H1 & H).
  apply bind_return_inv in H as ([] & w2 & H2 & H).
  apply bind_return_inv in H as ([] & w3 & H3 & H).
  apply bind_return_inv in H as ([] & w4 & H4 & H).
  apply bind_return_inv in H as (frames_ & w5 & H5 & H).
  apply bind_return_inv in H as ([] & w6 & H6 & H).
  apply bind_return_inv in H as ([] & w7 & H7 & H).
  apply for_frames_records in H5 as (kept & ks & ms & -> & Ho & Hrs & Hsub & Hp).
  assert (stdout w4 = stdout w ++ [MsgCreating (num_frames data_config)]) as Ho4.
  { unfold path_mkdir, mutate in H1, H2, H3.
    destruct (mkdir pf _ true (fs w)) as [o1 f1]. injection H1 as -> <-.
    simpl in H2. destruct (mkdir pf _ false f1) as [o2 f2]. injection H2 as -> <-.
    simpl in H3. destruct (mkdir pf _ false f2) as [o3 f3]. injection H3 as -> <-.
    by injection H4 as <-. }
  injection H6 as <-.
  apply mutate_return in H7 as Hc7. simpl in Hc7.
  assert (stdout w7 = stdout w5 ++ [MsgSaving]) as Ho7.
  { unfold mutate in H7. simpl in H7. destruct (write_text pf _ _ (fs w5)) as [o7 f7].
    by injection H7 as -> <-. }
  injection H as <-. simpl.
  exists kept, ks,
    ([MsgCreating (num_frames data_config)] ++ ms
       ++ [MsgSaving; MsgCreated (PurePath.to_str save_path)]), (calls w5).
  split_and!; try done.
  - rewrite Ho7, Ho, Ho4, <- !app_assoc. done.
  - eapply Forall2_impl; [exact Hrs|]. intros f i Hf.
    eapply (written_record_mono pf data_config _ _ w5 _ [_]); [|exact Hf].
    simpl. exact Hc7.
  - rewrite !skipped_indices_app. simpl. by rewrite app_nil_r.
Qed.

End RunRecords.

Section CreateRecords.

Context (pf : Platform).
Variable data_config : DataConfig.
Implicit Types w : world (FS pf).

Lemma create_dataset_records save_path overwrite w w' :
  create_dataset_from_files pf save_path overwrite data_config w = (Return tt, w') ->
  exists frames_ ks out pre,
    calls w' = pre ++ [CallWriteText (transforms_path save_path)
                                     (make_manifest data_config frames_)] /\
    stdout w' = stdout w ++ out /\
    Forall2 (fun f i => written_record pf data_config (PurePath.joinpath save_path "rgb")
                          (PurePath.joinpath save_path "depth") w' i f) frames_ ks /\
    sublist ks (seq 0 (Z.to_nat (num_frames data_config))) /\
    Permutation (ks ++ skipped_indices out) (seq 0 (Z.to_nat (num_frames data_config))).
Proof.
  unfold create_dataset_from_files. intros Hrun.
  apply bind_return_inv in Hrun as ([] & w1 & Hguard & Hbuild).
  destruct (emits_overwrite_guard pf save_path overwrite w)
    as (cs0 & ms0 & _ & Ho0 & _ & Hms0).
  rewrite Hguard in Ho0. simpl in Ho0.
  apply build_dataset_records in Hbuild as (frames_ & ks & ms & pre & Hc & Ho & Hrs & Hsub & Hp).
  exists frames_, ks, (ms0 ++ ms), pre. split_and!; try done.
  - by rewrite Ho, Ho0, <- app_assoc.
  - by rewrite skipped_indices_app, (skipped_indices_not_skip _ Hms0).
Qed.

Lemma written_record_name images_dir depth_dir w frames_ ks :
  Forall2 (fun f i => written_record pf data_config images_dir depth_dir w i f) frames_ ks ->
  map file_path frames_ = map frame_name ks.
Proof.
  induction 1 as [|f i frames_ ks (transform & depth & -> & _) _ IH]; [done|].
  simpl. by rewrite IH.
Qed.

End CreateRecords.

(** ** The depth image the Writer stores *)

Section DepthFacts.

Context (pf : Platform).
Variable data_config : DataConfig.
Variables depth_dir data_dir_ : PurePath.t.
Implicit Types w : world (FS pf).

(** The run of [store_depth] on a depth source that exists and loads, when
    no resizing is needed: the array is brought to metres, multiplied by
    the depth scale, cast to 16 bits and written to "depth/<i>.png". *)
Lemma store_depth_run i w rel a :
  str_format pf (depth_format data_config) i = Return rel ->
  path_exists pf (fs w) (PurePath.to_str (PurePath.joinpath data_dir_ rel)) = true ->
  (is_npy (PurePath.joinpath data_dir_ rel) = true /\
   np_load pf (fs w) (PurePath.to_str (PurePath.joinpath data_dir_ rel)) = Return a) \/
  (is_npy (PurePath.joinpath data_dir_ rel) = false /\
   cv2_imread pf (fs w) (PurePath.to_str (PurePath.joinpath data_dir_ rel)) true = Some a) ->
  shape_differs a (get (cfg_height data_config) 1080%Z) (get (cfg_width data_config) 1920%Z)
    = false ->
  let metres := if get (depth_in_millimeters data_config) false
                then arr_map (fun x => x / 1000)%Q a else a in
  let img := astype_uint 16
               (arr_map (fun x => x * get (depth_scale data_config) 1000)%Q metres) in
  store_depth pf data_config depth_dir data_dir_ i w =
  (imwrite pf (PurePath.joinpath depth_dir (pretty i +:+ ".png")) img ≫=
     fun _ => mret (Some img)) w.
Proof.
  intros Hfmt Hex Hsrc Hshape metres img.
  unfold store_depth. rewrite bind_run. unfold lift at 1. rewrite Hfmt. cbv beta iota.
  rewrite bind_run. unfold exists_, query at 1. rewrite Hex. cbv beta iota.
  rewrite bind_run.
  assert ((if is_npy (PurePath.joinpath data_dir_ rel)
           then read_fs pf (fun f => np_load pf f (PurePath.to_str (PurePath.joinpath data_dir_ rel)))
                  ≫= fun a0 => mret (Some a0)
           else query pf (fun f => cv2_imread pf f
                                     (PurePath.to_str (PurePath.joinpath data_dir_ rel)) true)) w
          = (Return (Some a), w)) as ->.
  { destruct Hsrc as [[-> Ha]|[-> Ha]].
    - rewrite bind_run. unfold read_fs. by rewrite Ha.
    - unfold query. by rewrite Ha. }
  cbv beta iota. rewrite bind_run.
  assert ((if get (depth_in_millimeters data_config) false
           then arith pf (fun x => x / 1000)%Q (Some a) else mret (Some a)) w
          = (Return (Some metres), w)) as ->.
  { subst metres. by destruct (get (depth_in_millimeters data_config) false). }
  cbv beta iota. rewrite bind_run. unfold arith at 1. rewrite ret_run. cbv beta iota.
  rewrite bind_run.
  assert (shape_differs img (get (cfg_height data_config) 1080%Z)
            (get (cfg_width data_config) 1920%Z) = false) as Hs.
  { rewrite <- Hshape. unfold shape_differs. subst img metres.
    by destruct (get (depth_in_millimeters data_config) false). }
  fold img. rewrite Hs, ret_run. cbv beta iota. done.
Qed.

Lemma imwrite_run p img w :
  calls (imwrite pf p img w).2 = calls w ++ [CallImwrite (PurePath.to_str p) img] /\
  stdout (imwrite pf p img w).2 = stdout w.
Proof. unfold imwrite, mutate. by destruct (cv2_imwrite pf _ _ _). Qed.

Lemma astype_uint16_quantize (s : Q) (a : ndarray) :
  elems (astype_uint 16 (arr_map (fun x => x * s)%Q a)) =
  map (fun d => inject_Z (quantize d s)) (elems a).
Proof. simpl. by rewrite map_map. Qed.

End DepthFacts.

Lemma quantize_round_trip (d s : Q) :
  (0 <= d)%Q -> (0 < s)%Q -> (d * s <= 65535)%Q ->
  (Qabs (dequantize (quantize d s) s - d) <= 1 / s)%Q.
Proof.
  intros Hd Hs Hmax.
  rewrite quantize_in_range by done. unfold dequantize.
  set (x := (d * s)%Q). set (q := inject_Z (Qfloor x)).
  assert (q <= x)%Q as Hlo by apply Qfloor_le.
  assert (x < q + 1)%Q as Hhi.
  { unfold q. pose proof (Qlt_floor x) as H. by rewrite inject_Z_plus in H. }
  assert (0 < / s)%Q as Ht by (by apply Qinv_lt_0_compat).
  assert (~ s == 0)%Q as Hs0 by (intros E; rewrite E in Hs; by apply Qlt_irrefl in Hs).
  assert (d == x * / s)%Q as Hdx by (unfold x; field; done).
  assert (0 <= (x - q) * / s)%Q as H1.
  { apply Qmult_le_0_compat; [lra | by apply Qlt_le_weak]. }
  assert (0 <= (q + 1 - x) * / s)%Q as H2.
  { apply Qmult_le_0_compat; [lra | by apply Qlt_le_weak]. }
  apply Qabs_Qle_condition. unfold Qdiv.
  split.
  - rewrite Hdx at 1. lra.
  - rewrite Hdx at 1. lra.
Qed.

Lemma quantize_le (d1 d2 s : Q) :
  (0 <= d1)%Q -> (d1 <= d2)%Q -> (0 < s)%Q -> (d2 * s <= 65535)%Q ->
  (0 <= quantize d1 s <= quantize d2 s)%Z /\ (quantize d2 s <= 65535)%Z.
Proof.
  intros H1 H12 Hs H2.
  assert (d1 * s <= d2 * s)%Q as Hle by (apply Qmult_le_compat_r; [done | by apply Qlt_le_weak]).
  assert (0 <= d1 * s)%Q as H0 by (apply Qmult_le_0_compat; [done | by apply Qlt_le_weak]).
  rewrite !quantize_in_range; try done.
  - split; [split|].
    + change 0%Z with (Qfloor 0). by apply Qfloor_resp_le.
    + by apply Qfloor_resp_le.
    + change 65535%Z with (Qfloor 65535). by apply Qfloor_resp_le.
  - by apply Qle_trans with d1.
  - by apply Qle_trans with (d2 * s)%Q.
Qed.

Section PoseFacts.

Context (pf : Platform).
Variable data_config : DataConfig.
Variable data_dir_ : PurePath.t.
Implicit Types w : world (FS pf).

Lemma load_transform_run i w rel :
  str_format pf (get (pose_format data_config) "") i = Return rel ->
  load_transform pf data_config data_dir_ i w =
  if has_pose_format data_config
     && path_exists pf (fs w) (PurePath.to_str (PurePath.joinpath data_dir_ rel))
  then
    match (if is_npy (PurePath.joinpath data_dir_ rel)
           then np_load pf (fs w) (PurePath.to_str (PurePath.joinpath data_dir_ rel))
           else np_loadtxt pf (fs w) (PurePath.to_str (PurePath.joinpath data_dir_ rel))) with
    | Return a => (Return (tolist a), w)
    | Raise e =>
        (Return (eye 4),
         World (fs w) (stdin w)
               (stdout w ++ [MsgPoseError (PurePath.to_str (PurePath.joinpath data_dir_ rel)) e;
                             MsgIdentityFallback])
               (calls w))
    | SysExit c => (SysExit c, w)
    end
  else (Return (eye 4), w).
Proof.
  intros Hfmt. unfold load_transform. rewrite bind_run. unfold lift at 1. rewrite Hfmt.
  cbv beta iota. rewrite bind_run.
  assert (forall p e, (print pf (MsgPoseError p e);; print pf MsgIdentityFallback;;
                       (mret (eye 4) : W pf (list (list Q)))) w
                      = (Return (eye 4),
                         World (fs w) (stdin w)
                           (stdout w ++ [MsgPoseError p e; MsgIdentityFallback]) (calls w)))
    as Hhandler.
  { intros p e. unfold print. repeat (rewrite bind_run; cbn -[eye app]).
    rewrite ret_run. by rewrite <- app_assoc. }
  destruct (has_pose_format data_config); [|by rewrite !ret_run].
  unfold exists_, query. cbn [andb]. destruct (path_exists pf (fs w) _); [|by rewrite ret_run].
  unfold try_except. rewrite bind_run.
  destruct (is_npy _); unfold read_fs.
  - destruct (np_load pf (fs w) _) as [a|e|c]; [by rewrite ret_run| |done].
    by rewrite Hhandler.
  - destruct (np_loadtxt pf (fs w) _) as [a|e|c]; [by rewrite ret_run| |done].
    by rewrite Hhandler.
Qed.

End PoseFacts.

Lemma skipped_indices_inv i ms : i ∈ skipped_indices ms -> exists p, MsgSkip p i ∈ ms.
Proof.
  unfold skipped_indices. intros (m & Hm & Hi)%list_elem_of_omap.
  destruct m; try discriminate. injection Hi as ->. eauto.
Qed.

(** * The claims *)

(** C1. The sequences [get_filepaths] and [load_poses] hand out follow the
    order of the manifest's [frames] list, not the numeric order of the file
    stems: for a manifest listing stems 10, 2, 1 the sorted [image_names] is
    1, 2, 10 while the colour paths, depth paths and poses come out as
    10, 2, 1. *)
Theorem exposed_order_is_manifest_order :
  exists self self' cp dp ep poses,
    Capture.reader Capture.unordered = Return self /\
    get_filepaths (fun _ => []) self = Return (self', (cp, dp, ep)) /\
    load_poses self' = Return poses /\
    image_names self = ["rgb/1.png"; "rgb/2.png"; "rgb/10.png"] /\
    cp = ["data/scene/rgb/10.png"; "data/scene/rgb/2.png"; "data/scene/rgb/1.png"] /\
    dp = ["data/scene/depth/10.png"; "data/scene/depth/2.png"; "data/scene/depth/1.png"] /\
    map (fun pose => entry pose 0 3) poses = [10; 2; 1]%Q.
Proof.
  do 6 eexists. repeat split; vm_compute; reflexivity.
Qed.

(** C2, as stated, fails: the index does not hold positions in the sorted
    sequence. *)
Lemma frame_index_sorted_position_fails :
  ~ (forall json_load basedir sequence emb dir self i p,
        __init__ json_load basedir sequence emb dir = Return self ->
        image_names self !! i = Some p ->
        filepath_index_mapping self !! p = Some i).
Proof.
  intros H.
  destruct (Capture.reader Capture.unordered) as [self| |] eqn:Hself; try discriminate Hself.
  pose proof (H _ _ _ _ _ self 0 "rgb/1.png" Hself) as H0.
  vm_compute in Hself. inversion Hself; subst; clear Hself.
  specialize (H0 eq_refl). vm_compute in H0. discriminate H0.
Qed.

(** C2, amended. The index built at load time maps the [file_path] of each
    record to the position of that record in the manifest's [frames] list
    (the last such position when a path is repeated), it holds nothing else,
    and [get_filepaths] leaves it as it is. *)
Theorem frame_index_maps_manifest_position json_load basedir sequence emb dir m :
  json_load (os_path_join basedir sequence +:+ "/transforms.json") = Return m ->
  loadable m = true ->
  exists self,
    __init__ json_load basedir sequence emb dir = Return self /\
    (forall i f, frames m !! i = Some f ->
       (forall j g, frames m !! j = Some g -> file_path g = file_path f -> j <= i) ->
       filepath_index_mapping self !! file_path f = Some i) /\
    (forall p i, filepath_index_mapping self !! p = Some i ->
       exists f, frames m !! i = Some f /\ file_path f = p) /\
    (forall glob self' r, get_filepaths glob self = Return (self', r) ->
       filepath_index_mapping self' = filepath_index_mapping self).
Proof.
  intros Hm Hl. destruct (init_total _ _ _ emb dir _ Hm Hl) as [self Hself].
  exists self. split; [done|].
  destruct (init_inv _ _ _ _ _ _ Hself) as (m' & Hm' & _ & _ & _ & Hmap & _).
  rewrite Hm in Hm'. inversion Hm'; subst m'. rewrite Hmap.
  repeat split.
  - apply create_filepath_index_mapping_last.
  - apply create_filepath_index_mapping_sound.
  - intros glob self' [[cp dp] ep] Hg.
    destruct (get_filepaths_inv _ _ _ _ _ _ Hg) as (poses & _ & -> & _). simpl. by rewrite Hmap.
Qed.

Lemma frame_index_maps_manifest_position_witness :
  exists self,
    Capture.reader Capture.unordered = Return self /\
    filepath_index_mapping self !! "rgb/10.png" = Some 0.
Proof.
  destruct (frame_index_maps_manifest_position (fun _ => Return Capture.unordered)
              "data" "scene" false "embeddings" Capture.unordered eq_refl eq_refl)
    as (self & Hself & Hpos & _).
  exists self. split; [exact Hself|].
  apply (Hpos 0 (Capture.frame "rgb/10.png" 10) eq_refl).
  intros j g Hj Hp.
  destruct j as [|[|[|j]]]; simpl in Hj; inversion Hj; subst; simpl in Hp;
    first [lia | discriminate Hp].
Defined.

(** C3. When every record carries a 4x4 [transform_matrix], [get_filepaths]
    returns, and the pose it hands to [load_poses] for each record is, entry
    by entry, P . C2W . P^T with P = diag(1, -1, -1, 1).  The Writer applies
    no conversion: the [transform_matrix] of a record it appends is the pose
    file as loaded, or the identity, and it is the identity when no pose
    format is configured. *)
Theorem reader_pose_is_P_C2W_Pt (glob : string -> list string) (self : NeRFCaptureDataset) :
  Forall (fun f => is_4x4 (transform_matrix f) = true) (frames_metadata self) ->
  (exists self' cp dp ep poses,
      get_filepaths glob self = Return (self', (cp, dp, ep)) /\
      load_poses self' = Return poses /\
      length poses = length (frames_metadata self) /\
      forall i f, frames_metadata self !! i = Some f ->
        exists pose, poses !! i = Some pose /\
          forall r c, r < 4 -> c < 4 ->
            (entry pose r c == spec_P_C_Pt (transform_matrix f) r c)%Q) /\
  (forall pf data_config images_dir depth_dir data_dir_ i frs (w w' : world (FS pf)) frs',
      process_frame pf data_config images_dir depth_dir data_dir_ i frs w = (Return frs', w') ->
      frs' = frs \/
      exists f,
        frs' = frs ++ [f] /\
        stored_as_loaded pf (transform_matrix f) /\
        (has_pose_format data_config = false -> transform_matrix f = eye 4) /\
        exists transform depth,
          f = frame_data data_config i transform depth /\ transform_matrix f = transform).
Proof.
  intros H4. split.
  - destruct (get_filepaths_total glob self H4) as (self' & cp & dp & ep & Hg).
    destruct (get_filepaths_inv _ _ _ _ _ _ Hg) as (poses & Hposes & _ & Hload & _ & _).
    exists self', cp, dp, ep, poses. repeat split; try done.
    + by eapply map_outcome_length.
    + intros i f Hi.
      destruct (map_outcome_lookup _ _ _ _ _ Hposes Hi) as (pose & Hp & Hpose).
      exists pose. split; [done|].
      rewrite Forall_forall in H4.
      destruct (pose_of_4x4 f) as (pose' & Hpose' & _ & Hentries).
      { apply H4. by eapply list_elem_of_lookup_2. }
      rewrite Hpose in Hpose'. by inversion Hpose'; subst.
  - intros pf data_config images_dir depth_dir data_dir_ i frs w w' frs' Hturn.
    apply process_frame_record in Hturn
      as [->|(f & -> & transform & depth & -> & Hl & Hid & _)]; [by left|].
    right. eexists. split; [done|]. cbn [transform_matrix frame_data].
    split; [done|]. split; [done|]. by exists transform, depth.
Qed.

Lemma reader_pose_is_P_C2W_Pt_witness :
  exists self self' cp dp ep poses,
    Capture.reader Capture.unordered = Return self /\
    get_filepaths (fun _ => []) self = Return (self', (cp, dp, ep)) /\
    load_poses self' = Return poses /\
    exists pose, poses !! 0 = Some pose /\ (entry pose 1 3 == -10)%Q.
Proof.
  destruct (Capture.reader Capture.unordered) as [self| |] eqn:Hself; try discriminate Hself.
  assert (H4 : Forall (fun f => is_4x4 (transform_matrix f) = true) (frames_metadata self)).
  { vm_compute in Hself. inversion Hself; subst. repeat constructor. }
  destruct (reader_pose_is_P_C2W_Pt (fun _ => []) self H4)
    as ((self' & cp & dp & ep & poses & Hg & Hl & _ & Hposes) & _).
  exists self, self', cp, dp, ep, poses. repeat split; try done.
  destruct (Hposes 0 (Capture.frame "rgb/10.png" 10)) as (pose & Hp & He).
  { vm_compute in Hself. inversion Hself; subst. reflexivity. }
  exists pose. split; [done|]. rewrite He by lia. vm_compute. reflexivity.
Defined.

(** C4. The Writer's depth branch on a depth source that exists and loads
    (no resizing needed): the image it hands to [cv2.imwrite] for
    "depth/<i>.png", and returns, holds for every depth of the source, in
    metres, that depth times the depth scale truncated to 16 bits; and for a
    depth [d >= 0] and a scale [s > 0] with [d * s <= 65535], dividing the
    stored value by [s] gives back [d] within [1 / s]. *)
Theorem depth_round_trip (pf : Platform) data_config depth_dir data_dir_ (i : nat)
    (w : world (FS pf)) (rel : string) (a : ndarray) :
  let s := get (depth_scale data_config) 1000%Q in
  let metres := if get (depth_in_millimeters data_config) false
                then arr_map (fun x => x / 1000)%Q a else a in
  let r := store_depth pf data_config depth_dir data_dir_ i w in
  str_format pf (depth_format data_config) i = Return rel ->
  path_exists pf (fs w) (PurePath.to_str (PurePath.joinpath data_dir_ rel)) = true ->
  (is_npy (PurePath.joinpath data_dir_ rel) = true /\
   np_load pf (fs w) (PurePath.to_str (PurePath.joinpath data_dir_ rel)) = Return a) \/
  (is_npy (PurePath.joinpath data_dir_ rel) = false /\
   cv2_imread pf (fs w) (PurePath.to_str (PurePath.joinpath data_dir_ rel)) true = Some a) ->
  shape_differs a (get (cfg_height data_config) 1080%Z) (get (cfg_width data_config) 1920%Z)
    = false ->
  (0 < s)%Q ->
  (forall d, (0 <= d)%Q -> (d * s <= 65535)%Q ->
     (Qabs (dequantize (quantize d s) s - d) <= 1 / s)%Q) /\
  exists img,
    calls r.2 = calls w ++ [CallImwrite (depth_target depth_dir i) img] /\
    (forall o, r.1 = Return o -> o = Some img) /\
    shape img = shape a /\
    Forall2 (fun d y => y = inject_Z (quantize d s) /\
                        ((0 <= d)%Q -> (d * s <= 65535)%Q ->
                         (Qabs (dequantize (quantize d s) s - d) <= 1 / s)%Q))
            (elems metres) (elems img).
Proof.
  intros s metres r Hfmt Hex Hsrc Hshape Hs.
  split; [intros d Hd Hmax; by apply quantize_round_trip|].
  subst r. rewrite (store_depth_run pf data_config depth_dir data_dir_ i w rel a) by done.
  fold metres. fold s.
  set (img := astype_uint 16 (arr_map (fun x => x * s)%Q metres)).
  exists img. rewrite bind_run.
  destruct (imwrite_run pf (PurePath.joinpath depth_dir (pretty i +:+ ".png")) img w)
    as [Hc _].
  destruct (imwrite pf _ img w) as [[[]| |] w1]; cbn [fst snd] in *.
  all: split; [exact Hc|]; split;
    [intros o Ho; try rewrite ret_run in Ho; cbn [fst] in Ho; by simplify_eq|]; split.
  all: try (subst img metres; by destruct (get (depth_in_millimeters data_config) false)).
  all: unfold img; rewrite astype_uint16_quantize; apply Forall2_fmap_r;
    apply Forall_Forall2_diag, Forall_forall; intros d _; split; [done|];
    intros Hd Hmax; by apply quantize_round_trip.
Qed.

Lemma depth_round_trip_witness :
  (Qabs (dequantize (quantize (3 # 2) 1000) 1000 - (3 # 2)) <= 1 / 1000)%Q /\
  exists img,
    calls (store_depth MemFS.platform Capture.config (PurePath.of_str "out/depth")
             (PurePath.of_str "raw") 0 (Capture.start [])).2
    = [CallImwrite "out/depth/0.png" img] /\
    shape img = [1; 1].
Proof.
  destruct (depth_round_trip MemFS.platform Capture.config (PurePath.of_str "out/depth")
              (PurePath.of_str "raw") 0 (Capture.start []) "d0.npy" Capture.pixel
              eq_refl eq_refl (or_introl (conj eq_refl eq_refl)) eq_refl eq_refl)
    as (Hpoint & img & Hc & _ & Hshape & _).
  split.
  - apply (Hpoint (3 # 2)); vm_compute; intros; discriminate.
  - exists img. split; [exact Hc | exact Hshape].
Defined.

(** C5, as stated, fails in its example: for the writer's scale 65535 the
    Reader derives 1, not 65535. *)
Lemma reader_scale_for_65535_is_one :
  exists self,
    Capture.reader (make_manifest (Capture.config_scaled 65535) []) = Return self /\
    (png_depth_scale self == 1)%Q /\ ~ (png_depth_scale self == 65535)%Q.
Proof.
  eexists. split; [vm_compute; reflexivity|]. split; vm_compute; [reflexivity | discriminate].
Qed.

(** C5, amended. The Reader's depth scale is [1 / integer_depth_scale] when
    the manifest has the field and 6553.5 when it has not.  The Writer
    records [depth_scale / 65535], so on a manifest it wrote the Reader
    derives [65535 / depth_scale]; for the scale 65535 the recorded value is
    1 and the derived scale is 1. *)
Theorem depth_scale_handover json_load basedir sequence emb dir m :
  json_load (os_path_join basedir sequence +:+ "/transforms.json") = Return m ->
  loadable m = true ->
  exists self,
    __init__ json_load basedir sequence emb dir = Return self /\
    match integer_depth_scale m with
    | Some ids => (png_depth_scale self == 1 / ids)%Q
    | None => (png_depth_scale self == 13107 # 2)%Q
    end /\
    forall data_config frames_, m = make_manifest data_config frames_ ->
      let s := get (depth_scale data_config) 1000%Q in
      integer_depth_scale m = Some (s / 65535)%Q /\
      (png_depth_scale self == 65535 / s)%Q /\
      ((s == 65535)%Q -> (s / 65535 == 1)%Q /\ (png_depth_scale self == 1)%Q).
Proof.
  intros Hm Hl. destruct (init_total _ _ _ emb dir _ Hm Hl) as [self Hself].
  exists self. split; [done|].
  destruct (init_inv _ _ _ _ _ _ Hself) as (m' & Hm' & _ & _ & _ & _ & _ & Hs & _).
  rewrite Hm in Hm'. inversion Hm'; subst m'. split.
  - destruct (integer_depth_scale m); [destruct Hs as [_ ->] | rewrite Hs]; reflexivity.
  - intros data_config frames_ -> s. simpl in Hs. fold s in Hs. destruct Hs as [Hne Hpng].
    assert (~ s == 0)%Q as Hs0.
    { intros E. apply Hne. rewrite E. reflexivity. }
    assert (png_depth_scale self == 65535 / s)%Q as Hscale.
    { rewrite Hpng. field. done. }
    repeat split; try done.
    + rewrite H. reflexivity.
    + rewrite Hscale, H. reflexivity.
Qed.

Lemma depth_scale_handover_witness :
  exists self,
    Capture.reader (make_manifest (Capture.config_scaled 65535) []) = Return self /\
    (png_depth_scale self == 1)%Q.
Proof.
  destruct (depth_scale_handover (fun _ => Return (make_manifest (Capture.config_scaled 65535) []))
              "data" "scene" false "embeddings" _ eq_refl eq_refl)
    as (self & Hself & _ & Hw).
  exists self. split; [exact Hself|].
  destruct (Hw (Capture.config_scaled 65535) [] eq_refl) as (_ & _ & Hone).
  apply Hone. reflexivity.
Defined.

(** C6. A frame whose colour source is missing is skipped and the loop goes
    on: that turn of the loop returns normally, with the list of records and
    the file system unchanged and the skip reported, and the loop continues
    with the remaining frames from there.  In a run that completes, the
    manifest written last has, for every frame reported as skipped, strictly
    fewer than [num_frames] records and no record whose [file_path] is
    "rgb/<i>.png"; and every frame index below [num_frames] that is not
    reported as skipped has its record in the manifest, also after a skipped
    frame. *)
Theorem missing_color_frame_is_skipped (pf : Platform) save_path overwrite data_config
    (w w' : world (FS pf)) :
  create_dataset_from_files pf save_path overwrite data_config w = (Return tt, w') ->
  (forall images_dir depth_dir data_dir_ i rel frs (v : world (FS pf)),
      str_format pf (rgb_format data_config) i = Return rel ->
      path_exists pf (fs v) (PurePath.to_str (PurePath.joinpath data_dir_ rel)) = false ->
      process_frame pf data_config images_dir depth_dir data_dir_ i frs v =
      (Return frs,
       World (fs v) (stdin v)
             (stdout v ++ [MsgProcessing (i + 1) (num_frames data_config);
                           MsgSkip (PurePath.to_str (PurePath.joinpath data_dir_ rel)) i])
             (calls v)) /\
      forall rest,
        for_frames pf (process_frame pf data_config images_dir depth_dir data_dir_)
                   (i :: rest) frs v =
        for_frames pf (process_frame pf data_config images_dir depth_dir data_dir_)
                   rest frs
                   (World (fs v) (stdin v)
                      (stdout v ++ [MsgProcessing (i + 1) (num_frames data_config);
                                    MsgSkip (PurePath.to_str (PurePath.joinpath data_dir_ rel)) i])
                      (calls v))) /\
  exists manifest out,
    last (calls w') = Some (CallWriteText (transforms_path save_path) manifest) /\
    stdout w' = stdout w ++ out /\
    (forall p i, MsgSkip p i ∈ out ->
      (Z.of_nat i < num_frames data_config)%Z /\
      (Z.of_nat (length (frames manifest)) < num_frames data_config)%Z /\
      forall f, f ∈ frames manifest -> file_path f <> "rgb/" +:+ pretty i +:+ ".png") /\
    (forall i, (Z.of_nat i < num_frames data_config)%Z ->
      (exists p, MsgSkip p i ∈ out) \/
      exists f, f ∈ frames manifest /\ file_path f = "rgb/" +:+ pretty i +:+ ".png").
Proof.
  intros Hrun. split.
  - intros images_dir depth_dir data_dir_ i rel frs v Hfmt Hex.
    assert (process_frame pf data_config images_dir depth_dir data_dir_ i frs v =
            (Return frs,
             World (fs v) (stdin v)
               (stdout v ++ [MsgProcessing (i + 1) (num_frames data_config);
                             MsgSkip (PurePath.to_str (PurePath.joinpath data_dir_ rel)) i])
               (calls v))) as Hturn.
    { unfold process_frame. rewrite bind_run. simpl. rewrite Hfmt.
      rewrite bind_run. simpl. rewrite bind_run. unfold exists_, query. simpl.
      rewrite Hex. simpl. rewrite bind_run. simpl. by rewrite <- app_assoc. }
    split; [exact Hturn|].
    intros rest. cbn [for_frames]. by rewrite bind_run, Hturn.
  - apply create_dataset_records in Hrun
      as (frames_ & ks & out & pre & Hc & Ho & Hrs & _ & Hp).
    pose proof (written_record_name _ _ _ _ _ _ _ Hrs) as Hn.
    exists (make_manifest data_config frames_), out.
    split; [by rewrite Hc, last_snoc|]. split; [done|].
    set (n := Z.to_nat (num_frames data_config)) in *.
    assert (Hlen : length ks + length (skipped_indices out) = n).
    { apply Permutation_length in Hp. by rewrite length_app, length_seq in Hp. }
    assert (Hfr : length frames_ = length ks).
    { apply (f_equal length) in Hn. by rewrite !length_map in Hn. }
    split.
    + intros p i Hi. apply skipped_indices_elem in Hi.
      assert (Hin : i < n).
      { assert (i ∈ seq 0 n) as Hs by (rewrite <- Hp; set_solver).
        apply elem_of_seq in Hs. lia. }
      assert (Hpos : 0 < length (skipped_indices out)).
      { destruct (skipped_indices out); [by apply not_elem_of_nil in Hi | simpl; lia]. }
      cbn [frames make_manifest]. repeat split; [lia | lia |].
      intros f Hf Hname.
      assert (i ∈ ks) as Hk.
      { assert (file_path f ∈ map file_path frames_) as Hm by (by apply list_elem_of_fmap_2).
        rewrite Hn, Hname in Hm. apply list_elem_of_fmap in Hm as (j & Hj & Hjk).
        by rewrite (frame_name_inj _ _ Hj). }
      assert (NoDup (ks ++ skipped_indices out)) as Hnd by (rewrite Hp; apply NoDup_seq).
      apply NoDup_app in Hnd as (_ & Hdisj & _). by apply (Hdisj i).
    + intros i Hi.
      assert (i ∈ ks ++ skipped_indices out) as [Hk|Hs]%elem_of_app.
      { rewrite Hp. apply elem_of_seq. lia. }
      * right. assert (frame_name i ∈ map file_path frames_) as Hf.
        { rewrite Hn. by apply list_elem_of_fmap_2. }
        apply list_elem_of_fmap in Hf as (f & Hf & Hin). exists f. by split.
      * left. by apply skipped_indices_inv.
Qed.

Lemma missing_color_frame_is_skipped_witness :
  exists manifest,
    last (calls (create_dataset_from_files MemFS.platform (PurePath.of_str "out") false
                   Capture.config
                   (World [("raw/c1.npy", MemFS.Arr Capture.pixel)] [] [] [])).2)
      = Some (CallWriteText "out/transforms.json" manifest) /\
    (length (frames manifest) < 3)%nat /\
    (forall f, f ∈ frames manifest -> file_path f <> "rgb/0.png") /\
    exists f, f ∈ frames manifest /\ file_path f = "rgb/1.png".
Proof.
  set (w0 := World (F := FS MemFS.platform)
               [("raw/c1.npy", MemFS.Arr Capture.pixel)] [] [] []).
  assert (Hrun : create_dataset_from_files MemFS.platform (PurePath.of_str "out") false
                   Capture.config w0
                 = (Return tt,
                    (create_dataset_from_files MemFS.platform (PurePath.of_str "out") false
                       Capture.config w0).2)) by (vm_compute; reflexivity).
  destruct (missing_color_frame_is_skipped _ _ _ _ _ _ Hrun)
    as (_ & manifest & out & Hlast & Hout & Hskip & Hkept).
  exists manifest. split; [exact Hlast|].
  assert (Hout' : out = stdout (create_dataset_from_files MemFS.platform
                                  (PurePath.of_str "out") false Capture.config w0).2).
  { symmetry. exact Hout. }
  assert (Hin : MsgSkip "raw/c0.npy" 0 ∈ out).
  { rewrite Hout'. vm_compute.
    repeat first [apply list_elem_of_here | apply list_elem_of_further]. }
  destruct (Hskip _ _ Hin) as (_ & Hlen & Hno).
  split; [simpl in Hlen; lia|]. split; [exact Hno|].
  destruct (Hkept 1) as [[p Hp]|Hf]; [simpl; lia| |exact Hf].
  exfalso. rewrite Hout' in Hp. vm_compute in Hp.
  repeat (apply elem_of_cons in Hp as [Hp|Hp]; [discriminate Hp|]).
  by apply not_elem_of_nil in Hp.
Defined.

(** C7. The depth path of a record is the capture folder, "/", and the
    record's [depth_path] when it has one, otherwise its [file_path] with
    every "rgb" replaced by "depth", scanning the whole string from the
    left; e.g. "data/rgb_5.png" gives "data/depth_5.png".  No file system
    is consulted. *)
Theorem reader_depth_path (glob : string -> list string) (self : NeRFCaptureDataset) :
  Forall (fun f => is_4x4 (transform_matrix f) = true) (frames_metadata self) ->
  exists self' cp dp ep,
    get_filepaths glob self = Return (self', (cp, dp, ep)) /\
    length dp = length (frames_metadata self) /\
    (forall i f, frames_metadata self !! i = Some f ->
       dp !! i = Some (match depth_path f with
                       | Some d => input_folder self +:+ "/" +:+ d
                       | None => input_folder self +:+ "/" +:+
                                 Str.replace (file_path f) "rgb" "depth"
                       end)) /\
    Str.replace "data/rgb_5.png" "rgb" "depth" = "data/depth_5.png" /\
    (forall a s, lacks "r" a = true ->
       Str.replace (a +:+ "rgb" +:+ s) "rgb" "depth" =
       a +:+ "depth" +:+ Str.replace s "rgb" "depth").
Proof.
  intros H4. destruct (get_filepaths_total glob self H4) as (self' & cp & dp & ep & Hg).
  exists self', cp, dp, ep. split; [done|].
  destruct (get_filepaths_inv _ _ _ _ _ _ Hg) as (poses & _ & _ & _ & _ & ->).
  repeat split.
  - by rewrite length_map.
  - intros i f Hi. rewrite list_lookup_fmap, Hi. simpl. unfold depth_path_of.
    by destruct (depth_path f).
  - intros a s Ha. by rewrite replace_lacks, replace_occurrence.
Qed.

Lemma reader_depth_path_witness :
  exists self self' cp dp ep,
    Capture.reader Capture.unordered = Return self /\
    get_filepaths (fun _ => []) self = Return (self', (cp, dp, ep)) /\
    dp !! 1 = Some "data/scene/depth/2.png".
Proof.
  destruct (Capture.reader Capture.unordered) as [self| |] eqn:Hself; try discriminate Hself.
  assert (Hf : frames_metadata self = frames Capture.unordered /\
               input_folder self = "data/scene").
  { vm_compute in Hself. inversion Hself; subst. split; reflexivity. }
  destruct Hf as [Hf Hi].
  assert (H4 : Forall (fun f => is_4x4 (transform_matrix f) = true) (frames_metadata self)).
  { rewrite Hf. repeat constructor. }
  destruct (reader_depth_path (fun _ => []) self H4) as (self' & cp & dp & ep & Hg & _ & Hd & _ & _).
  exists self, self', cp, dp, ep. repeat split; try done.
  rewrite (Hd 1 (Capture.frame "rgb/2.png" 2)); [|by rewrite Hf].
  rewrite Hi. reflexivity.
Defined.

(** C8. On a 4x4 array, [M |-> P @ M @ P.T] applied twice gives back [M],
    entry by entry, in exact arithmetic. *)
Theorem pose_conversion_involutive (M : matrix) :
  is_4x4 M = true ->
  exists M1 M2,
    convert_pose M = Return M1 /\ convert_pose M1 = Return M2 /\ mat_eq M2 M.
Proof.
  intros H. four_by_four M H.
  eexists. eexists. split; [reflexivity|]. split; [reflexivity|].
  repeat (constructor; [repeat (constructor; [cbv -[Qplus Qmult Qopp Qeq]; ring|]); constructor|]).
  constructor.
Qed.

Lemma pose_conversion_involutive_witness :
  exists M1 M2,
    convert_pose (transform_matrix (Capture.frame "rgb/2.png" 2)) = Return M1 /\
    convert_pose M1 = Return M2 /\
    mat_eq M2 (transform_matrix (Capture.frame "rgb/2.png" 2)).
Proof.
  apply (pose_conversion_involutive (transform_matrix (Capture.frame "rgb/2.png" 2))).
  reflexivity.
Defined.

(** C9. When the destination exists and consent is absent (the overwrite
    flag is off, or the reply at the prompt does not confirm), the run ends
    with [sys.exit(1)], a non-zero status, having made no call that creates,
    deletes or modifies a file: the file system is the one it started with.
    And whatever the run, [shutil.rmtree] is only ever called when the
    destination exists, the flag is on and the reply confirms. *)
Theorem overwrite_without_consent_aborts (pf : Platform) save_path overwrite data_config
    (w : world (FS pf)) :
  let r := create_dataset_from_files pf save_path overwrite data_config w in
  (path_exists pf (fs w) (PurePath.to_str save_path) = true ->
   (overwrite = false \/
    exists reply rest, stdin w = reply :: rest /\ ~ spec_confirms reply) ->
   r.1 = SysExit 1 /\ exit_status r.1 <> 0%Z /\ fs r.2 = fs w /\ calls r.2 = calls w) /\
  (forall cs p, calls r.2 = calls w ++ cs -> CallRmtree p ∈ cs ->
     path_exists pf (fs w) (PurePath.to_str save_path) = true /\ overwrite = true /\
     exists reply rest, stdin w = reply :: rest /\ spec_confirms reply).
Proof.
  intros r.
  assert (Hpart1 :
    path_exists pf (fs w) (PurePath.to_str save_path) = true ->
    (overwrite = false \/
     exists reply rest, stdin w = reply :: rest /\ ~ spec_confirms reply) ->
    r.1 = SysExit 1 /\ exit_status r.1 <> 0%Z /\ fs r.2 = fs w /\ calls r.2 = calls w).
  { intros Hex Hno. subst r. rewrite create_dataset_run.
    destruct overwrite.
    - destruct Hno as [|(reply & rest & Hin & Hdecl)]; [done|].
      rewrite (overwrite_guard_reply _ _ _ _ _ Hex Hin).
      destruct (reply_declines reply) eqn:Hd; [by simpl|].
      by apply reply_declines_spec in Hd.
    - rewrite (overwrite_guard_refused _ _ _ Hex). by simpl. }
  split; [exact Hpart1|].
  intros cs p Hcs Hp.
  assert (Hnil : calls r.2 = calls w -> False).
  { intros Heq. rewrite Heq in Hcs. rewrite <- (app_nil_r (calls w)) in Hcs at 1.
    apply app_inv_head in Hcs. subst cs. by apply not_elem_of_nil in Hp. }
  destruct (path_exists pf (fs w) (PurePath.to_str save_path)) eqn:Hex.
  - destruct overwrite.
    + destruct (stdin w) as [|reply rest] eqn:Hin.
      * exfalso. apply Hnil. subst r. rewrite create_dataset_run.
        by rewrite (overwrite_guard_eof _ _ _ Hex Hin).
      * destruct (reply_declines reply) eqn:Hd.
        -- exfalso. apply Hnil. subst r. rewrite create_dataset_run.
           by rewrite (overwrite_guard_reply _ _ _ _ _ Hex Hin), Hd.
        -- apply reply_declines_spec in Hd. eauto 6.
    + exfalso. apply Hnil. by apply Hpart1; [|left].
  - exfalso. subst r. rewrite create_dataset_run in Hcs.
    rewrite (overwrite_guard_absent _ _ _ _ Hex) in Hcs.
    destruct (emits_build_dataset pf save_path data_config w) as (cs' & ms & Hc & _ & Hall & _).
    rewrite Hc in Hcs. apply app_inv_head in Hcs. subst cs'.
    by apply (not_rmtree_elem p cs).
Qed.

Lemma overwrite_without_consent_aborts_witness :
  (Capture.run false []).1 = SysExit 1 /\
  fs (Capture.run false []).2 = Capture.files /\
  (Capture.run true ["no"]).1 = SysExit 1 /\
  fs (Capture.run true ["no"]).2 = Capture.files.
Proof.
  pose proof (overwrite_without_consent_aborts MemFS.platform (PurePath.of_str "out") false
                Capture.config (Capture.start [])) as [H1 _].
  pose proof (overwrite_without_consent_aborts MemFS.platform (PurePath.of_str "out") true
                Capture.config (Capture.start ["no"])) as [H2 _].
  destruct (H1 eq_refl (or_introl eq_refl)) as (Ha & _ & Hb & _).
  destruct H2 as (Hc & _ & Hd & _); [reflexivity | |].
  - right. exists "no", []. split; [reflexivity|].
    intros [H|[rest H]]; vm_compute in H; discriminate H.
  - repeat split; assumption.
Defined.

(** C10. At the prompt (destination present, overwrite flag on, a reply
    read), the reply confirms exactly when, lowercased and stripped, it is
    empty or starts with "y": then the tree is removed and the run goes on
    from there; any other reply ends the run with [sys.exit(1)] and no call
    made.  The empty reply confirms. *)
Theorem prompt_reply_decides (pf : Platform) save_path data_config (w : world (FS pf))
    reply rest :
  path_exists pf (fs w) (PurePath.to_str save_path) = true ->
  stdin w = reply :: rest ->
  let r := create_dataset_from_files pf save_path true data_config w in
  (spec_confirms reply ->
   r = (shutil_rmtree pf save_path ≫= fun _ => build_dataset pf save_path data_config)
         (prompted pf w save_path rest)) /\
  (~ spec_confirms reply -> r = (SysExit 1, prompted pf w save_path rest)) /\
  (spec_confirms reply <->
   exists cs, calls r.2 = calls w ++ CallRmtree (PurePath.to_str save_path) :: cs) /\
  spec_confirms "".
Proof.
  intros Hex Hin r.
  assert (Hyes : spec_confirms reply ->
    r = (shutil_rmtree pf save_path ≫= fun _ => build_dataset pf save_path data_config)
          (prompted pf w save_path rest)).
  { intros Hc. apply reply_declines_spec in Hc. subst r.
    rewrite create_dataset_run, (overwrite_guard_reply _ _ _ _ _ Hex Hin), Hc.
    by rewrite bind_run. }
  assert (Hno : ~ spec_confirms reply -> r = (SysExit 1, prompted pf w save_path rest)).
  { intros Hc. subst r.
    rewrite create_dataset_run, (overwrite_guard_reply _ _ _ _ _ Hex Hin).
    destruct (reply_declines reply) eqn:Hd; [done|].
    by apply reply_declines_spec in Hd. }
  repeat split; try done.
  - intros Hc. rewrite (Hyes Hc).
    rewrite bind_run. unfold shutil_rmtree, mutate. simpl.
    destruct (rmtree pf (PurePath.to_str save_path) (fs w)) as [[[]| |] f1]; simpl.
    + destruct (emits_build_dataset pf save_path data_config
                  (World f1 rest (stdout w ++ [MsgPrompt (PurePath.to_str save_path)])
                         (calls w ++ [CallRmtree (PurePath.to_str save_path)])))
        as (cs' & ms' & Hc' & _).
      exists cs'. rewrite Hc'. simpl. by rewrite <- app_assoc.
    + by exists [].
    + by exists [].
  - intros [cs Hcs]. destruct (reply_declines reply) eqn:Hd.
    + exfalso. assert (~ spec_confirms reply) as Hn.
      { intros Hc. apply reply_declines_spec in Hc. congruence. }
      rewrite (Hno Hn) in Hcs. simpl in Hcs.
      rewrite <- (app_nil_r (calls w)) in Hcs at 1. by apply app_inv_head in Hcs.
    + by apply reply_declines_spec.
  - by left.
Qed.

Lemma prompt_reply_decides_witness :
  spec_confirms "" /\
  exists cs, calls (Capture.run true [""]).2 = CallRmtree "out" :: cs.
Proof.
  destruct (prompt_reply_decides MemFS.platform (PurePath.of_str "out") Capture.config
              (Capture.start [""]) "" [] eq_refl eq_refl) as (_ & _ & Hiff & Hempty).
  split; [exact Hempty|]. exact (proj1 Hiff Hempty).
Defined.

(** * Further properties of the Reader *)

(** ** Which manifests [get_filepaths] accepts *)






Lemma map_outcome_fails {A B} (f : A -> outcome B) (E : exn -> Prop) l :
  Forall (fun x => match f x with
                   | Return _ => True
                   | Raise e => E e
                   | SysExit _ => False
                   end) l ->
  match map_outcome f l with
  | Return _ => Forall (fun x => is_return (f x) = true) l
  | Raise e => E e /\ ~ Forall (fun x => is_return (f x) = true) l
  | SysExit _ => False
  end.
Proof.
  induction 1 as [|x l Hx _ IH]; simpl; [done|].
  destruct (f x) as [y|e|c] eqn:Hf; simpl; try done.
  - destruct (map_outcome f l) as [ys|e|c]; simpl; try done.
    + constructor; [by rewrite Hf | done].
    + destruct IH as [He Hn]. split; [done|]. intros Hall. apply Hn. by inversion Hall.
  - split; [done|]. intros Hall. inversion Hall as [|? ? Hbad _]; subst.
    by rewrite Hf in Hbad.
Qed.




(** X2. Calling [get_filepaths] again on the object it returned gives the
    same paths and leaves the same poses: [self.tmp_poses] is rebuilt, not
    appended to. *)
Theorem get_filepaths_again (glob : string -> list string) self self' r :
  get_filepaths glob self = Return (self', r) ->
  get_filepaths glob self' = Return (self', r) /\
  exists poses, load_poses self' = Return poses /\
                length poses = length (frames_metadata self).
Proof.
  destruct r as [[cp dp] ep]. intros H.
  destruct (get_filepaths_inv _ _ _ _ _ _ H) as (poses & Hp & -> & Hl & -> & ->).
  rewrite get_filepaths_eq in *. simpl. rewrite Hp in *. simpl in *.
  inversion H as [He]. rewrite !He. repeat split; try done.
  exists poses. split; [done|]. by eapply map_outcome_length.
Qed.

Lemma get_filepaths_again_witness :
  exists self self' r,
    Capture.reader Capture.unordered = Return self /\
    get_filepaths (fun _ => []) self = Return (self', r) /\
    get_filepaths (fun _ => []) self' = Return (self', r).
Proof.
  destruct (Capture.reader Capture.unordered) as [self| |] eqn:Hself; try discriminate Hself.
  destruct (get_filepaths (fun _ => []) self) as [[self' r]| |] eqn:Hg;
    [|exfalso; vm_compute in Hself; inversion Hself; subst; vm_compute in Hg; discriminate Hg..].
  exists self, self', r. repeat split; try done.
  exact (proj1 (get_filepaths_again _ _ _ _ Hg)).
Defined.

(** ** Which manifests [__init__] accepts *)

Lemma parse_outcome s :
  match Str.int s with
  | Return _ => True
  | Raise e => e = ValueError
  | SysExit _ => False
  end.
Proof.
  unfold Str.int.
  by destruct (match Str.strip s with
               | String "-" ds => Z.opp <$> Str.parse_digits 0 false ds
               | String "+" ds => Str.parse_digits 0 false ds
               | _ => Str.parse_digits 0 false (Str.strip s)
               end).
Qed.

Lemma natsorted_int_outcome (names : list string) :
  match natsorted_int stem_key names with
  | Return _ => forallb (fun x => is_return (stem_key x)) names = true
  | Raise e => e = ValueError /\ forallb (fun x => is_return (stem_key x)) names = false
  | SysExit _ => False
  end.
Proof.
  unfold natsorted_int.
  pose proof (map_outcome_fails (fun x => obind (stem_key x) (fun k => Return (k, x)))
                (fun e => e = ValueError) names) as H.
  assert (Hall : Forall (fun x => match obind (stem_key x) (fun k => Return (k, x)) with
                                  | Return _ => True
                                  | Raise e => e = ValueError
                                  | SysExit _ => False
                                  end) names).
  { apply Forall_forall. intros x _. unfold stem_key.
    pose proof (parse_outcome (PurePath.stem (PurePath.of_str x))) as Hx.
    by destruct (Str.int _). }
  specialize (H Hall).
  assert (Heq : forall x, is_return (obind (stem_key x) (fun k => Return (k, x)))
                          = is_return (stem_key x)).
  { intros x. by destruct (stem_key x). }
  destruct (map_outcome _ names) as [keyed|e|c]; simpl; try done.
  - apply forallb_forall. intros x Hx. rewrite Forall_forall in H.
    rewrite <- Heq. apply H. by apply list_elem_of_In.
  - destruct H as [-> Hn]. split; [done|].
    destruct (forallb _ names) eqn:Hf; [|done]. exfalso. apply Hn.
    apply Forall_forall. intros x Hx. rewrite Heq. rewrite forallb_forall in Hf.
    apply Hf. by apply list_elem_of_In.
Qed.

(** X3. Given a manifest that parses, [__init__] returns exactly when every
    file stem reads as an integer and [integer_depth_scale], if present, is
    not zero.  A stem that does not read as an integer gives [ValueError],
    whatever the depth scale; with all stems good, a zero scale gives
    [ZeroDivisionError].  A manifest that fails to load fails [__init__]
    the same way. *)
Theorem init_outcome json_load basedir sequence emb dir :
  match json_load (os_path_join basedir sequence +:+ "/transforms.json") with
  | Return m =>
      match __init__ json_load basedir sequence emb dir with
      | Return self => loadable m = true /\ cams_metadata self = m
      | Raise e =>
          if stems_parse m then
            e = ZeroDivisionError /\
            exists ids, integer_depth_scale m = Some ids /\ (ids == 0)%Q
          else e = ValueError
      | SysExit _ => False
      end
  | failure =>
      exit_status (__init__ json_load basedir sequence emb dir) = exit_status failure /\
      is_return (__init__ json_load basedir sequence emb dir) = false
  end.
Proof.
  unfold __init__, load_cams_metadata. cbv zeta.
  destruct (json_load _) as [m|e|c]; simpl; [|done..].
  assert (Hs : forallb (fun x => is_return (stem_key x)) (map file_path (frames m))
               = stems_parse m).
  { unfold stems_parse. induction (frames m) as [|f l IH]; [done|].
    cbn [forallb map]. by rewrite IH. }
  pose proof (natsorted_int_outcome (map file_path (frames m))) as Hn.
  rewrite Hs in Hn. unfold loadable. fold (stems_parse m).
  destruct (natsorted_int stem_key _) as [names|e|c]; simpl; [|by destruct Hn as [-> ->]|done].
  rewrite Hn. destruct (integer_depth_scale m) as [ids|]; simpl; [|done].
  destruct (Qeq_bool ids 0) eqn:Hz; simpl; [|done].
  split; [done|]. exists ids. split; [done|]. by apply Qeq_bool_iff.
Qed.

(** ** The order of [image_names] *)

Lemma insert_by_key_filter {A} (k : Z) (x : Z * A) l :
  List.filter (fun e => (e.1 =? k)%Z) (insert_by_key x l) =
  List.filter (fun e => (e.1 =? k)%Z) (x :: l).
Proof.
  induction l as [|y l IH]; [done|]. cbn [insert_by_key].
  destruct (Z.leb_spec x.1 y.1) as [Hle|Hlt]; [done|].
  cbn [List.filter] in *. rewrite IH.
  destruct (Z.eqb_spec x.1 k), (Z.eqb_spec y.1 k); try done. lia.
Qed.

Lemma sort_by_key_filter {A} (k : Z) (l : list (Z * A)) :
  List.filter (fun e => (e.1 =? k)%Z) (sort_by_key l) =
  List.filter (fun e => (e.1 =? k)%Z) l.
Proof.
  induction l as [|x l IH]; [done|]. cbn [sort_by_key foldr].
  fold (sort_by_key l). rewrite insert_by_key_filter. cbn [List.filter]. by rewrite IH.
Qed.

Lemma keyed_filter {A} (key : A -> outcome Z) (k : Z) (keyed : list (Z * A)) :
  Forall (fun kx => key kx.2 = Return kx.1) keyed ->
  List.filter (keyed_by key k) (map snd keyed) =
  map snd (List.filter (fun e => (e.1 =? k)%Z) keyed).
Proof.
  induction 1 as [|[z x] l Hx _ IH]; [done|]. cbn [map List.filter fst snd] in *.
  unfold keyed_by at 1. rewrite Hx.
  destruct (z =? k)%Z; cbn [map]; by rewrite IH.
Qed.

Lemma natsorted_int_keyed {A} (key : A -> outcome Z) l l' :
  natsorted_int key l = Return l' ->
  exists keyed,
    Forall (fun kx => key kx.2 = Return kx.1) keyed /\
    map snd keyed = l /\ l' = map snd (sort_by_key keyed).
Proof.
  unfold natsorted_int. intros H.
  destruct (map_outcome _ l) as [keyed| |] eqn:Hk; try discriminate.
  simpl in H. inversion H; subst; clear H. exists keyed. split; [|split; [|done]].
  - clear -Hk. revert keyed Hk. induction l as [|x l IH]; intros keyed Hk; simpl in Hk.
    + by inversion Hk.
    + destruct (key x) as [k| |] eqn:Hx; try discriminate. simpl in Hk.
      destruct (map_outcome _ l) as [ys| |]; try discriminate. simpl in Hk.
      inversion Hk; subst. constructor; [done|]. by apply IH.
  - clear -Hk. revert keyed Hk. induction l as [|x l IH]; intros keyed Hk; simpl in Hk.
    + by inversion Hk.
    + destruct (key x) as [k| |] eqn:Hx; try discriminate. simpl in Hk.
      destruct (map_outcome _ l) as [ys| |]; try discriminate. simpl in Hk.
      inversion Hk; subst. simpl. f_equal. by apply IH.
Qed.

(** X4. [image_names] is the manifest's file paths rearranged in ascending
    order of their integer stems, and paths with equal stems keep the order
    they have in the manifest. *)
Theorem image_names_natural_order json_load basedir sequence emb dir self :
  __init__ json_load basedir sequence emb dir = Return self ->
  Permutation (image_names self) (map file_path (frames_metadata self)) /\
  (exists ks, Forall2 (fun x k => stem_key x = Return k) (image_names self) ks /\
              Sorted Z.le ks) /\
  forall k, List.filter (keyed_by stem_key k) (image_names self) =
            List.filter (keyed_by stem_key k) (map file_path (frames_metadata self)).
Proof.
  intros H. destruct (init_inv _ _ _ _ _ _ H) as (m & _ & _ & _ & -> & _ & Hs & _).
  destruct (natsorted_int_spec _ _ _ Hs) as [Hperm Hsorted].
  repeat split; try done.
  intros k. destruct (natsorted_int_keyed _ _ _ Hs) as (keyed & Hall & <- & ->).
  rewrite !keyed_filter; [by rewrite sort_by_key_filter|done|].
  by rewrite sort_by_key_perm.
Qed.

Lemma image_names_natural_order_witness :
  exists self,
    Capture.reader Capture.unordered = Return self /\
    Permutation (image_names self) (map file_path (frames_metadata self)).
Proof.
  destruct (Capture.reader Capture.unordered) as [self| |] eqn:Hself; try discriminate Hself.
  exists self. split; [done|].
  exact (proj1 (image_names_natural_order _ _ _ _ _ _ Hself)).
Defined.

(** ** The keys of the file-path index *)

Lemma create_filepath_index_mapping_dom (frames_ : list FrameRecord) :
  dom (create_filepath_index_mapping frames_) =
  (list_to_set (map file_path frames_) : gset string).
Proof.
  induction frames_ as [|f l IH] using rev_ind; [done|].
  rewrite create_filepath_index_mapping_snoc, dom_insert_L, IH, map_app.
  rewrite list_to_set_app_L. simpl. rewrite union_empty_r_L. apply (comm_L (∪)).
Qed.

Lemma size_list_to_set_le (l : list string) :
  size (list_to_set l : gset string) <= length l /\
  (size (list_to_set l : gset string) = length l -> NoDup l).
Proof.
  induction l as [|x l [IH1 IH2]]; [split; [done|constructor]|]. simpl.
  destruct (decide (x ∈ l)) as [Hin|Hout].
  - assert ({[x]} ∪ list_to_set l = (list_to_set l : gset string)) as ->.
    { apply subseteq_union_1_L, singleton_subseteq_l. by apply elem_of_list_to_set. }
    split; [lia|]. intros. lia.
  - rewrite size_union, size_singleton.
    2: { apply disjoint_singleton_l. by rewrite elem_of_list_to_set. }
    split; [lia|]. intros Hs. constructor; [done|]. apply IH2. lia.
Qed.

(** X5. The index has one key per distinct [file_path] and no other key.
    It has as many entries as the manifest has records exactly when the
    paths are pairwise distinct; otherwise it has fewer, the earlier records
    of a repeated path being shadowed. *)
Theorem filepath_index_keys (frames_ : list FrameRecord) :
  (forall p, is_Some (create_filepath_index_mapping frames_ !! p) <->
             p ∈ map file_path frames_) /\
  size (create_filepath_index_mapping frames_) <= length frames_ /\
  (size (create_filepath_index_mapping frames_) = length frames_ <->
   NoDup (map file_path frames_)).
Proof.
  pose proof (create_filepath_index_mapping_dom frames_) as Hdom.
  assert (Hsize : size (create_filepath_index_mapping frames_) =
                  size (list_to_set (map file_path frames_) : gset string)).
  { by rewrite <- Hdom, size_dom. }
  destruct (size_list_to_set_le (map file_path frames_)) as [Hle Hnd].
  rewrite length_map in Hle, Hnd.
  repeat split.
  - intros Hp. apply elem_of_dom in Hp. rewrite Hdom in Hp. by apply elem_of_list_to_set in Hp.
  - intros Hp. apply elem_of_dom. rewrite Hdom. by apply elem_of_list_to_set.
  - by rewrite Hsize.
  - rewrite Hsize. exact Hnd.
  - intros H. rewrite Hsize, size_list_to_set by done. by rewrite length_map.
Qed.

(** * Further properties: the Writer's names under the Reader's sort key *)

Lemma string_app_cons (x : ascii) (a b : string) : String x a +:+ b = String x (a +:+ b).
Proof. reflexivity. Qed.

Lemma string_app_assoc (a b c : string) : (a +:+ b) +:+ c = a +:+ (b +:+ c).
Proof. induction a as [|x a IH]; [done|]. by rewrite !string_app_cons, IH. Qed.

Lemma string_app_nil_r (a : string) : a +:+ "" = a.
Proof. induction a as [|x a IH]; [done|]. by rewrite string_app_cons, IH. Qed.

Lemma rev_app_spec (s t : string) : String.rev_app s t = String.rev s +:+ t.
Proof.
  unfold String.rev. revert t. induction s as [|a s IH]; intros t; simpl; [done|].
  rewrite (IH (String a t)), (IH (String a "")), string_app_assoc. done.
Qed.

Lemma rev_cons (a : ascii) (s : string) :
  String.rev (String a s) = String.rev s +:+ String a "".
Proof. unfold String.rev at 1. simpl. apply rev_app_spec. Qed.

Lemma rev_app (s t : string) : String.rev (s +:+ t) = String.rev t +:+ String.rev s.
Proof.
  induction s as [|a s IH].
  - change (String.rev "") with "". by rewrite string_app_nil_r.
  - by rewrite string_app_cons, !rev_cons, IH, string_app_assoc.
Qed.

Lemma rev_involutive (s : string) : String.rev (String.rev s) = s.
Proof.
  induction s as [|a s IH]; [done|]. by rewrite rev_cons, rev_app, IH.
Qed.

Lemma all_chars_app ok s t : all_chars ok (s +:+ t) = all_chars ok s && all_chars ok t.
Proof.
  induction s as [|a s IH]; [done|]. rewrite string_app_cons. simpl.
  by rewrite IH, andb_assoc.
Qed.

Lemma all_chars_rev ok s : all_chars ok (String.rev s) = all_chars ok s.
Proof.
  induction s as [|a s IH]; [done|].
  rewrite rev_cons, all_chars_app, IH. simpl. rewrite andb_true_r. apply andb_comm.
Qed.

Lemma all_chars_impl (ok ok' : ascii -> bool) s :
  (forall c, ok c = true -> ok' c = true) -> all_chars ok s = true -> all_chars ok' s = true.
Proof.
  intros H. induction s as [|a s IH]; simpl; [done|].
  intros [Ha Hs]%andb_prop. by rewrite (H a Ha), IH.
Qed.

Lemma lstrip_no_space s :
  all_chars (fun c => negb (Str.is_space c)) s = true -> Str.lstrip s = s.
Proof.
  destruct s as [|a s]; simpl; [done|]. intros [Ha _]%andb_prop.
  apply negb_true_iff in Ha. by rewrite Ha.
Qed.

Lemma strip_no_space s :
  all_chars (fun c => negb (Str.is_space c)) s = true -> Str.strip s = s.
Proof.
  intros H. unfold Str.strip, Str.rstrip. rewrite (lstrip_no_space s H).
  rewrite lstrip_no_space by (by rewrite all_chars_rev). apply rev_involutive.
Qed.

(** *** Decimal numerals *)

Lemma pretty_N_char_digit (x : N) :
  (x < 10)%N -> Str.digit_of (pretty_N_char x) = Some (Z.of_N x).
Proof.
  intros H. unfold pretty_N_char.
  assert (x = 0 \/ x = 1 \/ x = 2 \/ x = 3 \/ x = 4 \/ x = 5 \/ x = 6 \/ x = 7 \/
          x = 8 \/ x = 9)%N as Hx by lia.
  by repeat (destruct Hx as [->|Hx]; [done|]); subst.
Qed.

Lemma pretty_N_char_is_digit (x : N) : is_digit (pretty_N_char x) = true.
Proof. unfold pretty_N_char. by repeat case_match. Qed.

Lemma pretty_N_go_digits (x : N) (s : string) :
  all_chars is_digit s = true -> all_chars is_digit (pretty_N_go x s) = true.
Proof.
  revert s. induction (N.lt_wf_0 x) as [x _ IH]; intros s Hs.
  destruct (decide (x = 0)%N) as [->|Hx]; [by rewrite pretty_N_go_0|].
  rewrite pretty_N_go_step by lia. apply IH; [apply N.div_lt; lia|].
  simpl. by rewrite pretty_N_char_is_digit.
Qed.

Lemma pretty_nat_digits (i : nat) : all_chars is_digit (pretty i) = true.
Proof.
  unfold pretty, pretty_nat, pretty, pretty_N.
  destruct (decide _); [done|]. by apply pretty_N_go_digits.
Qed.

Lemma pretty_N_go_nonempty (x : N) (s : string) :
  (0 < x)%N -> exists a t, pretty_N_go x s = String a t.
Proof.
  revert s. induction (N.lt_wf_0 x) as [x _ IH]; intros s Hx.
  rewrite pretty_N_go_step by done.
  destruct (decide (x `div` 10 = 0)%N) as [->|Hd].
  - rewrite pretty_N_go_0. eauto.
  - apply IH; [apply N.div_lt; lia | by apply N.neq_0_lt_0].
Qed.

Lemma pretty_nat_nonempty (i : nat) : exists a t, pretty i = String a t.
Proof.
  unfold pretty, pretty_nat, pretty, pretty_N.
  destruct (decide _); [by eauto|]. apply pretty_N_go_nonempty. lia.
Qed.

Lemma parse_digits_digit_char acc b a s :
  is_digit a = true ->
  exists d, Str.digit_of a = Some d /\
            Str.parse_digits acc b (String a s) = Str.parse_digits (10 * acc + d)%Z true s.
Proof.
  unfold is_digit. destruct (Str.digit_of a) as [d|] eqn:Hd; [|done]. intros _.
  exists d. split; [done|]. simpl.
  destruct (Ascii.eqb_spec a "_") as [->|_]; [by vm_compute in Hd|]. by rewrite Hd.
Qed.

Lemma parse_digits_pretty_go (x : N) (b : bool) (s : string) :
  (0 < x)%N ->
  Str.parse_digits 0 b (pretty_N_go x s) = Str.parse_digits (Z.of_N x) true s.
Proof.
  revert b s. induction (N.lt_wf_0 x) as [x _ IH]; intros b s Hx.
  rewrite pretty_N_go_step by done.
  pose proof (N.mod_lt x 10 ltac:(lia)) as Hm.
  pose proof (N.div_mod x 10 ltac:(lia)) as Hdm.
  destruct (decide (x `div` 10 = 0)%N) as [Hd|Hd].
  - rewrite Hd, pretty_N_go_0. simpl.
    destruct (Ascii.eqb_spec (pretty_N_char (x `mod` 10)) "_") as [E|_].
    { pose proof (pretty_N_char_is_digit (x `mod` 10)) as Hdig. rewrite E in Hdig.
      by vm_compute in Hdig. }
    rewrite pretty_N_char_digit by done. f_equal. lia.
  - rewrite IH; [|apply N.div_lt; lia|by apply N.neq_0_lt_0]. simpl.
    destruct (Ascii.eqb_spec (pretty_N_char (x `mod` 10)) "_") as [E|_].
    { pose proof (pretty_N_char_is_digit (x `mod` 10)) as Hdig. rewrite E in Hdig.
      by vm_compute in Hdig. }
    rewrite pretty_N_char_digit by done. f_equal. lia.
Qed.

Lemma parse_digits_pretty (i : nat) :
  Str.parse_digits 0 false (pretty i) = Some (Z.of_nat i).
Proof.
  unfold pretty, pretty_nat, pretty, pretty_N.
  destruct (decide (N.of_nat i = 0)%N) as [E|E].
  - assert (i = 0) as -> by lia. done.
  - rewrite parse_digits_pretty_go by lia. simpl. f_equal. lia.
Qed.

Lemma digit_not_space c : is_digit c = true -> negb (Str.is_space c) = true.
Proof.
  unfold is_digit, Str.digit_of, Str.is_space.
  destruct (48 <=? nat_of_ascii c) eqn:H1; simpl; [|done].
  destruct (nat_of_ascii c <=? 57) eqn:H2; simpl; [|done]. intros _.
  apply Nat.leb_le in H1, H2. apply negb_true_iff, orb_false_iff.
  split; apply andb_false_iff.
  - right. apply Nat.leb_gt. lia.
  - right. apply Nat.leb_gt. lia.
Qed.

(** [int(str(i)) == i] *)
Lemma int_pretty (i : nat) : Str.int (pretty i) = Return (Z.of_nat i).
Proof.
  unfold Str.int. rewrite strip_no_space.
  2: { eapply all_chars_impl; [apply digit_not_space | apply pretty_nat_digits]. }
  destruct (pretty_nat_nonempty i) as (a & t & Hp).
  pose proof (parse_digits_pretty i) as Hparse.
  pose proof (pretty_nat_digits i) as Hdig. rewrite Hp in *.
  simpl in Hdig. apply andb_prop in Hdig as [Ha _].
  assert (a <> "-"%char /\ a <> "+"%char) as [Hm Hpl].
  { split; intros ->; by vm_compute in Ha. }
  destruct a as [[] [] [] [] [] [] [] []]; try done; by rewrite Hparse.
Qed.

(** *** The stem of a frame name *)

Lemma lacks_all_chars c s : lacks c s = all_chars (fun a => negb (Ascii.eqb a c)) s.
Proof. induction s as [|a s IH]; simpl; [done|]. by rewrite IH. Qed.

Lemma digits_lack c s : is_digit c = false -> all_chars is_digit s = true -> lacks c s = true.
Proof.
  intros Hc Hs. rewrite lacks_all_chars. eapply all_chars_impl; [|exact Hs].
  intros a Ha. apply negb_true_iff, Ascii.eqb_neq. intros ->. congruence.
Qed.

Lemma split_lacks sep s : lacks sep s = true -> Str.split sep s = [s].
Proof.
  induction s as [|a s IH]; simpl; [done|].
  intros [Ha Hs]%andb_prop. apply negb_true_iff in Ha. by rewrite Ha, IH.
Qed.

Lemma rfind_lacks c s : lacks c s = true -> Str.rfind c s = None.
Proof.
  induction s as [|a s IH]; simpl; [done|].
  intros [Ha Hs]%andb_prop. apply negb_true_iff in Ha. by rewrite IH, Ha.
Qed.

Lemma rfind_last c d e :
  lacks c e = true -> Str.rfind c (d +:+ String c e) = Some (String.length d).
Proof.
  intros He. induction d as [|a d IH].
  - simpl. by rewrite (rfind_lacks c e He), Ascii.eqb_refl.
  - rewrite string_app_cons. simpl. by rewrite IH.
Qed.

Lemma take_app d e : Str.take (String.length d) (d +:+ e) = d.
Proof.
  induction d as [|a d IH]; [by destruct e|]. rewrite string_app_cons. simpl. by rewrite IH.
Qed.

Lemma frame_name_stem (i : nat) :
  PurePath.stem (PurePath.of_str (frame_name i)) = pretty i.
Proof.
  assert (Hslash : lacks "/" (pretty i +:+ ".png") = true).
  { rewrite lacks_app, (digits_lack "/" (pretty i)); [done|done|apply pretty_nat_digits]. }
  destruct (pretty_nat_nonempty i) as (a & t & Hp).
  assert (Ha : is_digit a = true).
  { pose proof (pretty_nat_digits i) as H. rewrite Hp in H. simpl in H.
    by apply andb_prop in H as [H _]. }
  assert (Hname : PurePath.name (PurePath.of_str (frame_name i)) = pretty i +:+ ".png").
  { unfold PurePath.name, PurePath.of_str, frame_name. cbn [PurePath.parts].
    change ("rgb/" +:+ pretty i +:+ ".png")
      with (String "r" (String "g" (String "b" (String "/" (pretty i +:+ ".png"))))).
    cbn [Str.split Ascii.eqb Bool.eqb]. rewrite (split_lacks _ _ Hslash).
    cbn [List.filter PurePath.keep_part String.eqb Ascii.eqb Bool.eqb negb andb].
    rewrite Hp, string_app_cons.
    cbn [PurePath.keep_part String.eqb negb andb].
    destruct (Ascii.eqb_spec a ".") as [->|_]; [by vm_compute in Ha|]. done. }
  unfold PurePath.stem, PurePath.splits_suffix. rewrite Hname.
  rewrite (rfind_last "." (pretty i) "png" eq_refl).
  rewrite string_length_app. simpl String.length.
  assert (0 < String.length (pretty i)) as Hlen by (rewrite Hp; simpl; lia).
  destruct (Nat.ltb_spec 0 (String.length (pretty i))); [|lia].
  destruct (Nat.ltb_spec (String.length (pretty i)) (String.length (pretty i) + 4 - 1)); [|lia].
  simpl. apply take_app.
Qed.

(** The Reader's sort key of the name of frame [i] is [i]. *)
Lemma frame_name_key (i : nat) : stem_key (frame_name i) = Return (Z.of_nat i).
Proof. unfold stem_key. rewrite frame_name_stem. apply int_pretty. Qed.

(** * Further properties of the Writer *)

(** X6. A run of the Writer that completes has written, last, a manifest
    whose records are those of the frames it kept, in strictly increasing
    order of frame index below [num_frames]: the record of frame [i] names
    "rgb/<i>.png", repeats the intrinsics of the configuration, has as its
    [transform_matrix] the pose file as loaded or the identity (the identity
    when no pose format is configured), and names a depth image only if one
    was stored; the images it names were written by this run under the
    destination. *)
Theorem manifest_holds_kept_frames (pf : Platform) save_path overwrite data_config
    (w w' : world (FS pf)) :
  create_dataset_from_files pf save_path overwrite data_config w = (Return tt, w') ->
  exists frames_ ks,
    last (calls w') = Some (CallWriteText (transforms_path save_path)
                                          (make_manifest data_config frames_)) /\
    StronglySorted lt ks /\
    Forall (fun i => (Z.of_nat i < num_frames data_config)%Z) ks /\
    Forall2 (fun f i =>
               written_record pf data_config (PurePath.joinpath save_path "rgb")
                 (PurePath.joinpath save_path "depth") w' i f /\
               file_path f = frame_name i /\
               frame_intrinsics f = Some (config_intrinsics data_config) /\
               (forall d, depth_path f = Some d -> d = "depth/" +:+ pretty i +:+ ".png") /\
               stored_as_loaded pf (transform_matrix f) /\
               (has_pose_format data_config = false -> transform_matrix f = eye 4))
            frames_ ks.
Proof.
  intros Hrun.
  apply create_dataset_records in Hrun as (frames_ & ks & out & pre & Hc & _ & Hrs & Hsub & _).
  exists frames_, ks. split; [by rewrite Hc, last_snoc|].
  apply sublist_seq_increasing in Hsub as [Hs Hb]. split; [done|]. split.
  - eapply Forall_impl; [exact Hb|]. simpl. lia.
  - eapply Forall2_impl; [exact Hrs|]. intros f i Hf. split; [done|].
    destruct Hf as (transform & depth & -> & Hl & Hid & _).
    cbn [transform_matrix file_path frame_intrinsics depth_path frame_data].
    split_and!; try done.
    intros d Hd. destruct depth; by simplify_eq.
Qed.

Lemma manifest_holds_kept_frames_witness :
  exists frames_ ks,
    last (calls (Capture.run true ["y"]).2)
      = Some (CallWriteText "out/transforms.json" (make_manifest Capture.config frames_)) /\
    Forall (fun i => i < 3) ks /\
    map file_path frames_ = map frame_name ks.
Proof.
  assert (Hrun : create_dataset_from_files MemFS.platform (PurePath.of_str "out") true
                   Capture.config (Capture.start ["y"])
                 = (Return tt, (Capture.run true ["y"]).2)) by (vm_compute; reflexivity).
  destruct (manifest_holds_kept_frames _ _ _ _ _ _ Hrun)
    as (frames_ & ks & Hlast & _ & Hb & Hrs).
  exists frames_, ks. split; [exact Hlast|]. split.
  - eapply Forall_impl; [exact Hb|]. simpl. lia.
  - clear -Hrs. induction Hrs as [|f i frames_ ks (_ & Hf & _) _ IH]; [done|].
    simpl. by rewrite Hf, IH.
Defined.

(** X7. In a run that completes, every frame index below [num_frames] is
    either reported as skipped or has its record in the manifest: the
    records and the skip reports add up to [num_frames], and when nothing is
    reported as skipped the manifest lists "rgb/0.png", "rgb/1.png", ... up
    to [num_frames - 1], in this order. *)
Theorem frames_kept_or_skipped (pf : Platform) save_path overwrite data_config
    (w w' : world (FS pf)) :
  create_dataset_from_files pf save_path overwrite data_config w = (Return tt, w') ->
  exists frames_ out,
    last (calls w') = Some (CallWriteText (transforms_path save_path)
                                          (make_manifest data_config frames_)) /\
    stdout w' = stdout w ++ out /\
    length frames_ + length (skipped_indices out) = Z.to_nat (num_frames data_config) /\
    (forall i, i < Z.to_nat (num_frames data_config) ->
       i ∈ skipped_indices out \/ exists f, f ∈ frames_ /\ file_path f = frame_name i) /\
    (skipped_indices out = [] ->
       map file_path frames_ = map frame_name (seq 0 (Z.to_nat (num_frames data_config)))).
Proof.
  intros Hrun.
  apply create_dataset_records in Hrun as (frames_ & ks & out & pre & Hc & Ho & Hrs & Hsub & Hp).
  exists frames_, out. split; [by rewrite Hc, last_snoc|]. split; [done|].
  pose proof (written_record_name _ _ _ _ _ _ _ Hrs) as Hn.
  assert (length frames_ = length ks) as Hlen by by eapply Forall2_length.
  split_and!.
  - apply Permutation_length in Hp. rewrite length_app, length_seq in Hp. lia.
  - intros i Hi.
    assert (i ∈ ks ++ skipped_indices out) as [Hk|Hs]%elem_of_app.
    { rewrite Hp. apply elem_of_seq. lia. }
    + right. assert (frame_name i ∈ map file_path frames_) as Hf.
      { rewrite Hn. by apply list_elem_of_fmap_2. }
      apply list_elem_of_fmap in Hf as (f & Hf & Hin). eauto.
    + by left.
  - intros Hnone. rewrite Hnone, app_nil_r in Hp.
    rewrite Hn. f_equal. apply sublist_same_length; [done|].
    apply Permutation_length in Hp. lia.
Qed.

Lemma frames_kept_or_skipped_witness :
  exists frames_ out,
    stdout (Capture.run true ["y"]).2 = out /\
    length frames_ + length (skipped_indices out) = 3 /\
    last (calls (Capture.run true ["y"]).2)
      = Some (CallWriteText "out/transforms.json" (make_manifest Capture.config frames_)).
Proof.
  assert (Hrun : create_dataset_from_files MemFS.platform (PurePath.of_str "out") true
                   Capture.config (Capture.start ["y"])
                 = (Return tt, (Capture.run true ["y"]).2)) by (vm_compute; reflexivity).
  destruct (frames_kept_or_skipped _ _ _ _ _ _ Hrun)
    as (frames_ & out & Hlast & Hout & Hlen & _).
  exists frames_, out. split; [exact Hout|]. split; [exact Hlen | exact Hlast].
Defined.

(** ** What the Writer writes *)

Section Targets.

Context (pf : Platform).
Variable data_config : DataConfig.
Variable save_path : PurePath.t.
Implicit Types w : world (FS pf).

Lemma emits_for_frames_in (Pc : fs_call -> Prop) (Pm : message -> Prop) {A S}
    (body : A -> S -> W pf S) l acc :
  (forall x s, x ∈ l -> emits pf Pc Pm (body x s)) ->
  emits pf Pc Pm (for_frames pf body l acc).
Proof.
  revert acc. induction l as [|x l IH]; intros acc Hb; simpl.
  - apply emits_ret.
  - apply emits_bind; [apply Hb; left | intros a; apply IH].
    intros y s Hy. apply Hb. by right.
Qed.

Lemma emits_process_frame_target data_dir_ n i frs :
  i < n ->
  emits pf (writer_target save_path n) (fun _ => True)
        (process_frame pf data_config (PurePath.joinpath save_path "rgb")
           (PurePath.joinpath save_path "depth") data_dir_ i frs).
Proof.
  intros Hi.
  unfold process_frame, load_rgb, save_rgb, store_depth, load_transform, arith, imwrite.
  emits_auto; apply emits_mutate; exists i; split; auto.
Qed.

Lemma emits_overwrite_guard_target n overwrite :
  emits pf (writer_target save_path n) (fun _ => True)
        (overwrite_guard pf save_path overwrite).
Proof. unfold overwrite_guard, shutil_rmtree. emits_auto. by apply emits_mutate. Qed.

Lemma emits_build_dataset_target :
  emits pf (writer_target save_path (Z.to_nat (num_frames data_config))) (fun _ => True)
        (build_dataset pf save_path data_config).
Proof.
  unfold build_dataset, path_mkdir.
  repeat (apply emits_bind; [|intros ?]);
    try (apply emits_print; exact I);
    try (apply emits_mutate; simpl; by auto).
  apply emits_for_frames_in. intros i s Hi%elem_of_seq.
  apply emits_process_frame_target. lia.
Qed.

End Targets.

(** X8. Whatever the run and however it ends, every call it makes that
    creates, deletes or writes something names the destination, its "rgb"
    or "depth" directory, "rgb/<i>.png" or "depth/<i>.png" under it for a
    frame index [i] below [num_frames], or its "transforms.json". *)
Theorem writes_stay_in_destination (pf : Platform) save_path overwrite data_config
    (w : world (FS pf)) :
  exists cs,
    calls (create_dataset_from_files pf save_path overwrite data_config w).2
      = calls w ++ cs /\
    Forall (writer_target save_path (Z.to_nat (num_frames data_config))) cs.
Proof.
  assert (emits pf (writer_target save_path (Z.to_nat (num_frames data_config)))
            (fun _ => True)
            (create_dataset_from_files pf save_path overwrite data_config)) as H.
  { unfold create_dataset_from_files. apply emits_bind.
    - apply emits_overwrite_guard_target.
    - intros _. apply emits_build_dataset_target. }
  destruct (H w) as (cs & ms & Hc & _ & Hcs & _). eauto.
Qed.

(** X9. Loading the pose of a frame never changes the file system, the
    call trace or the input, and the only exception it lets through is one
    from formatting the path.  With a pose format configured and the pose
    file present, the matrix is the file as loaded and nothing is logged;
    an exception of the loader is caught, exactly two lines are logged, the
    error and the fallback, and the identity is used.  Without a format or
    without the file the identity is used and nothing is logged. *)
Theorem pose_failure_falls_back (pf : Platform) data_config data_dir_ i (w : world (FS pf)) :
  let r := load_transform pf data_config data_dir_ i w in
  (calls r.2 = calls w /\ fs r.2 = fs w /\ stdin r.2 = stdin w) /\
  (forall e, r.1 = Raise e ->
     str_format pf (get (pose_format data_config) "") i = Raise e) /\
  (forall transform, r.1 = Return transform ->
     stored_as_loaded pf transform /\
     (has_pose_format data_config = false -> transform = eye 4)) /\
  (forall rel, str_format pf (get (pose_format data_config) "") i = Return rel ->
     let p := PurePath.joinpath data_dir_ rel in
     if has_pose_format data_config && path_exists pf (fs w) (PurePath.to_str p)
     then
       match (if is_npy p then np_load pf (fs w) (PurePath.to_str p)
              else np_loadtxt pf (fs w) (PurePath.to_str p)) with
       | Return a => r = (Return (tolist a), w)
       | Raise e =>
           r = (Return (eye 4),
                World (fs w) (stdin w)
                      (stdout w ++ [MsgPoseError (PurePath.to_str p) e; MsgIdentityFallback])
                      (calls w))
       | SysExit c => r = (SysExit c, w)
       end
     else r = (Return (eye 4), w)).
Proof.
  intros r. subst r.
  assert (stored_as_loaded pf (eye 4)) as Heye by by left.
  destruct (str_format pf (get (pose_format data_config) "") i) as [rel|e|c] eqn:Hfmt.
  - rewrite (load_transform_run pf data_config data_dir_ i w rel Hfmt).
    destruct (has_pose_format data_config) eqn:Hpose; cbn [andb].
    + destruct (path_exists pf (fs w) _) eqn:Hex.
      * destruct (is_npy (PurePath.joinpath data_dir_ rel)) eqn:Hnpy.
        -- destruct (np_load pf (fs w) _) as [a|e|c] eqn:Ha; cbn [fst snd fs stdin calls].
           ++ split_and!; try done.
              ** intros t [= <-]. split; [|done]. right. eauto 8.
              ** intros rel' [= <-]. cbv zeta. by rewrite Hex, Hnpy, Ha.
           ++ split_and!; try done.
              ** by intros t [= <-].
              ** intros rel' [= <-]. cbv zeta. by rewrite Hex, Hnpy, Ha.
           ++ split_and!; try done.
              intros rel' [= <-]. cbv zeta. by rewrite Hex, Hnpy, Ha.
        -- destruct (np_loadtxt pf (fs w) _) as [a|e|c] eqn:Ha; cbn [fst snd fs stdin calls].
           ++ split_and!; try done.
              ** intros t [= <-]. split; [|done]. right. eauto 8.
              ** intros rel' [= <-]. cbv zeta. by rewrite Hex, Hnpy, Ha.
           ++ split_and!; try done.
              ** by intros t [= <-].
              ** intros rel' [= <-]. cbv zeta. by rewrite Hex, Hnpy, Ha.
           ++ split_and!; try done.
              intros rel' [= <-]. cbv zeta. by rewrite Hex, Hnpy, Ha.
      * cbn [fst snd]. split_and!; try done.
        -- by intros t [= <-].
        -- intros rel' [= <-]. cbv zeta. by rewrite Hex.
    + cbn [fst snd]. split_and!; try done. by intros t [= <-].
  - unfold load_transform. rewrite bind_run. unfold lift at 1. rewrite Hfmt.
    cbn [fst snd]. split_and!; try done. by intros e' [= <-].
  - unfold load_transform. rewrite bind_run. unfold lift at 1. rewrite Hfmt.
    cbn [fst snd]. split_and!; done.
Qed.

Lemma pose_failure_falls_back_witness :
  load_transform MemFS.platform Capture.config (PurePath.of_str "raw") 0
    (World [("raw/p0.npy", MemFS.Dir)] [] [] [])
  = (Return (eye 4),
     World [("raw/p0.npy", MemFS.Dir)] [] [MsgPoseError "raw/p0.npy" OSError; MsgIdentityFallback]
           []).
Proof.
  destruct (pose_failure_falls_back MemFS.platform Capture.config (PurePath.of_str "raw") 0
              (World [("raw/p0.npy", MemFS.Dir)] [] [] [])) as (_ & _ & _ & H).
  exact (H "p0.npy" eq_refl).
Defined.

(** * The Reader on a manifest of the Writer *)

Lemma insert_by_key_front {A} (x : Z * A) l :
  HdRel key_le x l -> insert_by_key x l = x :: l.
Proof.
  destruct 1 as [|y l H]; [done|]. simpl. unfold key_le in H.
  by destruct (Z.leb_spec x.1 y.1); [|lia].
Qed.

Lemma sort_by_key_sorted_id {A} (l : list (Z * A)) :
  Sorted key_le l -> sort_by_key l = l.
Proof.
  induction 1 as [|x l Hs IH Hhd]; [done|].
  unfold sort_by_key in *. simpl. rewrite IH. by apply insert_by_key_front.
Qed.

Lemma natsorted_int_frame_names ks :
  StronglySorted lt ks ->
  natsorted_int stem_key (map frame_name ks) = Return (map frame_name ks).
Proof.
  intros Hs. unfold natsorted_int.
  assert (map_outcome (fun x => obind (stem_key x) (fun k => Return (k, x)))
            (map frame_name ks)
          = Return (map (fun i => (Z.of_nat i, frame_name i)) ks)) as ->.
  { clear Hs. induction ks as [|i ks IH]; [done|].
    cbn [map map_outcome]. rewrite frame_name_key, IH. done. }
  simpl. rewrite sort_by_key_sorted_id.
  - by rewrite map_map.
  - apply StronglySorted_Sorted.
    induction Hs as [|i ks Hs IH Hall]; [constructor|].
    cbn [map]. constructor; [done|].
    apply Forall_fmap. eapply Forall_impl; [exact Hall|].
    intros j Hj. unfold key_le. simpl. lia.
Qed.

Lemma frame_names_NoDup ks : StronglySorted lt ks -> NoDup (map frame_name ks).
Proof.
  intros Hs. apply NoDup_fmap_2.
  - intros i j H. by apply frame_name_inj.
  - induction Hs as [|i ks Hs IH Hall]; constructor; [|done].
    intros Hin. rewrite Forall_forall in Hall. specialize (Hall _ Hin). lia.
Qed.

(** X10. The Reader on a manifest the Writer has written, when the
    configured depth scale is not zero: [__init__] returns, the naturally
    sorted [image_names] is the manifest's own order, and the index built at
    load time maps every name to its position in that order. *)
Theorem reader_loads_writer_manifest (pf : Platform) save_path overwrite data_config
    (w w' : world (FS pf)) manifest json_load basedir sequence emb dir :
  create_dataset_from_files pf save_path overwrite data_config w = (Return tt, w') ->
  last (calls w') = Some (CallWriteText (transforms_path save_path) manifest) ->
  json_load (os_path_join basedir sequence +:+ "/transforms.json") = Return manifest ->
  ~ (get (depth_scale data_config) 1000 == 0)%Q ->
  exists self,
    __init__ json_load basedir sequence emb dir = Return self /\
    frames_metadata self = frames manifest /\
    image_names self = map file_path (frames manifest) /\
    NoDup (image_names self) /\
    forall i p, image_names self !! i = Some p <->
                filepath_index_mapping self !! p = Some i.
Proof.
  intros Hrun Hlast Hload Hscale.
  apply create_dataset_records in Hrun
    as (frames_ & ks & out & pre & Hc & _ & Hrs & Hsub & _).
  rewrite Hc, last_snoc in Hlast. injection Hlast as <-.
  apply sublist_seq_increasing in Hsub as [Hs _].
  apply written_record_name in Hrs as Hn.
  unfold __init__, load_cams_metadata. cbv zeta. rewrite Hload.
  cbn [obind frames make_manifest integer_depth_scale intrinsics].
  rewrite Hn, natsorted_int_frame_names by done. cbn [obind].
  destruct (Qeq_bool _ 0) eqn:Hz.
  { exfalso. apply Qeq_bool_iff in Hz. apply Hscale.
    apply (Qmult_inj_r _ _ (/ 65535)); [done|]. rewrite Hz. done. }
  cbn [obind]. eexists. split; [done|]. cbn.
  split; [done|]. split; [done|]. split; [by apply frame_names_NoDup|].
  pose proof (frame_names_NoDup ks Hs) as Hnd. rewrite <- Hn in Hnd |- *.
  intros i p. split.
  - intros Hi. apply list_lookup_fmap_Some in Hi as (f & -> & Hf).
    apply create_filepath_index_mapping_last; [done|].
    intros j g Hg Heq. cbn [frames make_manifest] in Hg.
    assert (j = i) as ->; [|done].
    eapply NoDup_lookup; [exact Hnd| |].
    + by rewrite list_lookup_fmap, Hg.
    + by rewrite list_lookup_fmap, Hf, Heq.
  - intros Hi. apply create_filepath_index_mapping_sound in Hi as (f & Hf & <-).
    by rewrite list_lookup_fmap, Hf.
Qed.

Lemma reader_loads_writer_manifest_witness :
  exists manifest self,
    last (calls (Capture.run true ["y"]).2)
      = Some (CallWriteText "out/transforms.json" manifest) /\
    Capture.reader manifest = Return self /\
    image_names self = map file_path (frames manifest).
Proof.
  assert (Hrun : create_dataset_from_files MemFS.platform (PurePath.of_str "out") true
                   Capture.config (Capture.start ["y"])
                 = (Return tt, (Capture.run true ["y"]).2)) by (vm_compute; reflexivity).
  assert (exists manifest,
             last (calls (Capture.run true ["y"]).2)
             = Some (CallWriteText "out/transforms.json" manifest)) as [manifest Hlast].
  { vm_compute. eauto. }
  assert (~ (get (depth_scale Capture.config) 1000 == 0)%Q) as Hscale by done.
  destruct (reader_loads_writer_manifest MemFS.platform _ _ _ _ _ manifest
              (fun _ => Return manifest) "data" "scene" false "embeddings"
              Hrun Hlast eq_refl Hscale) as (self & Hinit & _ & Hnames & _).
  exists manifest, self. split; [exact Hlast|]. split; [exact Hinit | exact Hnames].
Defined.

(** * The prompt and the input *)

Section Stdin.

Context (pf : Platform).
Implicit Types w : world (FS pf).

Lemma keeps_stdin_ret {A} (a : A) : keeps_stdin pf (mret a : W pf A).
Proof. done. Qed.

Lemma keeps_stdin_lift {A} (o : outcome A) : keeps_stdin pf (lift pf o).
Proof. done. Qed.

Lemma keeps_stdin_query {A} (f : FS pf -> A) : keeps_stdin pf (query pf f).
Proof. done. Qed.

Lemma keeps_stdin_read_fs {A} (f : FS pf -> outcome A) : keeps_stdin pf (read_fs pf f).
Proof. done. Qed.

Lemma keeps_stdin_print m : keeps_stdin pf (print pf m).
Proof. done. Qed.

Lemma keeps_stdin_mutate c f : keeps_stdin pf (mutate pf c f).
Proof. intros w. unfold mutate. by destruct (f (fs w)). Qed.

Lemma keeps_stdin_bind {A B} (m : W pf A) (k : A -> W pf B) :
  keeps_stdin pf m -> (forall a, keeps_stdin pf (k a)) -> keeps_stdin pf (m ≫= k).
Proof.
  intros Hm Hk w. rewrite bind_run. specialize (Hm w).
  destruct (m w) as [[a| |] w1]; simpl in *; [|done..].
  by rewrite Hk.
Qed.

Lemma keeps_stdin_try_except {A} (m : W pf A) (handler : exn -> W pf A) :
  keeps_stdin pf m -> (forall e, keeps_stdin pf (handler e)) ->
  keeps_stdin pf (try_except pf m handler).
Proof.
  intros Hm Hh w. unfold try_except. specialize (Hm w).
  destruct (m w) as [[a|e|] w1]; simpl in *; [done| |done].
  by rewrite Hh.
Qed.

Lemma keeps_stdin_for_frames {A S} (body : A -> S -> W pf S) l acc :
  (forall x s, keeps_stdin pf (body x s)) -> keeps_stdin pf (for_frames pf body l acc).
Proof.
  intros Hb. revert acc. induction l as [|x l IH]; intros acc; simpl.
  - apply keeps_stdin_ret.
  - apply keeps_stdin_bind; [apply Hb | apply IH].
Qed.

End Stdin.

Ltac keeps_stdin_step :=
  first
    [ apply keeps_stdin_ret | apply keeps_stdin_lift | apply keeps_stdin_query
    | apply keeps_stdin_read_fs | apply keeps_stdin_print | apply keeps_stdin_mutate
    | apply keeps_stdin_bind; [|intros ?]
    | apply keeps_stdin_try_except; [|intros ?]
    | match goal with
      | |- keeps_stdin _ (if ?b then _ else _) => destruct b
      | |- keeps_stdin _ (match ?x with _ => _ end) => destruct x
      end ].

Section StdinRun.

Context (pf : Platform).
Implicit Types w : world (FS pf).

Lemma keeps_stdin_process_frame data_config images_dir depth_dir data_dir_ i frs :
  keeps_stdin pf (process_frame pf data_config images_dir depth_dir data_dir_ i frs).
Proof.
  unfold process_frame, load_rgb, save_rgb, store_depth, load_transform, arith, imwrite,
    exists_, raise.
  repeat keeps_stdin_step.
Qed.

Lemma keeps_stdin_build_dataset save_path data_config :
  keeps_stdin pf (build_dataset pf save_path data_config).
Proof.
  unfold build_dataset, path_mkdir. repeat keeps_stdin_step.
  apply keeps_stdin_for_frames. intros. apply keeps_stdin_process_frame.
Qed.

End StdinRun.

(** X11. When the destination does not exist, the run is the build alone,
    whatever the overwrite flag: nothing is asked, nothing is removed and
    standard input is left as it was. *)
Theorem absent_destination_needs_no_consent (pf : Platform) save_path overwrite data_config
    (w : world (FS pf)) :
  path_exists pf (fs w) (PurePath.to_str save_path) = false ->
  let r := create_dataset_from_files pf save_path overwrite data_config w in
  r = build_dataset pf save_path data_config w /\
  stdin r.2 = stdin w /\
  (forall cs, calls r.2 = calls w ++ cs -> forall p, CallRmtree p ∉ cs) /\
  (forall out, stdout r.2 = stdout w ++ out ->
     forall p, (MsgPrompt p ∉ out) /\ (MsgExists p ∉ out)).
Proof.
  intros Hex r. subst r. rewrite create_dataset_run, overwrite_guard_absent by done.
  split; [done|]. split; [apply keeps_stdin_build_dataset|]. split.
  - intros cs Hcs p.
    destruct (emits_build_dataset pf save_path data_config w) as (cs' & _ & Hc & _ & Hnr & _).
    rewrite Hc in Hcs. apply app_inv_head in Hcs as <-. by apply not_rmtree_elem.
  - intros out Hout p.
    assert (emits pf (fun _ => True)
              (fun m => match m with MsgPrompt _ | MsgExists _ => False | _ => True end)
              (build_dataset pf save_path data_config)) as Hem.
    { unfold build_dataset, path_mkdir. emits_auto.
      apply emits_for_frames. intros i frs.
      unfold process_frame, load_rgb, save_rgb, store_depth, load_transform, arith, imwrite.
      emits_auto. }
    destruct (Hem w) as (_ & ms & _ & Ho & _ & Hms).
    rewrite Ho in Hout. apply app_inv_head in Hout as <-.
    rewrite Forall_forall in Hms. split; intros Hin; exact (Hms _ Hin).
Qed.

Lemma absent_destination_needs_no_consent_witness :
  create_dataset_from_files MemFS.platform (PurePath.of_str "fresh") true Capture.config
    (Capture.start ["n"])
  = build_dataset MemFS.platform (PurePath.of_str "fresh") Capture.config
      (Capture.start ["n"]) /\
  stdin (create_dataset_from_files MemFS.platform (PurePath.of_str "fresh") true
           Capture.config (Capture.start ["n"])).2 = ["n"].
Proof.
  assert (path_exists MemFS.platform (fs (Capture.start ["n"]))
            (PurePath.to_str (PurePath.of_str "fresh")) = false) as Hex
    by (vm_compute; reflexivity).
  destruct (absent_destination_needs_no_consent MemFS.platform (PurePath.of_str "fresh")
              true Capture.config (Capture.start ["n"]) Hex) as (Hrun & Hin & _).
  split; [exact Hrun | exact Hin].
Defined.

(** X12. When the destination exists, the overwrite flag is on and standard
    input is at its end, the prompt is written and the run ends with the
    uncaught [EOFError] of [input], a non-zero status, with no call made and
    the file system as it was. *)
Theorem prompt_at_end_of_input_raises (pf : Platform) save_path data_config
    (w : world (FS pf)) :
  path_exists pf (fs w) (PurePath.to_str save_path) = true ->
  stdin w = [] ->
  let r := create_dataset_from_files pf save_path true data_config w in
  r.1 = Raise EOFError /\ exit_status r.1 <> 0%Z /\
  fs r.2 = fs w /\ calls r.2 = calls w /\
  stdout r.2 = stdout w ++ [MsgPrompt (PurePath.to_str save_path)].
Proof.
  intros Hex Hin r. subst r.
  rewrite create_dataset_run, overwrite_guard_eof by done. by cbn.
Qed.

Lemma prompt_at_end_of_input_raises_witness :
  (Capture.run true []).1 = Raise EOFError /\
  fs (Capture.run true []).2 = Capture.files.
Proof.
  assert (path_exists MemFS.platform (fs (Capture.start []))
            (PurePath.to_str (PurePath.of_str "out")) = true) as Hex
    by (vm_compute; reflexivity).
  destruct (prompt_at_end_of_input_raises MemFS.platform (PurePath.of_str "out")
              Capture.config (Capture.start []) Hex eq_refl) as (Hr & _ & Hfs & _).
  split; [exact Hr | exact Hfs].
Defined.

(** * Depth values and poses *)

(** X13. Within the range of 16 bits the depth image the Writer stores
    keeps the order of the depths of its source: where the source has
    [0 <= d1 <= d2], in metres, and [d2] times the depth scale is at most
    65535, the image handed to [cv2.imwrite] for "depth/<i>.png" has values
    [0 <= z1 <= z2 <= 65535] at the same places. *)
Theorem quantize_monotone (pf : Platform) data_config depth_dir data_dir_ (i : nat)
    (w : world (FS pf)) (rel : string) (a : ndarray) :
  let s := get (depth_scale data_config) 1000%Q in
  let metres := if get (depth_in_millimeters data_config) false
                then arr_map (fun x => x / 1000)%Q a else a in
  let r := store_depth pf data_config depth_dir data_dir_ i w in
  str_format pf (depth_format data_config) i = Return rel ->
  path_exists pf (fs w) (PurePath.to_str (PurePath.joinpath data_dir_ rel)) = true ->
  (is_npy (PurePath.joinpath data_dir_ rel) = true /\
   np_load pf (fs w) (PurePath.to_str (PurePath.joinpath data_dir_ rel)) = Return a) \/
  (is_npy (PurePath.joinpath data_dir_ rel) = false /\
   cv2_imread pf (fs w) (PurePath.to_str (PurePath.joinpath data_dir_ rel)) true = Some a) ->
  shape_differs a (get (cfg_height data_config) 1080%Z) (get (cfg_width data_config) 1920%Z)
    = false ->
  (0 < s)%Q ->
  exists img,
    calls r.2 = calls w ++ [CallImwrite (depth_target depth_dir i) img] /\
    forall j k d1 d2,
      elems metres !! j = Some d1 -> elems metres !! k = Some d2 ->
      (0 <= d1)%Q -> (d1 <= d2)%Q -> (d2 * s <= 65535)%Q ->
      exists z1 z2,
        elems img !! j = Some (inject_Z z1) /\ elems img !! k = Some (inject_Z z2) /\
        (0 <= z1 <= z2)%Z /\ (z2 <= 65535)%Z.
Proof.
  intros s metres r Hfmt Hex Hsrc Hshape Hs.
  subst r. rewrite (store_depth_run pf data_config depth_dir data_dir_ i w rel a) by done.
  fold metres. fold s.
  set (img := astype_uint 16 (arr_map (fun x => x * s)%Q metres)).
  exists img. split.
  - rewrite bind_run.
    destruct (imwrite_run pf (PurePath.joinpath depth_dir (pretty i +:+ ".png")) img w)
      as [Hc _].
    by destruct (imwrite pf _ img w) as [[[]| |] w1].
  - intros j k d1 d2 Hj Hk H0 H12 Hmax.
    exists (quantize d1 s), (quantize d2 s).
    unfold img. rewrite astype_uint16_quantize.
    change (map ?f ?l) with (f <$> l). rewrite !list_lookup_fmap, Hj, Hk.
    split; [done|]. split; [done|]. by apply quantize_le.
Qed.

Lemma quantize_monotone_witness :
  exists img,
    calls (store_depth MemFS.platform Capture.config (PurePath.of_str "out/depth")
             (PurePath.of_str "raw") 0 (Capture.start [])).2
    = [CallImwrite "out/depth/0.png" img] /\
    exists z, elems img !! 0 = Some (inject_Z z) /\ (0 <= z <= 65535)%Z.
Proof.
  destruct (quantize_monotone MemFS.platform Capture.config (PurePath.of_str "out/depth")
              (PurePath.of_str "raw") 0 (Capture.start []) "d0.npy" Capture.pixel
              eq_refl eq_refl (or_introl (conj eq_refl eq_refl)) eq_refl eq_refl)
    as (img & Hc & Hmono).
  exists img. split; [exact Hc|].
  destruct (Hmono 0 0 (3 # 2)%Q (3 # 2)%Q eq_refl eq_refl) as (z1 & z2 & _ & Hz & H1 & H2).
  - discriminate.
  - discriminate.
  - discriminate.
  - exists z2. split; [exact Hz | lia].
Defined.

(** X14. On a 4x4 array the Reader's pose conversion returns a 4x4 array
    that changes signs only: entry (r, c) is negated when exactly one of r
    and c is 1 or 2, and kept otherwise.  So of the translation column the
    second and third entries are negated, and the bottom row of a rigid
    pose, (0, 0, 0, 1), is kept. *)
Theorem pose_conversion_flips_signs (M : matrix) :
  is_4x4 M = true ->
  exists M',
    convert_pose M = Return M' /\ is_4x4 M' = true /\
    forall r c, r < 4 -> c < 4 ->
      (entry M' r c == if flips_sign r c then - entry M r c else entry M r c)%Q.
Proof.
  intros H. four_by_four M H.
  eexists. split; [reflexivity|]. split; [reflexivity|].
  intros i j Hi Hj.
  destruct i as [|[|[|[|]]]]; try lia; destruct j as [|[|[|[|]]]]; try lia.
  all: cbv -[Qplus Qmult Qopp Qeq]; ring.
Qed.

Lemma pose_conversion_flips_signs_witness :
  exists M',
    convert_pose (transform_matrix (Capture.frame "rgb/2.png" 2)) = Return M' /\
    (entry M' 1 3 == - 2)%Q /\ (entry M' 0 3 == 2)%Q.
Proof.
  destruct (pose_conversion_flips_signs (transform_matrix (Capture.frame "rgb/2.png" 2))
              eq_refl) as (M' & HM & _ & He).
  exists M'. split; [exact HM|]. split.
  - exact (He 1 3 ltac:(lia) ltac:(lia)).
  - exact (He 0 3 ltac:(lia) ltac:(lia)).
Defined.

(** X15. The pose conversion commutes with the product of 4x4 arrays: the
    conversion of [A @ B] is, entry by entry, the product of the
    conversions, so poses relative to one another convert consistently. *)
Theorem pose_conversion_of_product (A B : matrix) :
  is_4x4 A = true -> is_4x4 B = true ->
  exists AB A' B' C C',
    matmul A B = Return AB /\ convert_pose AB = Return C /\
    convert_pose A = Return A' /\ convert_pose B = Return B' /\
    matmul A' B' = Return C' /\ mat_eq C C'.
Proof.
  intros HA HB. four_by_four A HA. four_by_four B HB.
  do 5 eexists. split; [reflexivity|]. split; [reflexivity|].
  split; [reflexivity|]. split; [reflexivity|]. split; [reflexivity|].
  repeat (constructor; [repeat (constructor; [cbv -[Qplus Qmult Qopp Qeq]; ring|]); constructor|]).
  constructor.
Qed.

Lemma pose_conversion_of_product_witness :
  exists AB A' C C',
    matmul (transform_matrix (Capture.frame "rgb/2.png" 2))
           (transform_matrix (Capture.frame "rgb/1.png" 1)) = Return AB /\
    convert_pose AB = Return C /\
    convert_pose (transform_matrix (Capture.frame "rgb/2.png" 2)) = Return A' /\
    mat_eq C C'.
Proof.
  destruct (pose_conversion_of_product
              (transform_matrix (Capture.frame "rgb/2.png" 2))
              (transform_matrix (Capture.frame "rgb/1.png" 1)) eq_refl eq_refl)
    as (AB & A' & B' & C & C' & H1 & H2 & H3 & _ & _ & H6).
  exists AB, A', C, C'. repeat split; assumption.
Defined.

(** * Names across the two programs *)

Lemma keyed_StronglySorted (l : list string) (kz : list Z) :
  Forall2 (fun x k => stem_key x = Return k) l kz ->
  StronglySorted Z.le kz -> StronglySorted stem_le l.
Proof.
  induction 1 as [|x k l kz Hx Hl IH]; intros Hs; [constructor|].
  apply StronglySorted_inv in Hs as [Hs Hall]. constructor; [by apply IH|].
  clear IH Hs. induction Hl as [|y j l kz Hy Hl IH]; [constructor|].
  apply Forall_cons in Hall as [Hj Hall]. constructor; [|by apply IH].
  by exists k, j.
Qed.

(** X16. A record of the Writer, read by the Reader: the colour path is
    "<folder>/rgb/<i>.png" and the depth path is "<folder>/depth/<i>.png",
    the latter whether or not the Writer stored a depth image for the frame
    (without one the record has no [depth_path] and the Reader derives the
    same name from [file_path]). *)
Theorem reader_paths_of_writer_record (base : string) data_config (i : nat)
    (transform : list (list Q)) (depth : option ndarray) :
  let f := frame_data data_config i transform depth in
  color_path_of base f = base +:+ "/rgb/" +:+ pretty i +:+ ".png" /\
  depth_path_of base f = base +:+ "/depth/" +:+ pretty i +:+ ".png" /\
  (depth = None -> depth_path f = None).
Proof.
  split; [done|]. split; [|by intros ->].
  unfold depth_path_of. destruct depth; [done|].
  cbn [depth_path file_path frame_data]. by rewrite replace_writer_name.
Qed.

(** X17. The Reader's natural sort puts names of the Writer's making in
    the order of their frame indices, whatever order they come in: "rgb/10.png"
    after "rgb/9.png". *)
Theorem natural_sort_orders_writer_names (l : list string) (ks : list nat) :
  Permutation l (map frame_name ks) ->
  StronglySorted lt ks ->
  natsorted_int stem_key l = Return (map frame_name ks).
Proof.
  intros Hp Hs.
  assert (forall x, x ∈ l -> exists i, x = frame_name i) as Hnames.
  { intros x Hx. rewrite Hp in Hx. apply list_elem_of_fmap in Hx as (i & -> & _). eauto. }
  destruct (natsorted_int_total stem_key l) as [l' Hl'].
  { apply Forall_forall. intros x (i & ->)%Hnames. by rewrite frame_name_key. }
  rewrite Hl'. f_equal.
  apply natsorted_int_spec in Hl' as (Hp' & kz & Hk & Hkz).
  apply (StronglySorted_unique_strong stem_le).
  - intros x1 x2 H1 H2 (a & b & Ha & Hb & Hab) (b' & a' & Hb' & Ha' & Hba).
    rewrite Hp' in H1. apply Hnames in H1 as (i & ->).
    apply list_elem_of_fmap in H2 as (j & -> & _).
    rewrite frame_name_key in Ha, Hb, Ha', Hb'. simplify_eq.
    f_equal. lia.
  - apply (keyed_StronglySorted _ kz); [done|]. by apply Sorted_StronglySorted; [apply _|].
  - apply (StronglySorted_fmap _ lt); [|done].
    intros i j Hij. exists (Z.of_nat i), (Z.of_nat j).
    rewrite !frame_name_key. split_and!; [done..|lia].
  - by rewrite Hp'.
Qed.

Lemma natural_sort_orders_writer_names_witness :
  natsorted_int stem_key ["rgb/10.png"; "rgb/9.png"; "rgb/0.png"]
  = Return ["rgb/0.png"; "rgb/9.png"; "rgb/10.png"].
Proof.
  apply (natural_sort_orders_writer_names _ [0; 9; 10]).
  - change (map frame_name [0; 9; 10]) with ["rgb/0.png"; "rgb/9.png"; "rgb/10.png"].
    rewrite (Permutation_swap "rgb/9.png" "rgb/10.png"
               ["rgb/0.png"]).
    symmetry. exact (Permutation_middle ["rgb/9.png"; "rgb/10.png"] [] "rgb/0.png").
  - repeat (constructor; [|repeat (constructor; try lia)]). constructor.
Defined.

(** * The manifest in the call trace *)

Section ManifestLast.

Context (pf : Platform).
Variable save_path : PurePath.t.
Implicit Types w : world (FS pf).

Lemma manifest_last_bind {A B} (m : W pf A) (k : A -> W pf B) :
  emits pf not_write_text (fun _ => True) m ->
  (forall a w, exists cs, calls (k a w).2 = calls w ++ cs /\ manifest_last save_path cs) ->
  forall w, exists cs, calls ((m ≫= k) w).2 = calls w ++ cs /\ manifest_last save_path cs.
Proof.
  intros Hm Hk w. rewrite bind_run.
  destruct (Hm w) as (cs1 & _ & Hc1 & _ & Hn1 & _).
  destruct (m w) as [[a| |] w1]; simpl in *; [|exists cs1; split; [done|by left]..].
  destruct (Hk a w1) as (cs2 & Hc2 & Hl).
  exists (cs1 ++ cs2). rewrite Hc2, Hc1, <- app_assoc. split; [done|].
  destruct Hl as [Hn2|(pre & manifest & -> & Hpre)].
  - left. by apply Forall_app.
  - right. exists (cs1 ++ pre), manifest. rewrite <- app_assoc. split; [done|].
    by apply Forall_app.
Qed.

Lemma manifest_last_build data_config w :
  exists cs, calls (build_dataset pf save_path data_config w).2 = calls w ++ cs /\
             manifest_last save_path cs.
Proof.
  revert w. unfold build_dataset, path_mkdir.
  do 4 (apply manifest_last_bind; [emits_auto|intros _]).
  apply manifest_last_bind.
  { apply emits_for_frames. intros i frs.
    unfold process_frame, load_rgb, save_rgb, store_depth, load_transform, arith, imwrite.
    emits_auto. }
  intros frames_ w. rewrite bind_run. unfold print at 1. cbv beta iota.
  rewrite bind_run. unfold mutate. cbn [fs stdin stdout calls].
  destruct (write_text pf _ _ (fs w)) as [[[]| |] f1];
    eexists; (split; [reflexivity|]); right; eexists [], _; by split.
Qed.

End ManifestLast.

(** X18. Whatever the run and however it ends, it writes at most one
    manifest, to "transforms.json" under the destination, and as its last
    call: a run that fails before the end has written no manifest. *)
Theorem manifest_written_last_or_never (pf : Platform) save_path overwrite data_config
    (w : world (FS pf)) :
  exists cs,
    calls (create_dataset_from_files pf save_path overwrite data_config w).2
      = calls w ++ cs /\
    (Forall not_write_text cs \/
     exists pre manifest,
       cs = pre ++ [CallWriteText (transforms_path save_path) manifest] /\
       Forall not_write_text pre).
Proof.
  unfold create_dataset_from_files. apply manifest_last_bind.
  - unfold overwrite_guard, shutil_rmtree. emits_auto.
  - intros _ w1. apply manifest_last_build.
Qed.

(** * The colour image *)

Lemma to_uint8_unit (x : Q) :
  (0 <= x)%Q -> (x <= 1)%Q ->
  to_uint 8 (x * 255) = Qfloor (x * 255) /\ (0 <= Qfloor (x * 255) <= 255)%Z.
Proof.
  intros H0 H1. unfold to_uint.
  assert (0 <= x * 255)%Q as Hx by lra.
  assert (x * 255 <= 255)%Q as Hy by lra.
  rewrite Qtrunc_nonneg by done.
  assert (0 <= Qfloor (x * 255) <= 255)%Z as Hr.
  { split.
    - change 0%Z with (Qfloor 0). by apply Qfloor_resp_le.
    - change 255%Z with (Qfloor 255). by apply Qfloor_resp_le. }
  split; [|done]. apply Z.mod_small. change (2 ^ 8)%Z with 256%Z. lia.
Qed.

Lemma foldl_max_le (bound : Q) xs m :
  (m <= bound)%Q -> Forall (fun x => (x <= bound)%Q) xs ->
  (foldl (fun m y => if Qle_bool m y then y else m) m xs <= bound)%Q.
Proof.
  intros Hm Hxs. revert m Hm. induction Hxs as [|x xs Hx _ IH]; intros m Hm; [done|].
  simpl. apply IH. by destruct (Qle_bool m x).
Qed.

(** X19. A colour source in [.npy] form whose values all lie between 0
    and 1 is taken as normalised: the image the Writer goes on with has the
    same shape and integer values between 0 and 255, 255 where the source
    has 1 and 0 where it has 0; nothing is written or logged.  An empty
    array fails with the [ValueError] of [max]. *)
Theorem load_rgb_normalised (pf : Platform) (rgb_path : PurePath.t) (w : world (FS pf))
    (a : ndarray) :
  is_npy rgb_path = true ->
  np_load pf (fs w) (PurePath.to_str rgb_path) = Return a ->
  (elems a = [] -> load_rgb pf rgb_path w = (Raise ValueError, w)) /\
  (elems a <> [] -> Forall (fun x => 0 <= x /\ x <= 1)%Q (elems a) ->
   exists b,
     load_rgb pf rgb_path w = (Return b, w) /\
     shape b = shape a /\
     Forall2 (fun x y => exists z, y = inject_Z z /\ (0 <= z <= 255)%Z /\
                                   ((x == 1)%Q -> z = 255%Z) /\ ((x == 0)%Q -> z = 0%Z))
             (elems a) (elems b)).
Proof.
  intros Hnpy Hload.
  assert (load_rgb pf rgb_path w =
          match arr_max a with
          | Return top =>
              (Return (if Qle_bool top 1
                       then astype_uint 8 (arr_map (fun x => x * 255)%Q a)
                       else astype_uint 8 a), w)
          | Raise e => (Raise e, w)
          | SysExit c => (SysExit c, w)
          end) as ->.
  { unfold load_rgb. rewrite Hnpy, bind_run. unfold read_fs. rewrite Hload.
    cbv beta iota. rewrite bind_run. unfold lift.
    destruct (arr_max a) as [top| |]; [|done..]. cbv beta iota.
    by destruct (Qle_bool top 1). }
  unfold arr_max. split.
  - by intros ->.
  - intros Hne Hunit. destruct (elems a) as [|x xs] eqn:Hel; [done|].
    assert (Qle_bool (foldl (fun m y => if Qle_bool m y then y else m) x xs) 1 = true)
      as ->.
    { apply Qle_bool_iff. apply foldl_max_le.
      - by apply Forall_cons in Hunit as [[_ ?] _].
      - apply Forall_cons in Hunit as [_ Hxs]. eapply Forall_impl; [exact Hxs|].
        by intros y [_ ?]. }
    eexists. split; [reflexivity|]. split; [reflexivity|].
    cbn [elems astype_uint arr_map]. rewrite Hel.
    rewrite map_map. apply Forall2_fmap_r.
    apply Forall_Forall2_diag. eapply Forall_impl; [exact Hunit|].
    intros y [Hy0 Hy1]. cbn.
    destruct (to_uint8_unit y Hy0 Hy1) as [Heq Hr].
    exists (to_uint 8 (y * 255)). rewrite Heq. split_and!; try done; try lia.
    + intros Hone. assert (y * 255 == 255)%Q as -> by (rewrite Hone; ring). done.
    + intros Hzero. assert (y * 255 == 0)%Q as -> by (rewrite Hzero; ring). done.
Qed.

Lemma load_rgb_normalised_witness :
  exists b,
    load_rgb MemFS.platform (PurePath.of_str "raw/mask.npy")
      (World [("raw/mask.npy", MemFS.Arr {| shape := [1; 2]; elems := [1; 1 # 2]%Q |})]
             [] [] [])
    = (Return b,
       World [("raw/mask.npy", MemFS.Arr {| shape := [1; 2]; elems := [1; 1 # 2]%Q |})]
             [] [] []) /\
    shape b = [1; 2].
Proof.
  destruct (load_rgb_normalised MemFS.platform (PurePath.of_str "raw/mask.npy")
              (World [("raw/mask.npy", MemFS.Arr {| shape := [1; 2]; elems := [1; 1 # 2]%Q |})]
                     [] [] [])
              {| shape := [1; 2]; elems := [1; 1 # 2]%Q |} eq_refl eq_refl) as [_ H].
  destruct H as (b & Hb & Hs & _).
  - discriminate.
  - repeat (constructor; [split; discriminate|]). constructor.
  - exists b. split; [exact Hb | exact Hs].
Defined.
